(** * teams-sip-blf: SIP BLF to Teams presence bridge

    A shallow embedding of the session and event-processing pipeline of the
    repository (packages [blf], [sip] and [graph]) together with the
    properties its design document states about it.

    Go strings and byte slices are byte sequences: both are modelled by
    [string] (a list of 8-bit [ascii]).  Go [int] values are modelled by
    [Z].  Go [error] values are modelled by their message. *)

From Stdlib Require Import ZArith String Ascii List Bool Lia DecimalString DecimalPos.
From stdpp Require Import base option list strings gmap.

Open Scope string_scope.
Open Scope Z_scope.

(* ===================================================================== *)
(** * The Go standard library, as far as the repository uses it          *)
(* ===================================================================== *)

(** Go's [error]: [None] is [nil], [Some msg] an error whose [Error()] is
    [msg].  [result A] is the pair [(A, error)] of a fallible call. *)
Definition error := string.

Inductive result (A : Type) : Type :=
| Ok (a : A)
| Err (e : error).
Arguments Ok {A} a.
Arguments Err {A} e.

(** ** Package [encoding/xml]: the token tree of a document

    [xml.Unmarshal] reads tokens up to the end of the first element of the
    input.  The tokenizer (well-formedness, entities, prefix resolution) is
    not part of the repository; a document is represented by the tree of the
    tokens it produces, with names already resolved to (space, local) pairs.
    Comments, directives and processing instructions are ignored by
    [Unmarshal] for the struct types used here and are not represented. *)
Module xml.

Record Name := mkName { Space : string; Local : string }.

Record Attr := mkAttr { AttrName : Name; Value : string }.

#[warnings="-register-all"]
Inductive Node :=
  | Element (name : Name) (attr : list Attr) (content : list Node)
  | CharData (data : string).

(** The character data directly inside an element, concatenated: what
    [Unmarshal] stores into a field of kind string. *)
Fixpoint charData (content : list Node) : string :=
  match content with
  | [] => EmptyString
  | CharData d :: rest => d ++ charData rest
  | Element _ _ _ :: rest => charData rest
  end.

(** A struct field tagged [`xml:"space local"`]; [fspace] empty matches any
    name space. *)
Definition fieldMatches (fspace flocal : string) (n : Name) : bool :=
  (String.eqb fspace EmptyString || String.eqb fspace (Space n))
  && String.eqb flocal (Local n).

End xml.

(** The parts of the Go runtime that are tables or parsers outside the
    repository.  The functions of package [strings] below follow the Go
    sources and call these only on input with a byte >= 0x80. *)
Class GoRuntime := {
  (** [strings.Map(unicode.ToLower, s)] *)
  MapUnicodeToLower : string → string;
  (** [strings.Map(unicode.ToUpper, s)] *)
  MapUnicodeToUpper : string → string;
  (** [strings.TrimFunc(s, unicode.IsSpace)] *)
  TrimFuncIsSpace : string → string;
  (** [strings.TrimRightFunc(s, unicode.IsSpace)] *)
  TrimRightFuncIsSpace : string → string;
  (** The tokenizer of [encoding/xml]: the tree of the first element of the
    input, or [None] when reading it reports a syntax error or the input
    ends before the element is complete. *)
  xmlDocument : string → option xml.Node;
}.

(** ** Package [strings] (and [bytes], [fmt], [strconv]) *)
Module strings.

Definition byte (c : ascii) : Z := Z.of_N (N_of_ascii c).

(** [utf8.RuneSelf]: bytes below it are single-byte runes. *)
Definition RuneSelf : Z := 128.

(** The table [asciiSpace]: tab, newline, vertical tab, form feed,
    carriage return, space. *)
Definition asciiSpace (c : ascii) : bool :=
  let b := byte c in
  (b =? 9) || (b =? 10) || (b =? 11) || (b =? 12) || (b =? 13) || (b =? 32).

Definition str_map (f : ascii → ascii) (s : string) : string :=
  string_of_list_ascii (map f (list_ascii_of_string s)).

Fixpoint str_drop (n : nat) (s : string) : string :=
  match n, s with
  | O, _ => s
  | S n', String _ s' => str_drop n' s'
  | S _, EmptyString => EmptyString
  end.

Fixpoint str_take (n : nat) (s : string) : string :=
  match n, s with
  | O, _ => EmptyString
  | S n', String c s' => String c (str_take n' s')
  | S _, EmptyString => EmptyString
  end.

(** [s[i:]] and [s[:i]] for [0 <= i <= len(s)]. *)
Definition sliceFrom (s : string) (i : Z) : string := str_drop (Z.to_nat i) s.
Definition sliceTo (s : string) (i : Z) : string := str_take (Z.to_nat i) s.

Definition len (s : string) : Z := Z.of_nat (String.length s).

(** [strings.Index(s, substr)]: index of the first instance, or -1. *)
Definition Index (s substr : string) : Z :=
  match String.index 0 substr s with
  | Some n => Z.of_nat n
  | None => -1
  end.

Definition containsByte (chars : string) (c : ascii) : bool :=
  existsb (Ascii.eqb c) (list_ascii_of_string chars).

Fixpoint indexAnyFrom (s chars : string) (i : Z) : Z :=
  match s with
  | EmptyString => -1
  | String c s' => if containsByte chars c then i else indexAnyFrom s' chars (i + 1)
  end.

(** [strings.IndexAny(s, chars)] for single-byte [chars]. *)
Definition IndexAny (s chars : string) : Z := indexAnyFrom s chars 0.

(** [strings.Contains] and [bytes.Contains]. *)
Definition Contains (s substr : string) : bool := 0 <=? Index s substr.

Definition isASCII (s : string) : bool :=
  forallb (fun c => byte c <? RuneSelf) (list_ascii_of_string s).

Definition lowerByte (c : ascii) : ascii :=
  if (65 <=? byte c) && (byte c <=? 90)
  then ascii_of_N (N_of_ascii c + 32) else c.

Definition upperByte (c : ascii) : ascii :=
  if (97 <=? byte c) && (byte c <=? 122)
  then ascii_of_N (N_of_ascii c - 32) else c.

(** [fmt.Sprintf("%d", n)]. *)
Definition Itoa (n : Z) : string := NilZero.string_of_int (Z.to_int n).

Section WithRuntime.
Context `{rt : GoRuntime}.

(** [strings.ToLower]: byte-wise on ASCII-only input, the Unicode
    mapping otherwise. *)
Definition ToLower (s : string) : string :=
  if isASCII s then str_map lowerByte s else MapUnicodeToLower s.

Definition ToUpper (s : string) : string :=
  if isASCII s then str_map upperByte s else MapUnicodeToUpper s.

(** Second loop of [TrimSpace], on the reversed bytes of [s[start:stop]]:
    steps [stop] down over ASCII space. *)
Fixpoint trimSpaceStop (rev_s : list ascii) : string :=
  match rev_s with
  | [] => EmptyString
  | c :: r =>
      if RuneSelf <=? byte c
      then TrimRightFuncIsSpace (string_of_list_ascii (rev rev_s))
      else if asciiSpace c then trimSpaceStop r
      else string_of_list_ascii (rev rev_s)
  end.

(** [strings.TrimSpace]: the first loop steps [start] up over ASCII
    space and hands over to the Unicode-aware functions at the first
    byte >= [RuneSelf]. *)
Fixpoint TrimSpace (s : string) : string :=
  match s with
  | EmptyString => EmptyString
  | String c s' =>
      if RuneSelf <=? byte c then TrimFuncIsSpace s
      else if asciiSpace c then TrimSpace s'
      else trimSpaceStop (rev (list_ascii_of_string s))
  end.

End WithRuntime.

End strings.

(* ===================================================================== *)
(** * Package [blf]: dialog-info parsing and the state mapper            *)
(* ===================================================================== *)
Module blf.
Import strings.

(** [type State string] with its four constants. *)
Definition State := string.

Definition StateIdle : State := "idle".
Definition StateRinging : State := "ringing".
Definition StateBusy : State := "busy".
Definition StateUnknown : State := "unknown".

Definition GraphAvailabilityAvailable : string := "Available".
Definition GraphAvailabilityBusy : string := "Busy".
Definition GraphActivityAvailable : string := "Available".
Definition GraphActivityInACall : string := "InACall".

(** [State.ToGraph]: a [switch] on the string value with a default. *)
Definition ToGraph (s : State) : string * string :=
  if String.eqb s StateIdle then
    (GraphAvailabilityAvailable, GraphActivityAvailable)
  else if String.eqb s StateRinging || String.eqb s StateBusy then
    (GraphAvailabilityBusy, GraphActivityInACall)
  else
    (GraphAvailabilityAvailable, GraphActivityAvailable).

(** The name space of RFC 4235. *)
Definition dialogInfoNS : string := "urn:ietf:params:xml:ns:dialog-info".

(** The anonymous struct type of [Dialog.Local] and [Dialog.Remote]. *)
Record Party := mkParty { Identity : string; Target : string }.

Record Dialog := mkDialog {
  ID : string;
  State_ : string;      (* field [State]: content of the child <state> *)
  StateAttr : string;
  Direction : string;
  Local : Party; Remote : Party;
}.

Record DialogInfo := mkDialogInfo {
  XMLName : xml.Name;
  Entity : string;
  Dialogs : list Dialog;
}.

Record dialogNoNS := mkDialogNoNS {
  ID' : string;
  State' : string;
  StateAttr' : string;
}.

Record dialogInfoNoNS := mkDialogInfoNoNS {
  XMLName' : xml.Name;
  Entity' : string;
  Dialogs' : list dialogNoNS;
}.

Definition zeroParty : Party := mkParty EmptyString EmptyString.
Definition zeroDialog : Dialog :=
  mkDialog EmptyString EmptyString EmptyString EmptyString zeroParty zeroParty.
Definition zeroDialogNoNS : dialogNoNS :=
  mkDialogNoNS EmptyString EmptyString EmptyString.

(** *** [xml.Unmarshal] into the struct types, following their tags

    Attributes are assigned in document order to every [attr] field whose
    name equals the attribute's local name (a later attribute overwrites an
    earlier one).  A child element is given to the first field, in
    declaration order, whose tag matches its name; children that match no
    field are skipped.  A repeated child of a non-slice field is
    unmarshalled into the same field again. *)

Definition partyChild (p : Party) (n : xml.Node) : Party :=
  match n with
  | xml.Element name _ content =>
      if xml.fieldMatches dialogInfoNS "identity" name then
        mkParty (xml.charData content) (Target p)
      else if xml.fieldMatches dialogInfoNS "target" name then
        mkParty (Identity p) (xml.charData content)
      else p
  | xml.CharData _ => p
  end.

Definition unmarshalParty (p : Party) (content : list xml.Node) : Party :=
  fold_left partyChild content p.

Definition dialogAttr (d : Dialog) (a : xml.Attr) : Dialog :=
  let l := xml.Local (xml.AttrName a) in
  let d1 := if String.eqb l "id"
            then mkDialog (xml.Value a) (State_ d) (StateAttr d) (Direction d) (Local d) (Remote d)
            else d in
  let d2 := if String.eqb l "state"
            then mkDialog (ID d1) (State_ d1) (xml.Value a) (Direction d1) (Local d1) (Remote d1)
            else d1 in
  if String.eqb l "direction"
  then mkDialog (ID d2) (State_ d2) (StateAttr d2) (xml.Value a) (Local d2) (Remote d2)
  else d2.

Definition dialogChild (d : Dialog) (n : xml.Node) : Dialog :=
  match n with
  | xml.Element name _ content =>
      if xml.fieldMatches dialogInfoNS "state" name then
        mkDialog (ID d) (xml.charData content) (StateAttr d) (Direction d) (Local d) (Remote d)
      else if xml.fieldMatches dialogInfoNS "local" name then
        mkDialog (ID d) (State_ d) (StateAttr d) (Direction d)
                 (unmarshalParty (Local d) content) (Remote d)
      else if xml.fieldMatches dialogInfoNS "remote" name then
        mkDialog (ID d) (State_ d) (StateAttr d) (Direction d)
                 (Local d) (unmarshalParty (Remote d) content)
      else d
  | xml.CharData _ => d
  end.

Definition unmarshalDialog (attr : list xml.Attr) (content : list xml.Node) : Dialog :=
  fold_left dialogChild content (fold_left dialogAttr attr zeroDialog).

Definition entityAttr (e : string) (a : xml.Attr) : string :=
  if String.eqb (xml.Local (xml.AttrName a)) "entity" then xml.Value a else e.

Definition dialogInfoChild (ds : list Dialog) (n : xml.Node) : list Dialog :=
  match n with
  | xml.Element name attr content =>
      if xml.fieldMatches dialogInfoNS "dialog" name
      then ds ++ [unmarshalDialog attr content] else ds
  | xml.CharData _ => ds
  end.

(** [xml.Unmarshal(body, &info)] for [info DialogInfo]: the element must
    be [dialog-info] in the RFC 4235 name space. *)
Definition unmarshalDialogInfo (root : xml.Node) : option DialogInfo :=
  match root with
  | xml.Element name attr content =>
      if negb (String.eqb (xml.Local name) "dialog-info") then None
      else if negb (String.eqb (xml.Space name) dialogInfoNS) then None
      else Some (mkDialogInfo name
                   (fold_left entityAttr attr EmptyString)
                   (fold_left dialogInfoChild content []))
  | xml.CharData _ => None
  end.

Definition dialogNoNSAttr (d : dialogNoNS) (a : xml.Attr) : dialogNoNS :=
  let l := xml.Local (xml.AttrName a) in
  let d1 := if String.eqb l "id"
            then mkDialogNoNS (xml.Value a) (State' d) (StateAttr' d) else d in
  if String.eqb l "state"
  then mkDialogNoNS (ID' d1) (State' d1) (xml.Value a) else d1.

Definition dialogNoNSChild (d : dialogNoNS) (n : xml.Node) : dialogNoNS :=
  match n with
  | xml.Element name _ content =>
      if xml.fieldMatches EmptyString "state" name
      then mkDialogNoNS (ID' d) (xml.charData content) (StateAttr' d) else d
  | xml.CharData _ => d
  end.

Definition unmarshalDialogNoNS (attr : list xml.Attr) (content : list xml.Node) : dialogNoNS :=
  fold_left dialogNoNSChild content (fold_left dialogNoNSAttr attr zeroDialogNoNS).

Definition dialogInfoNoNSChild (ds : list dialogNoNS) (n : xml.Node) : list dialogNoNS :=
  match n with
  | xml.Element name attr content =>
      if xml.fieldMatches EmptyString "dialog" name
      then ds ++ [unmarshalDialogNoNS attr content] else ds
  | xml.CharData _ => ds
  end.

(** [xml.Unmarshal(body, &infoNoNS)]: the element must be called
    [dialog-info], in any name space or none. *)
Definition unmarshalDialogInfoNoNS (root : xml.Node) : option dialogInfoNoNS :=
  match root with
  | xml.Element name attr content =>
      if negb (String.eqb (xml.Local name) "dialog-info") then None
      else Some (mkDialogInfoNoNS name
                   (fold_left entityAttr attr EmptyString)
                   (fold_left dialogInfoNoNSChild content []))
  | xml.CharData _ => None
  end.

Section WithRuntime.
Context `{rt : GoRuntime}.

Definition Unmarshal_DialogInfo (body : string) : option DialogInfo :=
  match xmlDocument body with
  | Some root => unmarshalDialogInfo root
  | None => None
  end.

Definition Unmarshal_dialogInfoNoNS (body : string) : option dialogInfoNoNS :=
  match xmlDocument body with
  | Some root => unmarshalDialogInfoNoNS root
  | None => None
  end.

(** [Dialog.dialogState]: the child <state> text, or the state attribute
    when that is blank, in lower case. *)
Definition dialogState (d : Dialog) : string :=
  let s := TrimSpace (State_ d) in
  let s := if String.eqb s EmptyString then TrimSpace (StateAttr d) else s in
  ToLower s.

Fixpoint dialogsToStateLoop (dialogs : list Dialog) : State :=
  match dialogs with
  | [] => StateIdle
  | d :: rest =>
      let s := dialogState d in
      if String.eqb s "terminated" || String.eqb s EmptyString then
        dialogsToStateLoop rest
      else if String.eqb s "trying" || String.eqb s "early"
              || String.eqb s "proceeding" then StateRinging
      else if String.eqb s "confirmed" then StateBusy
      else StateBusy
  end.

Definition dialogsToState (dialogs : list Dialog) : State :=
  if Z.of_nat (length dialogs) =? 0 then StateIdle
  else dialogsToStateLoop dialogs.

Definition dialogStateStr (s sAttr : string) : string :=
  let s := TrimSpace (ToLower s) in
  if String.eqb s EmptyString then TrimSpace (ToLower sAttr) else s.

Fixpoint dialogsNoNSToStateLoop (dialogs : list dialogNoNS) : State :=
  match dialogs with
  | [] => StateIdle
  | d :: rest =>
      let s := dialogStateStr (State' d) (StateAttr' d) in
      if String.eqb s "terminated" || String.eqb s EmptyString then
        dialogsNoNSToStateLoop rest
      else if String.eqb s "trying" || String.eqb s "early"
              || String.eqb s "proceeding" then StateRinging
      else if String.eqb s "confirmed" then StateBusy
      else StateBusy
  end.

Definition dialogsNoNSToState (dialogs : list dialogNoNS) : State :=
  if Z.of_nat (length dialogs) =? 0 then StateIdle
  else dialogsNoNSToStateLoop dialogs.

(** [ParseDialogInfo]: the RFC name space first, then without. *)
Definition ParseDialogInfo (body : string) : State :=
  match Unmarshal_DialogInfo body with
  | Some info => dialogsToState (Dialogs info)
  | None =>
      match Unmarshal_dialogInfoNoNS body with
      | None => StateUnknown
      | Some infoNoNS => dialogsNoNSToState (Dialogs' infoNoNS)
      end
  end.

(** The rule shared by both branches of [ExtensionFromDialogInfo]: the
    text after the first colon, up to the first [@] if there is one;
    [None] when there is no colon (the branch falls through). *)
Definition afterColonBeforeAt (s : string) : option string :=
  let idx := Index s ":" in
  if 0 <=? idx then
    let rest := sliceFrom s (idx + 1) in
    let at_ := Index rest "@" in
    if 0 <=? at_ then Some (sliceTo rest at_) else Some rest
  else None.

(** [ExtensionFromDialogInfo]: decodes with the name-spaced type only. *)
Definition ExtensionFromDialogInfo (body : string) : string :=
  match Unmarshal_DialogInfo body with
  | None => EmptyString
  | Some info =>
      let fromDialogs :=
        match Dialogs info with
        | d0 :: _ =>
            if negb (String.eqb (Identity (Local d0)) EmptyString) then
              match afterColonBeforeAt (Identity (Local d0)) with
              | Some ext => ext
              | None => EmptyString
              end
            else EmptyString
        | [] => EmptyString
        end in
      if negb (String.eqb (Entity info) EmptyString) then
        match afterColonBeforeAt (Entity info) with
        | Some ext => ext
        | None => fromDialogs
        end
      else fromDialogs
  end.

(** [ParsePresenceBody]: the looser parser [handleNOTIFY] falls back to. *)
Definition ParsePresenceBody (body : string) : State :=
  if Contains body "dialog-info" then ParseDialogInfo body
  else if Contains body "closed" && negb (Contains body "open") then StateIdle
  else if Contains body "open" then StateBusy
  else StateUnknown.

End WithRuntime.

End blf.


(* ===================================================================== *)
(** * Package [slog]: structured log records                             *)
(* ===================================================================== *)
Module slog.

Inductive Level := LevelDebug | LevelInfo | LevelWarn | LevelError.

Inductive Value :=
| String_ (s : string)
| Int_ (n : Z)
| Strings_ (l : list string).

Record Entry := mkEntry {
  level : Level;
  msg : string;
  attrs : list (string * Value);
}.

End slog.

(* ===================================================================== *)
(** * Package [sip]: the session manager and the event dispatcher        *)
(* ===================================================================== *)

(** Package [github.com/icholy/digest]. *)
Module digest.

Record Options := mkOptions {
  Method : string;
  URI : string;
  Username : string;
  Password : string;
}.

End digest.

(** The message types of [github.com/emiago/sipgo/sip] that the client
    touches.  The sequence number is kept apart from the other headers; the
    remaining headers are (name, value) pairs in order. *)
Module sipmsg.

Record Uri := mkUri { User : string; Host : string; Port : Z }.

Record Header := NewHeader { Name : string; Value : string }.

Record Request := mkRequest {
  Method : string;
  Recipient : Uri;
  Headers : list Header;
  CSeq : option Z;
  Transport : string;
  Body : string;
}.

Record Response := mkResponse {
  StatusCode : Z;
  Reason : string;
  ResHeaders : list Header;
}.

Definition REGISTER : string := "REGISTER".
Definition SUBSCRIBE : string := "SUBSCRIBE".

Definition NewRequest (method : string) (recipient : Uri) : Request :=
  mkRequest method recipient [] None EmptyString EmptyString.

Definition AppendHeader (r : Request) (h : Header) : Request :=
  mkRequest (Method r) (Recipient r) (Headers r ++ [h]) (CSeq r) (Transport r) (Body r).

Definition SetTransport (r : Request) (tp : string) : Request :=
  mkRequest (Method r) (Recipient r) (Headers r) (CSeq r) tp (Body r).

Definition SetCSeq (r : Request) (n : option Z) : Request :=
  mkRequest (Method r) (Recipient r) (Headers r) n (Transport r) (Body r).

(** The assignment [r.Recipient.User = ""]. *)
Definition clearUser (r : Request) : Request :=
  mkRequest (Method r) (mkUri EmptyString (Host (Recipient r)) (Port (Recipient r)))
            (Headers r) (CSeq r) (Transport r) (Body r).

(** Header names compare without regard to ASCII case. *)
Definition sameName (a b : string) : bool :=
  String.eqb (strings.str_map strings.lowerByte a) (strings.str_map strings.lowerByte b).

(** [PrependHeader]: the headers are put in front of the ones present. *)
Definition PrependHeader (r : Request) (hs : list Header) : Request :=
  mkRequest (Method r) (Recipient r) (hs ++ Headers r) (CSeq r) (Transport r) (Body r).

Fixpoint removeFirst (name : string) (hs : list Header) : list Header :=
  match hs with
  | [] => []
  | h :: rest => if String.eqb (Name h) name then rest else h :: removeFirst name rest
  end.

(** [RemoveHeader]: only the first header whose name is exactly [name] is
    removed; further headers of that name stay. *)
Definition RemoveHeader (r : Request) (name : string) : Request :=
  mkRequest (Method r) (Recipient r) (removeFirst name (Headers r))
            (CSeq r) (Transport r) (Body r).

Definition findHeader (hs : list Header) (name : string) : option Header :=
  find (fun h => sameName (Name h) name) hs.

(** [Request.Clone]: a deep copy; the model has no sharing to break. *)
Definition Clone (r : Request) : Request := r.

Definition NewResponseFromRequest (req : Request) (code : Z) (reason : string) : Response :=
  mkResponse code reason [].

(** What a client transaction delivers to [getResponse]'s [select]: its
    [Done] channel fires, or a response arrives. *)
Inductive ClientTransaction :=
| TxDone
| TxResponse (res : Response).

(** A server transaction: [Respond] returns [nil] or an error. *)
Record ServerTransaction := mkServerTransaction {
  Respond : Response → option error;
}.

End sipmsg.

(** The request options of package [sipgo] passed to [TransactionRequest]. *)
Inductive ClientRequestOption :=
| ClientRequestBuild
| ClientRequestRegisterBuild
| ClientRequestAddVia
| ClientRequestIncreaseCSEQ.

(** The libraries under the SIP client: URI and challenge parsing, digest
    computation, and the values the stack chooses for new headers. *)
Class SipLib := {
  ParseUri : string → result sipmsg.Uri;
  Challenge : Type;
  Credentials : Type;
  ParseChallenge : string → result Challenge;
  Digest : Challenge → digest.Options → result Credentials;
  CredentialsString : Credentials → string;
  (** sequence number given to a request that has none *)
  firstSeqNo : Z;
  (** value of the Via header the stack adds to a request *)
  viaValue : sipmsg.Request → string;
}.

(** What the peer and the transport do with one client transaction. *)
Inductive TxOutcome :=
| SendFails (err : error)           (* [TransactionRequest] returns an error *)
| Dies                              (* no reply: the transaction ends *)
| Replies (res : sipmsg.Response).  (* first response delivered *)

Module sip.
Import strings sipmsg.

Record Config := mkConfig {
  Server : string;
  Transport : string;
  Username : string;
  Password : string;
  ContactIP : string;
  ContactPort : Z;
  STUNServers : list string;
  UserAgent : string;
}.

(** The world the client acts on: the outcomes of the transactions still to
    come (in order; when none is left a transaction gets no reply), the
    requests handed to the transaction layer so far, and the log. *)
Record World := mkWorld {
  outcomes : list TxOutcome;
  sent : list Request;
  logs : list slog.Entry;
}.

(** Code that may fail and acts on the world. *)
Definition M (A : Type) : Type := World → World * result A.

Definition ret {A} (a : A) : M A := fun w => (w, Ok a).
Definition fail {A} (e : error) : M A := fun w => (w, Err e).
Definition bind {A B} (m : M A) (k : A → M B) : M B :=
  fun w => match m w with
           | (w', Ok a) => k a w'
           | (w', Err e) => (w', Err e)
           end.
Definition lift {A} (r : result A) : M A := fun w => (w, r).

Notation "'do' x <- m ; k" := (bind m (fun x => k))
  (at level 10, x pattern, m at level 100, k at level 200).

Definition logAt (l : slog.Level) (msg : string) (attrs : list (string * slog.Value))
  (w : World) : World :=
  mkWorld (outcomes w) (sent w) (logs w ++ [slog.mkEntry l msg attrs]).

Definition log (l : slog.Level) (msg : string) (attrs : list (string * slog.Value)) : M unit :=
  fun w => (logAt l msg attrs w, Ok tt).

(** [Client].  [onBLF] is the [BLFHandler], [None] for a nil func; [A] is
    what a call of the handler does.  The handles [ua], [client], [server],
    [log] and [mu] are represented by the world. *)
Record Client (A : Type) := mkClient {
  cfg : Config;
  extensions : list string;
  onBLF : option (string → blf.State → A);
}.
Arguments mkClient {A} cfg extensions onBLF.
Arguments cfg {A} c.
Arguments extensions {A} c.
Arguments onBLF {A} c.

Section WithLibraries.
Context `{rt : GoRuntime} `{lib : SipLib}.

(** What [ClientRequestBuild] adds to a request: a Via header in front
    unless the request has one, and a sequence number unless it has one.
    It also fills in From, To, Call-ID and Max-Forwards, which the client
    never reads back. *)
Definition buildReq (r : Request) : Request :=
  let r1 := match findHeader (Headers r) "Via" with
            | None => PrependHeader r [NewHeader "Via" (viaValue r)]
            | Some _ => r
            end in
  match CSeq r1 with
  | None => SetCSeq r1 (Some firstSeqNo)
  | Some _ => r1
  end.

(** The effect of one request option on the request it is applied to.
    [ClientRequestRegisterBuild] removes the user part of the request URI
    and builds the request; [ClientRequestAddVia] puts a new Via header in
    front of the headers present. *)
Definition applyOption (o : ClientRequestOption) (r : Request) : result Request :=
  match o with
  | ClientRequestAddVia => Ok (PrependHeader r [NewHeader "Via" (viaValue r)])
  | ClientRequestBuild => Ok (buildReq r)
  | ClientRequestRegisterBuild => Ok (buildReq (clearUser r))
  | ClientRequestIncreaseCSEQ =>
      match CSeq r with
      | None => Err "missing CSEQ"
      | Some n => Ok (SetCSeq r (Some (n + 1)))
      end
  end.

Fixpoint applyOptions (os : list ClientRequestOption) (r : Request) : result Request :=
  match os with
  | [] => Ok r
  | o :: rest =>
      match applyOption o r with
      | Ok r' => applyOptions rest r'
      | Err e => Err e
      end
  end.

(** [Client.TransactionRequest]: the options are applied to the request in
    place, the request is handed to the transaction layer, and the next
    outcome decides what the caller sees.  The request as sent is returned
    next to the transaction because the caller goes on using it. *)
Definition TransactionRequest (req : Request) (os : list ClientRequestOption)
  : M (Request * ClientTransaction) :=
  fun w =>
    match applyOptions os req with
    | Err e => (w, Err e)
    | Ok req' =>
        let w' := mkWorld (tl (outcomes w)) (sent w ++ [req']) (logs w) in
        match outcomes w with
        | SendFails e :: _ => (w', Err e)
        | Replies res :: _ => (w', Ok (req', TxResponse res))
        | Dies :: _ | [] => (w', Ok (req', TxDone))
        end
    end.

Section WithHandler.
Context {A : Type}.
Implicit Types c : Client A.

Definition contactAddr c : string :=
  if (ContactPort (cfg c) >? 0) && negb (ContactPort (cfg c) =? 5060) then
    "<sip:" ++ Username (cfg c) ++ "@" ++ ContactIP (cfg c) ++ ":"
      ++ Itoa (ContactPort (cfg c)) ++ ">"
  else
    "<sip:" ++ Username (cfg c) ++ "@" ++ ContactIP (cfg c) ++ ">".

Definition getResponse (tx : ClientTransaction) : M Response :=
  match tx with
  | TxDone => fail "transaction died"
  | TxResponse res => ret res
  end.

(** [Client.Register] *)
Definition Register c : M unit :=
  let parseURI := "sip:" ++ Username (cfg c) ++ "@" ++ Server (cfg c) in
  do recipient <- lift (ParseUri parseURI);
  let req := NewRequest REGISTER recipient in
  let req := AppendHeader req (NewHeader "Contact" (contactAddr c)) in
  let req := SetTransport req (ToUpper (Transport (cfg c))) in
  do (req, tx) <- TransactionRequest req [ClientRequestRegisterBuild];
  do res <- getResponse tx;
  do res <-
    (if StatusCode res =? 401 then
       match findHeader (ResHeaders res) "WWW-Authenticate" with
       | None => fail "401 without WWW-Authenticate"
       | Some wwwAuth =>
           do chal <- lift (ParseChallenge (Value wwwAuth));
           do cred <- lift (Digest chal
                              (digest.mkOptions (Method req) (Host recipient)
                                                (Username (cfg c)) (Password (cfg c))));
           let newReq := Clone req in
           let newReq := RemoveHeader newReq "Via" in
           let newReq := AppendHeader newReq
                           (NewHeader "Authorization" (CredentialsString cred)) in
           do (_, tx2) <- TransactionRequest newReq
                            [ClientRequestIncreaseCSEQ; ClientRequestAddVia];
           getResponse tx2
       end
     else ret res);
  if negb (StatusCode res =? 200) && negb (StatusCode res =? 202) then
    fail ("register failed: " ++ Itoa (StatusCode res))
  else
    do _ <- log slog.LevelInfo "registered" [("status", slog.Int_ (StatusCode res))];
    ret tt.

(** [Client.subscribeOne] *)
Definition subscribeOne c (extension : string) : M unit :=
  let parseURI := "sip:" ++ extension ++ "@" ++ Server (cfg c) in
  do recipient <- lift (ParseUri parseURI);
  let req := NewRequest SUBSCRIBE recipient in
  let req := AppendHeader req (NewHeader "Event" "dialog") in
  let req := AppendHeader req (NewHeader "Expires" "3600") in
  let req := AppendHeader req (NewHeader "Accept" "application/dialog-info+xml") in
  let req := SetTransport req (ToUpper (Transport (cfg c))) in
  do (req, tx) <- TransactionRequest req [ClientRequestBuild; ClientRequestAddVia];
  do res <- getResponse tx;
  do res <-
    (if StatusCode res =? 401 then
       match findHeader (ResHeaders res) "WWW-Authenticate" with
       | None => fail ("subscribe " ++ extension ++ ": 401 without WWW-Authenticate")
       | Some wwwAuth =>
           do chal <- (match ParseChallenge (Value wwwAuth) with
                       | Ok ch => ret ch
                       | Err e => fail ("subscribe " ++ extension ++ ": parse challenge: " ++ e)
                       end);
           do cred <- (match Digest chal
                               (digest.mkOptions (Method req) (Host recipient)
                                                 (Username (cfg c)) (Password (cfg c))) with
                       | Ok cr => ret cr
                       | Err e => fail ("subscribe " ++ extension ++ ": digest: " ++ e)
                       end);
           let newReq := Clone req in
           let newReq := RemoveHeader newReq "Via" in
           let newReq := AppendHeader newReq
                           (NewHeader "Authorization" (CredentialsString cred)) in
           do (_, tx2) <- TransactionRequest newReq
                            [ClientRequestIncreaseCSEQ; ClientRequestAddVia];
           getResponse tx2
       end
     else ret res);
  if negb (StatusCode res =? 200) && negb (StatusCode res =? 202) then
    fail ("subscribe " ++ extension ++ ": " ++ Itoa (StatusCode res))
  else ret tt.

(** The body of the [for] loop of [Subscribe] with the slice [failed] it
    appends to. *)
Fixpoint subscribeLoop c (exts : list string) (failed : list string) (w : World)
  : World * list string :=
  match exts with
  | [] => (w, failed)
  | ext :: rest =>
      match subscribeOne c ext w with
      | (w1, Err err) =>
          let w2 :=
            if Contains err "404" then
              logAt slog.LevelWarn "subscribe 404 (extension may lack BLF hint on PBX)"
                [("extension", slog.String_ ext);
                 ("hint", slog.String_ "See README or FreePBX dialplan hints / res_pjsip allow_subscribe")]
                w1
            else
              logAt slog.LevelError "subscribe failed"
                [("extension", slog.String_ ext); ("error", slog.String_ err)] w1 in
          subscribeLoop c rest (failed ++ [ext]) w2
      | (w1, Ok _) =>
          subscribeLoop c rest failed
            (logAt slog.LevelInfo "subscribed to BLF" [("extension", slog.String_ ext)] w1)
      end
  end.

(** [fmt.Sprintf("%v", l)] for a slice of strings. *)
Definition fmtStrings (l : list string) : string :=
  "[" ++ String.concat " " l ++ "]".

Definition allFailedMessage (failed : list string) : error :=
  "all subscriptions failed (extensions: " ++ fmtStrings failed
    ++ "); check PBX dialplan hints and res_pjsip allow_subscribe".

(** [Client.Subscribe] *)
Definition Subscribe c : M unit :=
  fun w =>
    let '(w1, failed) := subscribeLoop c (extensions c) [] w in
    if Z.of_nat (length failed) =? Z.of_nat (length (extensions c)) then
      (w1, Err (allFailedMessage failed))
    else
      let w2 := if Z.of_nat (length failed) >? 0
                then logAt slog.LevelWarn "some extensions could not be subscribed"
                       [("failed", slog.Strings_ failed)] w1
                else w1 in
      (w2, Ok tt).

(** What [handleNOTIFY] does, in order: calls of [tx.Respond], of the logger
    and of the handler. *)
Inductive NotifyEvent :=
| Responded (res : Response)
| Logged (e : slog.Entry)
| Called (a : A).

(** The fallback of [handleNOTIFY]: the user part of the To header value. *)
Definition extensionFromTo (extension : string) (to : option Header) : string :=
  match to with
  | None => extension
  | Some to =>
      let val := Value to in
      let idx := Index val ":" in
      if 0 <=? idx then
        let rest := sliceFrom val (idx + 1) in
        let end_ := IndexAny rest ">;" in
        let rest := if 0 <=? end_ then sliceTo rest end_ else rest in
        let at_ := Index rest "@" in
        if 0 <=? at_ then sliceTo rest at_ else extension
      else extension
  end.

(** [Client.handleNOTIFY] *)
Definition handleNOTIFY c (req : Request) (tx : ServerTransaction) : list NotifyEvent :=
  let res := NewResponseFromRequest req 200 "OK" in
  match Respond tx res with
  | Some err =>
      [Responded res;
       Logged (slog.mkEntry slog.LevelError "NOTIFY 200 respond failed"
                 [("error", slog.String_ err)])]
  | None =>
      let body := Body req in
      if len body =? 0 then [Responded res]
      else
        let extension := blf.ExtensionFromDialogInfo body in
        let extension :=
          if String.eqb extension EmptyString
          then extensionFromTo extension (findHeader (Headers req) "To")
          else extension in
        let state := blf.ParseDialogInfo body in
        let state := if String.eqb state blf.StateUnknown
                     then blf.ParsePresenceBody body else state in
        match onBLF c with
        | Some handler =>
            if negb (String.eqb extension EmptyString)
            then [Responded res; Called (handler extension state)]
            else [Responded res]
        | None => [Responded res]
        end
  end.

End WithHandler.
End WithLibraries.
End sip.


(* ===================================================================== *)
(** * Package [graph]: identity cache and presence publisher             *)
(* ===================================================================== *)

(** The SDK under the Graph client: ISO 8601 durations and the chain of
    errors [errors.Unwrap] walks through. *)
Class GraphLib := {
  ISODuration : Type;
  ParseISODuration : string → result ISODuration;
  (** the errors [errors.Unwrap] yields from an error, outermost first *)
  unwrapAll : error → list error;
}.

Module graph.

Definition expiration : string := "PT1H".

(** [models.Userable]: [GetId] returns a pointer to a string or nil. *)
Record User := mkUser { GetId : option string }.

Section WithLibraries.
Context `{glib : GraphLib}.

(** [users.ItemPresenceSetPresencePostRequestBody] *)
Record PresenceBody := mkPresenceBody {
  SessionId : string;
  Availability : string;
  Activity : string;
  ExpirationDuration : ISODuration;
}.

(** The remote calls made through the Graph SDK. *)
Inductive Call :=
| UsersGet (upn : string)
| PresencePost (objectID : string) (body : PresenceBody).

(** The directory and presence service: what it answers to a call, given
    the calls made before. *)
Record Service := mkService {
  get : list Call → string → result (option User);
  post : list Call → string → PresenceBody → option error;
}.

(** [Client]: the application id, the cache, the calls made so far through
    [graph] and the records written to [log].  The field [state] (the
    persisted session ids) is not read by the functions below. *)
Record Client := mkClient {
  graph : list Call;
  clientID : string;
  log : list slog.Entry;
  userIDCache : gmap string string;
}.

Definition M (A : Type) : Type := Client → Client * result A.

Definition logAt (l : slog.Level) (msg : string) (attrs : list (string * slog.Value))
  (c : Client) : Client :=
  mkClient (graph c) (clientID c) (log c ++ [slog.mkEntry l msg attrs]) (userIDCache c).

Definition called (k : Call) (c : Client) : Client :=
  mkClient (graph c ++ [k]) (clientID c) (log c) (userIDCache c).

Definition cacheStore (upn id : string) (c : Client) : Client :=
  mkClient (graph c) (clientID c) (log c) (<[upn := id]> (userIDCache c)).

Section WithService.
Variable svc : Service.

(** [Client.resolveUserID] *)
Definition resolveUserID (upn : string) : M string :=
  fun c =>
    match userIDCache c !! upn with
    | Some id => (c, Ok id)
    | None =>
        let c1 := called (UsersGet upn) c in
        match get svc (graph c) upn with
        | Err err => (c1, Err err)
        | Ok None => (c1, Err "user not found")
        | Ok (Some user) =>
            match GetId user with
            | None => (c1, Err "user has no id")
            | Some id =>
                if String.eqb id EmptyString then (c1, Err "user has no id")
                else
                  let c2 := cacheStore upn id c1 in
                  (logAt slog.LevelDebug "resolved user to object ID"
                     [("upn", slog.String_ upn); ("objectId", slog.String_ id)] c2,
                   Ok id)
            end
        end
    end.

(** [errorChain] *)
Definition errorChain (err : error) : string :=
  String.concat "; " (err :: unwrapAll err).

(** [Client.SetPresence]; the result is the returned [error]. *)
Definition SetPresence (userID extension availability activity : string)
  : Client → Client * option error :=
  fun c =>
    match resolveUserID userID c with
    | (c1, Err err) =>
        (logAt slog.LevelError "resolve user ID failed"
           [("user", slog.String_ userID); ("extension", slog.String_ extension);
            ("error", slog.String_ err)] c1,
         Some err)
    | (c1, Ok objectID) =>
        match ParseISODuration expiration with
        | Err err => (c1, Some err)
        | Ok dur =>
            let body := mkPresenceBody (clientID c1) availability activity dur in
            let c2 := called (PresencePost objectID body) c1 in
            match post svc (graph c1) objectID body with
            | Some err =>
                (logAt slog.LevelError "setPresence failed"
                   [("user", slog.String_ userID); ("extension", slog.String_ extension);
                    ("availability", slog.String_ availability);
                    ("activity", slog.String_ activity);
                    ("error", slog.String_ err);
                    ("error_chain", slog.String_ (errorChain err))] c2,
                 Some err)
            | None =>
                (logAt slog.LevelDebug "setPresence ok"
                   [("user", slog.String_ userID); ("extension", slog.String_ extension);
                    ("availability", slog.String_ availability)] c2,
                 None)
            end
        end
    end.

(** The number of directory lookups for [upn] among the calls made. *)
Definition lookups (upn : string) (calls : list Call) : nat :=
  length (List.filter (fun k => match k with
                           | UsersGet u => String.eqb u upn
                           | PresencePost _ _ => false
                           end) calls).

Definition presencePosts (calls : list Call) : nat :=
  length (List.filter (fun k => match k with
                           | UsersGet _ => false
                           | PresencePost _ _ => true
                           end) calls).

End WithService.
End WithLibraries.
End graph.


(* ===================================================================== *)
(** * Notions of the design document                                     *)
(* ===================================================================== *)
Module design.
Import strings.

(** A state token that makes the scan pass over a sub-dialog. *)
Definition skippedToken (s : string) : Prop := s = "terminated" ∨ s = EmptyString.

(** The line state a sub-dialog that is not passed over stands for. *)
Definition activeState (s : string) : blf.State :=
  if String.eqb s "trying" || String.eqb s "early" || String.eqb s "proceeding"
  then blf.StateRinging else blf.StateBusy.

Definition isErr {A} (r : result A) : bool :=
  match r with Err _ => true | Ok _ => false end.

(** The byte [ch] does not occur in [s]. *)
Definition lacks (ch : ascii) (s : string) : Prop :=
  ∀ x, In x (list_ascii_of_string s) → x ≠ ch.

(** The scan over the state tokens of the sub-dialogs, in document order:
    the first token that is not passed over decides, and a list with none
    left is an idle line. *)
Fixpoint scanTokens (tokens : list string) : blf.State :=
  match tokens with
  | [] => blf.StateIdle
  | s :: rest =>
      if String.eqb s "terminated" || String.eqb s EmptyString
      then scanTokens rest else activeState s
  end.

(** A world with its log replaced. *)
Definition setLogs (L : list slog.Entry) (w : sip.World) : sip.World :=
  sip.mkWorld (sip.outcomes w) (sip.sent w) L.

(** Code that neither reads nor writes the log. *)
Definition logFree {B} (m : sip.M B) : Prop :=
  ∀ w L, m (setLogs L w) = (setLogs L (fst (m w)), snd (m w)).

(** Code that hands at most [n] requests to the transaction layer. *)
Definition sends {B} (n : nat) (m : sip.M B) : Prop :=
  ∀ w, (length (sip.sent (fst (m w))) ≤ length (sip.sent w) + n)%nat.

Section WithRuntime.
Context `{rt : GoRuntime}.

(** The effective states of the sub-dialogs of a document, in document
    order, under whichever of the two schemas decodes it. *)
Definition effectiveStates (body : string) : option (list string) :=
  match blf.Unmarshal_DialogInfo body with
  | Some info => Some (map blf.dialogState (blf.Dialogs info))
  | None =>
      match blf.Unmarshal_dialogInfoNoNS body with
      | Some info =>
          Some (map (fun d => blf.dialogStateStr (blf.State' d) (blf.StateAttr' d))
                    (blf.Dialogs' info))
      | None => None
      end
  end.

(** *** The sub-dialogs of a document, in the words of the design

    The sub-dialogs of a dialog-info document are the child elements of
    its root that are called [dialog], in document order; when the root is
    in the name space of RFC 4235 they, and their [state] child elements,
    must be in it too.  The state of a sub-dialog is written in two
    places: the text of its [state] child element and its [state]
    attribute; of several the last one counts, and a missing one reads as
    the empty string. *)
Definition rfcRoot (root : xml.Node) : bool :=
  match root with
  | xml.Element name _ _ => String.eqb (xml.Space name) blf.dialogInfoNS
  | xml.CharData _ => false
  end.

Definition inSchema (rfc : bool) (local : string) (n : xml.Name) : bool :=
  String.eqb (xml.Local n) local
  && (negb rfc || String.eqb (xml.Space n) blf.dialogInfoNS).

Definition childTexts (rfc : bool) (local : string) (content : list xml.Node)
  : list string :=
  flat_map (fun n => match n with
                     | xml.Element name _ c =>
                         if inSchema rfc local name then [xml.charData c] else []
                     | xml.CharData _ => []
                     end) content.

Definition attrValues (local : string) (attrs : list xml.Attr) : list string :=
  flat_map (fun a => if String.eqb (xml.Local (xml.AttrName a)) local
                     then [xml.Value a] else []) attrs.

(** The sub-dialogs of a document: for each the text of the state child
    element and the value of the state attribute. *)
Definition subDialogs (root : xml.Node) : list (string * string) :=
  match root with
  | xml.Element _ _ content =>
      flat_map (fun n => match n with
                         | xml.Element dn attrs c =>
                             if inSchema (rfcRoot root) "dialog" dn
                             then [(List.last (childTexts (rfcRoot root) "state" c) EmptyString,
                                    List.last (attrValues "state" attrs) EmptyString)]
                             else []
                         | xml.CharData _ => []
                         end) content
  | xml.CharData _ => []
  end.

Definition firstNonBlank (a b : string) : string :=
  if String.eqb a EmptyString then b else a.

(** The effective state of a sub-dialog: the text of the state child
    element, or the state attribute when that text is blank, without
    surrounding white space and in lower case, so that tokens compare
    without regard to letter case.  Under the RFC schema white space is
    removed before the text is put in lower case, under the schema without
    a name space after; on ASCII text the order makes no difference. *)
Definition effectiveState (rfc : bool) (sub : string * string) : string :=
  if rfc
  then ToLower (firstNonBlank (TrimSpace (fst sub)) (TrimSpace (snd sub)))
  else firstNonBlank (TrimSpace (ToLower (fst sub))) (TrimSpace (ToLower (snd sub))).

(** The resource identifier of a notification: from the body, else from the
    To header. *)
Definition resourceIdentifier (req : sipmsg.Request) : string :=
  let fromBody := blf.ExtensionFromDialogInfo (sipmsg.Body req) in
  if String.eqb fromBody EmptyString
  then sip.extensionFromTo EmptyString (sipmsg.findHeader (sipmsg.Headers req) "To")
  else fromBody.

(** The normalized state of a notification body: the dialog-info parser,
    then the presence-style parser when that yields unknown. *)
Definition notifiedState (body : string) : blf.State :=
  let st := blf.ParseDialogInfo body in
  if String.eqb st blf.StateUnknown then blf.ParsePresenceBody body else st.

Context `{lib : SipLib} {A : Type}.

(** Each extension attempted in turn, whatever became of the ones before:
    the extension with the result of its own [subscribeOne]. *)
Fixpoint attemptEach (c : sip.Client A) (exts : list string) (w : sip.World)
  : list (string * result unit) :=
  match exts with
  | [] => []
  | ext :: rest =>
      let '(w1, r) := sip.subscribeOne c ext w in
      (ext, r) :: attemptEach c rest w1
  end.

Definition failedOf (attempts : list (string * result unit)) : list string :=
  map fst (List.filter (fun a => isErr (snd a)) attempts).

(** The request URI of REGISTER: the registrar without a user part. *)
Definition registrarUri (recipient : sipmsg.Uri) : sipmsg.Uri :=
  sipmsg.mkUri EmptyString (sipmsg.Host recipient) (sipmsg.Port recipient).

(** The REGISTER request as the transaction layer receives it the first
    time, and as it receives it again with a credential. *)
Definition registerRequest (c : sip.Client A) (recipient : sipmsg.Uri) : sipmsg.Request :=
  let tp := ToUpper (sip.Transport (sip.cfg c)) in
  let contact := sipmsg.NewHeader "Contact" (sip.contactAddr c) in
  sipmsg.mkRequest sipmsg.REGISTER (registrarUri recipient)
    [sipmsg.NewHeader "Via"
       (viaValue (sipmsg.mkRequest sipmsg.REGISTER (registrarUri recipient) [contact]
                    None tp EmptyString));
     contact]
    (Some firstSeqNo) tp EmptyString.

Definition retryRequest (c : sip.Client A) (recipient : sipmsg.Uri) (cred : Credentials)
  : sipmsg.Request :=
  let tp := ToUpper (sip.Transport (sip.cfg c)) in
  let contact := sipmsg.NewHeader "Contact" (sip.contactAddr c) in
  let auth := sipmsg.NewHeader "Authorization" (CredentialsString cred) in
  sipmsg.mkRequest sipmsg.REGISTER (registrarUri recipient)
    [sipmsg.NewHeader "Via"
       (viaValue (sipmsg.mkRequest sipmsg.REGISTER (registrarUri recipient) [contact; auth]
                    (Some (firstSeqNo + 1)) tp EmptyString));
     contact; auth]
    (Some (firstSeqNo + 1)) tp EmptyString.

(** The number of Via headers of a request. *)
Definition viaCount (r : sipmsg.Request) : nat :=
  length (List.filter (fun h => String.eqb (sipmsg.Name h) "Via") (sipmsg.Headers r)).

(** The input of the digest computation for a REGISTER challenge. *)
Definition registerOptions (c : sip.Client A) (recipient : sipmsg.Uri) : digest.Options :=
  digest.mkOptions sipmsg.REGISTER (sipmsg.Host recipient)
    (sip.Username (sip.cfg c)) (sip.Password (sip.cfg c)).

(** The address REGISTER is sent to. *)
Definition registrar (c : sip.Client A) : string :=
  "sip:" ++ sip.Username (sip.cfg c) ++ "@" ++ sip.Server (sip.cfg c).

End WithRuntime.

(** Operations on the identity cache and publisher, run one after another. *)
Inductive GraphOp :=
| Resolve (upn : string)
| Publish (userID extension availability activity : string).

Section WithGraph.
Context `{glib : GraphLib}.

Fixpoint runOps (svc : graph.Service) (ops : list GraphOp) (c : graph.Client)
  : graph.Client :=
  match ops with
  | [] => c
  | Resolve upn :: rest => runOps svc rest (fst (graph.resolveUserID svc upn c))
  | Publish u e av ac :: rest => runOps svc rest (fst (graph.SetPresence svc u e av ac c))
  end.

End WithGraph.
End design.

(* ===================================================================== *)
(** * Sample documents, peers and services                               *)
(* ===================================================================== *)
Module samples.

Definition name (space local : string) : xml.Name := xml.mkName space local.
Definition attr (local value : string) : xml.Attr :=
  xml.mkAttr (name EmptyString local) value.

(** A dialog-info document in the RFC 4235 name space with one sub-dialog
    per state token given. *)
Definition dialogNode (space : string) (id st : string) : xml.Node :=
  xml.Element (name space "dialog") [attr "id" id]
    [xml.Element (name space "state") [] [xml.CharData st]].

Definition confirmedBody : string :=
  "<dialog-info xmlns='urn:ietf:params:xml:ns:dialog-info' version='1' state='full' entity='sip:6000@pbx.example.com'><dialog id='abc123' direction='recipient'><state>confirmed</state></dialog></dialog-info>".

Definition confirmedTree : xml.Node :=
  xml.Element (name blf.dialogInfoNS "dialog-info")
    [attr "xmlns" blf.dialogInfoNS; attr "version" "1"; attr "state" "full";
     attr "entity" "sip:6000@pbx.example.com"]
    [xml.Element (name blf.dialogInfoNS "dialog")
       [attr "id" "abc123"; attr "direction" "recipient"]
       [xml.Element (name blf.dialogInfoNS "state") [] [xml.CharData "confirmed"]]].

Definition threeDialogsBody : string :=
  "<dialog-info xmlns='urn:ietf:params:xml:ns:dialog-info' entity='sip:1001@pbx'><dialog id='a'><state>terminated</state></dialog><dialog id='b'><state>early</state></dialog><dialog id='c'><state>confirmed</state></dialog></dialog-info>".

Definition threeDialogsTree : xml.Node :=
  xml.Element (name blf.dialogInfoNS "dialog-info")
    [attr "xmlns" blf.dialogInfoNS; attr "entity" "sip:1001@pbx"]
    [dialogNode blf.dialogInfoNS "a" "terminated";
     dialogNode blf.dialogInfoNS "b" "early";
     dialogNode blf.dialogInfoNS "c" "confirmed"].

(** The document of the parser's own test for peers that omit the name
    space. *)
Definition noNamespaceBody : string :=
  "<dialog-info version='1' state='full' entity='sip:6000@pbx'><dialog id='x'><state>confirmed</state></dialog></dialog-info>".

Definition noNamespaceTree : xml.Node :=
  xml.Element (name EmptyString "dialog-info")
    [attr "version" "1"; attr "state" "full"; attr "entity" "sip:6000@pbx"]
    [dialogNode EmptyString "x" "confirmed"].

Definition garbageBody : string := "not xml at all".

Definition documents : list (string * xml.Node) :=
  [(confirmedBody, confirmedTree);
   (threeDialogsBody, threeDialogsTree);
   (noNamespaceBody, noNamespaceTree)].

Fixpoint lookupDocument (docs : list (string * xml.Node)) (body : string)
  : option xml.Node :=
  match docs with
  | [] => None
  | (b, t) :: rest => if String.eqb b body then Some t else lookupDocument rest body
  end.

(** A runtime that tokenizes the sample documents and rejects every other
    input; its Unicode functions are never reached on ASCII text. *)
Definition runtime : GoRuntime := {|
  MapUnicodeToLower := fun s => s;
  MapUnicodeToUpper := fun s => s;
  TrimFuncIsSpace := fun s => s;
  TrimRightFuncIsSpace := fun s => s;
  xmlDocument := lookupDocument documents;
|}.

(** A SIP library for URIs of the shape [sip:user@host] whose digest
    credentials spell out their inputs. *)
Definition parseUri (s : string) : result sipmsg.Uri :=
  let idx := strings.Index s ":" in
  let rest := strings.sliceFrom s (idx + 1) in
  let at_ := strings.Index rest "@" in
  if (0 <=? idx) && (0 <=? at_)
  then Ok (sipmsg.mkUri (strings.sliceTo rest at_) (strings.sliceFrom rest (at_ + 1)) 0)
  else Err "malformed URI".

Definition sipLib : SipLib := {|
  ParseUri := parseUri;
  Challenge := string;
  Credentials := string;
  ParseChallenge := fun s =>
    if strings.Contains s "Digest" then Ok s else Err "bad challenge";
  Digest := fun chal o => Ok ("Digest username=" ++ digest.Username o);
  CredentialsString := fun cr => cr;
  firstSeqNo := 1;
  viaValue := fun r => "SIP/2.0/" ++ sipmsg.Transport r;
|}.

Definition config : sip.Config :=
  sip.mkConfig "pbx.example.com:5060" "udp" "blf-client" "secret" "203.0.113.7" 0 [] "ua".

(** A handler that reports what it was called with. *)
Definition client (exts : list string) : sip.Client (string * blf.State) :=
  sip.mkClient config exts (Some (fun ext st => (ext, st))).

Definition reply (code : Z) : sipmsg.Response := sipmsg.mkResponse code "x" [].

Definition challenge : sipmsg.Response :=
  sipmsg.mkResponse 401 "Unauthorized"
    [sipmsg.NewHeader "WWW-Authenticate" "Digest realm=asterisk, nonce=abc"].

Definition world (os : list TxOutcome) : sip.World := sip.mkWorld os [] [].

Definition notify (body : string) (to : option string) : sipmsg.Request :=
  sipmsg.mkRequest "NOTIFY" (sipmsg.mkUri "blf-client" "203.0.113.7" 0)
    (match to with
     | Some v => [sipmsg.NewHeader "To" v]
     | None => []
     end)
    (Some 1) "UDP" body.

Definition okTx : sipmsg.ServerTransaction := sipmsg.mkServerTransaction (fun _ => None).
Definition brokenTx : sipmsg.ServerTransaction :=
  sipmsg.mkServerTransaction (fun _ => Some "write: connection refused").

(** A Graph SDK whose durations are their text. *)
Definition graphLib : GraphLib := {|
  ISODuration := string;
  ParseISODuration := fun s => Ok s;
  unwrapAll := fun _ => [];
|}.

(** A directory that knows one user, and one that is unreachable; a
    presence service that accepts, and one that rejects. *)
Definition directory (reachable : bool) (accepts : bool) : @graph.Service graphLib :=
  graph.mkService
    (fun _ upn =>
       if negb reachable then Err "context deadline exceeded"
       else if String.eqb upn "user1@contoso.com"
            then Ok (Some (graph.mkUser (Some "0f1e2d3c")))
            else Ok None)
    (fun _ _ _ => if accepts then None else Some "403 Forbidden").

Definition freshClient : @graph.Client graphLib :=
  graph.mkClient [] "app-id" [] ∅.

End samples.

(* ===================================================================== *)
(** * Further functions of the Go standard library                       *)
(* ===================================================================== *)
Module gostd.
Import strings.

Fixpoint lastIndexByteFrom (s : string) (c : ascii) (i last : Z) : Z :=
  match s with
  | EmptyString => last
  | String x s' => lastIndexByteFrom s' c (i + 1) (if Ascii.eqb x c then i else last)
  end.

(** [strings.LastIndex(s, substr)] for a one-byte [substr]: the index of
    the last instance, or -1. *)
Definition LastIndexByte (s : string) (c : ascii) : Z := lastIndexByteFrom s c 0 (-1).

(** The value of a decimal digit. *)
Definition digit (c : ascii) : option Z :=
  let b := byte c in
  if (48 <=? b) && (b <=? 57) then Some (b - 48) else None.

Fixpoint atoiDigits (s : string) (n : Z) : option Z :=
  match s with
  | EmptyString => Some n
  | String c s' =>
      match digit c with
      | Some d => atoiDigits s' (n * 10 + d)
      | None => None
      end
  end.

(** [strconv.Atoi] on a 64-bit platform, without the error value: an
    optional sign, then one or more decimal digits, the value within the
    range of [int]; [None] stands for a syntax or range error. *)
Definition Atoi (s : string) : option Z :=
  match s with
  | EmptyString => None
  | String c s' =>
      let neg := Ascii.eqb c "-" in
      let digits := if neg || Ascii.eqb c "+" then s' else s in
      match digits with
      | EmptyString => None
      | String _ _ =>
          match atoiDigits digits 0 with
          | None => None
          | Some n =>
              let v := if neg then - n else n in
              if (- 2 ^ 63 <=? v) && (v <=? 2 ^ 63 - 1) then Some v else None
          end
      end
  end.

(** [net.JoinHostPort]: a host with a colon is put in brackets. *)
Definition JoinHostPort (host port : string) : string :=
  if 0 <=? Index host ":" then "[" ++ host ++ "]:" ++ port
  else host ++ ":" ++ port.

(** [strings.HasSuffix] and [strings.TrimSuffix]. *)
Definition HasSuffix (s suffix : string) : bool :=
  (len suffix <=? len s) && String.eqb (sliceFrom s (len s - len suffix)) suffix.

Definition TrimSuffix (s suffix : string) : string :=
  if HasSuffix s suffix then sliceTo s (len s - len suffix) else s.

End gostd.

(** The Unicode half of [strings.EqualFold]: the comparison of the two
    remainders from the first position at which either string has a byte
    >= 0x80. *)
Class GoFold := {
  EqualFoldRunes : string → string → bool;
}.

Module gofold.
Import strings.

Section WithFold.
Context `{fold : GoFold}.

(** [strings.EqualFold]: bytes are compared without regard to ASCII case
    until one of them is not ASCII; the strings must end together. *)
Fixpoint EqualFold (s t : string) : bool :=
  match s, t with
  | String sr s', String tr t' =>
      if (RuneSelf <=? byte sr) || (RuneSelf <=? byte tr) then EqualFoldRunes s t
      else if Ascii.eqb tr sr then EqualFold s' t'
      else
        let lo := if byte tr <? byte sr then tr else sr in
        let hi := if byte tr <? byte sr then sr else tr in
        if (65 <=? byte lo) && (byte lo <=? 90) && (byte hi =? byte lo + 32)
        then EqualFold s' t'
        else false
  | EmptyString, EmptyString => true
  | _, _ => false
  end.

End WithFold.
End gofold.

(* ===================================================================== *)
(** * Package [sip], file [stun.go]: address discovery                   *)
(* ===================================================================== *)
Module stun.
Import strings.

Definition defaultSTUNPort : Z := 19302.

(** What one run of [discoverOne] meets: the local socket cannot be opened,
    the binding request fails, the reply carries no mapped address, or it
    carries one. *)
Inductive ProbeOutcome :=
| ListenFails (err : error)
| KeepaliveFails (err : error)
| NoHost
| Mapped (ip : string) (port : Z).

(** The network: the outcome of a probe of a server address, given the
    addresses probed before. *)
Record Network := mkNetwork {
  probe : list string → string → ProbeOutcome;
}.

(** The addresses [discoverOne] has been called with, and the log. *)
Record World := mkWorld {
  probed : list string;
  logs : list slog.Entry;
}.

(** A [*slog.Logger]; [None] is the nil logger. *)
Inductive Logger := DefaultLogger.

Definition logAt (log : option Logger) (l : slog.Level) (msg : string)
  (attrs : list (string * slog.Value)) (w : World) : World :=
  match log with
  | Some _ => mkWorld (probed w) (logs w ++ [slog.mkEntry l msg attrs])
  | None => w
  end.

(** [normalizeSTUNAddr] *)
Definition normalizeSTUNAddr (srv : string) : string :=
  let idx := gostd.LastIndexByte srv ":" in
  let host := if idx >? 0 then sliceTo srv idx else srv in
  let portStr := if idx >? 0 then sliceFrom srv (idx + 1) else EmptyString in
  let portNum :=
    if negb (String.eqb portStr EmptyString) then
      match gostd.Atoi portStr with
      | Some p => p
      | None => defaultSTUNPort
      end
    else defaultSTUNPort in
  gostd.JoinHostPort host (Itoa portNum).

Section WithRuntime.
Context `{rt : GoRuntime}.

(** [IsContactSentinel] *)
Definition IsContactSentinel (contactIP : string) : bool :=
  let c := TrimSpace (ToLower contactIP) in
  String.eqb c EmptyString || String.eqb c "auto" || String.eqb c "stun".

Section WithNetwork.
Variable net : Network.

(** [discoverOne] *)
Definition discoverOne (serverAddr : string) (w : World) : World * result (string * Z) :=
  let w' := mkWorld (probed w ++ [serverAddr]) (logs w) in
  match probe net (probed w) serverAddr with
  | ListenFails err => (w', Err err)
  | KeepaliveFails err => (w', Err err)
  | NoHost => (w', Err "no mapped address in STUN response")
  | Mapped ip port => (w', Ok (ip, port))
  end.

(** The [for] loop of [DiscoverPublicAddress] with its variables [lastErr]
    and [tried]: [inl] is the return from inside the loop, [inr] the state
    in which the loop ends. *)
Fixpoint discoverLoop (log : option Logger) (servers : list string)
  (lastErr : option error) (tried : list string) (w : World)
  : World * (string * Z + option error * list string) :=
  match servers with
  | [] => (w, inr (lastErr, tried))
  | srv :: rest =>
      let srv := TrimSpace srv in
      if String.eqb srv EmptyString then discoverLoop log rest lastErr tried w
      else
        let addr := normalizeSTUNAddr srv in
        match discoverOne addr w with
        | (w1, Err err) =>
            let w2 := logAt log slog.LevelWarn "STUN attempt failed"
                        [("server", slog.String_ addr); ("error", slog.String_ err)] w1 in
            discoverLoop log rest (Some err) (tried ++ [addr ++ ": " ++ err]) w2
        | (w1, Ok (ip, port)) =>
            (logAt log slog.LevelInfo "STUN discovery succeeded"
               [("server", slog.String_ addr);
                ("public", slog.String_ (gostd.JoinHostPort ip (Itoa port)))] w1,
             inl (ip, port))
        end
  end.

(** [DiscoverPublicAddress] *)
Definition DiscoverPublicAddress (servers : list string) (log : option Logger)
  (w : World) : World * result (string * Z) :=
  if Z.of_nat (length servers) =? 0 then (w, Err "no STUN servers configured")
  else
    match discoverLoop log servers None [] w with
    | (w1, inl (ip, port)) => (w1, Ok (ip, port))
    | (w1, inr (lastErr, tried)) =>
        let msg := "all STUN servers failed" in
        if Z.of_nat (length tried) >? 0 then
          (logAt log slog.LevelError "STUN discovery failed"
             [("servers_tried", slog.Strings_ tried);
              ("last_error", slog.String_ (default EmptyString lastErr))] w1,
           Err (msg ++ " (tried: " ++ String.concat "; " tried ++ ")"))
        else (w1, Err msg)
    end.

(** [ResolveContactIfNeeded]: the configuration as the call leaves it, and
    the returned error. *)
Definition ResolveContactIfNeeded (cfg : sip.Config) (log : option Logger)
  (w : World) : World * (sip.Config * option error) :=
  if negb (IsContactSentinel (sip.ContactIP cfg)) then (w, (cfg, None))
  else if Z.of_nat (length (sip.STUNServers cfg)) =? 0 then
    (w, (cfg, Some "STUN requested but no STUN_SERVERS configured"))
  else
    match DiscoverPublicAddress (sip.STUNServers cfg) log w with
    | (w1, Err err) => (w1, (cfg, Some err))
    | (w1, Ok (ip, port)) =>
        (w1, (sip.mkConfig (sip.Server cfg) (sip.Transport cfg) (sip.Username cfg)
                (sip.Password cfg) ip port (sip.STUNServers cfg) (sip.UserAgent cfg),
              None))
    end.

End WithNetwork.
End WithRuntime.
End stun.

(* ===================================================================== *)
(** * The file system and the JSON codec                                 *)
(* ===================================================================== *)

(** The regular files of the host, by path. *)
#[warnings="-notation-for-abbreviation"]
Notation Disk := (gmap string string).

(** What lies outside the repository under the file operations: the faults
    the operating system may answer with instead of doing the operation,
    [filepath.Dir], and [encoding/json] for a map of strings ([None] is the
    nil map that JSON [null] decodes to). *)
Class HostOS := {
  readFault : string → option error;
  writeFault : string → option error;
  mkdirFault : string → option error;
  Dir : string → string;
  jsonMarshalIndent : gmap string string → result string;
  jsonUnmarshal : string → result (option (gmap string string));
}.

Module os.

(** The result of [os.ReadFile], with what [os.IsNotExist] says of the
    error. *)
Inductive ReadResult :=
| ReadOk (data : string)
| ReadNotExist (err : error)
| ReadFailed (err : error).

Section WithHost.
Context `{host : HostOS}.

Definition ReadFile (path : string) (disk : Disk) : ReadResult :=
  match readFault path with
  | Some err => ReadFailed err
  | None =>
      match disk !! path with
      | Some data => ReadOk data
      | None => ReadNotExist ("open " ++ path ++ ": no such file or directory")
      end
  end.

(** [os.WriteFile]: a fault leaves the disk as it is. *)
Definition WriteFile (path data : string) (disk : Disk) : Disk * option error :=
  match writeFault path with
  | Some err => (disk, Some err)
  | None => (<[path := data]> disk, None)
  end.

(** [os.MkdirAll]; directories are not kept on the model disk. *)
Definition MkdirAll (dir : string) : option error := mkdirFault dir.

(** [os.Stat] returns no error: the file is there, readable or not. *)
Definition exists_ (path : string) (disk : Disk) : bool :=
  match disk !! path with
  | Some _ => true
  | None => false
  end.

End WithHost.
End os.

(* ===================================================================== *)
(** * Package [graph], file [state.go]: the persisted session ids        *)
(* ===================================================================== *)
Module state.

(** [SessionState] *)
Record SessionState := mkSessionState {
  path : string;
  ByExt : gmap string string;
}.

Section WithHost.
Context `{host : HostOS}.

(** [SessionState.save] *)
Definition save (s : SessionState) (disk : Disk) : Disk * option error :=
  match jsonMarshalIndent (ByExt s) with
  | Err err => (disk, Some err)
  | Ok data =>
      match (if negb (String.eqb (Dir (path s)) ".")
             then os.MkdirAll (Dir (path s)) else None) with
      | Some err => (disk, Some err)
      | None => os.WriteFile (path s) data disk
      end
  end.

(** [LoadSessionState] *)
Definition LoadSessionState (p : string) (disk : Disk) : Disk * result SessionState :=
  match os.ReadFile p disk with
  | os.ReadNotExist _ =>
      let s := mkSessionState p ∅ in
      match save s disk with
      | (disk', Some err) => (disk', Err err)
      | (disk', None) => (disk', Ok s)
      end
  | os.ReadFailed err => (disk, Err err)
  | os.ReadOk data =>
      if strings.len data =? 0 then (disk, Ok (mkSessionState p ∅))
      else
        match jsonUnmarshal data with
        | Err err => (disk, Err err)
        | Ok None => (disk, Ok (mkSessionState p ∅))
        | Ok (Some byExt) => (disk, Ok (mkSessionState p byExt))
        end
  end.

(** [SessionState.GetSessionID]: a missing key reads as the empty string. *)
Definition GetSessionID (s : SessionState) (extension : string) : string :=
  default EmptyString (ByExt s !! extension).

(** [SessionState.SetSessionID]: the map is updated, then saved. *)
Definition SetSessionID (s : SessionState) (extension sessionID : string) (disk : Disk)
  : SessionState * Disk * option error :=
  let s' := mkSessionState (path s) (<[extension := sessionID]> (ByExt s)) in
  let '(disk', err) := save s' disk in
  (s', disk', err).

End WithHost.
End state.

(* ===================================================================== *)
(** * Package [main]: configuration files and the presence callback      *)
(* ===================================================================== *)

(** [ExtensionEntry] *)
Record ExtensionEntry := mkExtensionEntry {
  Extension : string;
  Email : string;
}.

(** The decoders of the configuration files: [encoding/csv]'s [ReadAll] on
    the content of a file, and [encoding/json] for a list of entries. *)
Class ConfigCodec := {
  csvReadAll : string → result (list (list string));
  jsonUnmarshalEntries : string → result (list ExtensionEntry);
}.

Module config.
Import strings.

Section WithHost.
Context `{rt : GoRuntime} `{fold : GoFold} `{host : HostOS} `{codec : ConfigCodec}.

(** [loadExtensions] *)
Definition loadExtensions (path : string) (disk : Disk) : result (list ExtensionEntry) :=
  match os.ReadFile path disk with
  | os.ReadOk data => jsonUnmarshalEntries data
  | os.ReadNotExist err | os.ReadFailed err => Err err
  end.

(** The [for] loop of [loadExtensionsCSV] over the records from index [i]. *)
Fixpoint csvLoop (i : Z) (records : list (list string)) (list_ : list ExtensionEntry)
  : list ExtensionEntry :=
  match records with
  | [] => list_
  | rec :: rest =>
      match rec with
      | f0 :: f1 :: _ =>
          let ext := TrimSpace f0 in
          let email := TrimSpace f1 in
          if String.eqb ext EmptyString && String.eqb email EmptyString then
            csvLoop (i + 1) rest list_
          else if (i =? 0) && gofold.EqualFold ext "extension"
                  && gofold.EqualFold email "email" then
            csvLoop (i + 1) rest list_
          else csvLoop (i + 1) rest (list_ ++ [mkExtensionEntry ext email])
      | _ => csvLoop (i + 1) rest list_
      end
  end.

(** [loadExtensionsCSV]: opening the file and reading all of its records
    is one read of its content. *)
Definition loadExtensionsCSV (path : string) (disk : Disk) : result (list ExtensionEntry) :=
  match os.ReadFile path disk with
  | os.ReadNotExist err | os.ReadFailed err => Err err
  | os.ReadOk data =>
      match csvReadAll data with
      | Err err => Err err
      | Ok records => Ok (csvLoop 0 records [])
      end
  end.

(** The three results of [loadExtensionsFromPath]: the list (nil on an
    error), the path loaded from, and the error. *)
Definition loaded (r : result (list ExtensionEntry)) (path : string)
  : list ExtensionEntry * string * option error :=
  match r with
  | Ok l => (l, path, None)
  | Err err => ([], path, Some err)
  end.

(** [loadExtensionsFromPath] *)
Definition loadExtensionsFromPath (path : string) (disk : Disk)
  : list ExtensionEntry * string * option error :=
  if os.exists_ path disk then
    if gostd.HasSuffix path ".csv" then loaded (loadExtensionsCSV path disk) path
    else loaded (loadExtensions path disk) path
  else if gostd.HasSuffix path ".json" then
    let csvPath := gostd.TrimSuffix path ".json" ++ ".csv" in
    if os.exists_ csvPath disk then loaded (loadExtensionsCSV csvPath disk) csvPath
    else ([], EmptyString,
          Some ("extensions file not found: tried " ++ path ++ " and " ++ csvPath))
  else ([], EmptyString, Some ("extensions file not found: " ++ path)).

(** [defaultListenAddr] *)
Definition defaultListenAddr (cfg : sip.Config) : string :=
  if negb (sip.ContactPort cfg =? 0) || stun.IsContactSentinel (sip.ContactIP cfg)
  then "0.0.0.0:5060"
  else sip.ContactIP cfg ++ ":5060".

End WithHost.

(** [getEnv] over the environment of the process. *)
Definition getEnv (env : gmap string string) (key defaultVal : string) : string :=
  let v := default EmptyString (env !! key) in
  if negb (String.eqb v EmptyString) then v else defaultVal.

End config.

Module cmd.

(** The loop of [main] that builds [extList] and [emailByExt]. *)
Fixpoint collect (extensions : list ExtensionEntry) (extList : list string)
  (emailByExt : gmap string string) : list string * gmap string string :=
  match extensions with
  | [] => (extList, emailByExt)
  | e :: rest =>
      collect rest (extList ++ [Extension e]) (<[Extension e := Email e]> emailByExt)
  end.

Section WithGraph.
Context `{glib : GraphLib}.

(** What the callback of [main] acts on: the Graph client and the default
    logger. *)
Record World := mkWorld {
  graphClient : graph.Client;
  slogDefault : list slog.Entry;
}.

Definition logAt (l : slog.Level) (msg : string) (attrs : list (string * slog.Value))
  (w : World) : World :=
  mkWorld (graphClient w) (slogDefault w ++ [slog.mkEntry l msg attrs]).

(** The func [onBLF] of [main]. *)
Definition onBLF (svc : graph.Service) (emailByExt : gmap string string)
  (extension : string) (state : blf.State) (w : World) : World :=
  match emailByExt !! extension with
  | None =>
      logAt slog.LevelWarn "BLF for unknown extension"
        [("extension", slog.String_ extension)] w
  | Some email =>
      let '(availability, activity) := blf.ToGraph state in
      match graph.SetPresence svc email extension availability activity (graphClient w) with
      | (gc, Some err) =>
          logAt slog.LevelError "set presence"
            [("extension", slog.String_ extension); ("email", slog.String_ email);
             ("error", slog.String_ err)]
            (mkWorld gc (slogDefault w))
      | (gc, None) =>
          logAt slog.LevelInfo "presence updated"
            [("extension", slog.String_ extension); ("state", slog.String_ state);
             ("availability", slog.String_ availability)]
            (mkWorld gc (slogDefault w))
      end
  end.

End WithGraph.
End cmd.

(* ===================================================================== *)
(** * Further notions used by the properties                             *)
(* ===================================================================== *)
Module notions.
Import strings.

(** No byte of [chars] occurs in [s]. *)
Definition lacksAny (chars s : string) : Prop :=
  ∀ x, In x (list_ascii_of_string s) → containsByte chars x = false.

Section WithSip.
Context `{rt : GoRuntime} `{lib : SipLib} {A : Type}.

(** The address a SUBSCRIBE for an extension is sent to. *)
Definition watched (c : sip.Client A) (extension : string) : string :=
  "sip:" ++ extension ++ "@" ++ sip.Server (sip.cfg c).

(** The SUBSCRIBE request as [subscribeOne] builds it, before the options
    of the transaction layer are applied. *)
Definition subscribeDraft (c : sip.Client A) (recipient : sipmsg.Uri) : sipmsg.Request :=
  sipmsg.SetTransport
    (sipmsg.AppendHeader
       (sipmsg.AppendHeader
          (sipmsg.AppendHeader (sipmsg.NewRequest sipmsg.SUBSCRIBE recipient)
             (sipmsg.NewHeader "Event" "dialog"))
          (sipmsg.NewHeader "Expires" "3600"))
       (sipmsg.NewHeader "Accept" "application/dialog-info+xml"))
    (ToUpper (sip.Transport (sip.cfg c))).

(** The SUBSCRIBE request as the transaction layer receives it the first
    time: with the Via header of the build step and, in front of it, the
    one of the add-Via step. *)
Definition subscribeRequest (c : sip.Client A) (recipient : sipmsg.Uri) : sipmsg.Request :=
  let r0 := subscribeDraft c recipient in
  let r1 := sipmsg.PrependHeader r0 [sipmsg.NewHeader "Via" (viaValue r0)] in
  let r2 := sipmsg.SetCSeq r1 (Some firstSeqNo) in
  sipmsg.PrependHeader r2 [sipmsg.NewHeader "Via" (viaValue r2)].

(** The SUBSCRIBE request as the transaction layer receives it again with
    a credential: the first Via header is gone, the Via header of the build
    step is still there, and a new one is in front of it. *)
Definition subscribeRetry (c : sip.Client A) (recipient : sipmsg.Uri) (cred : Credentials)
  : sipmsg.Request :=
  let r0 := subscribeDraft c recipient in
  let r1 := sipmsg.PrependHeader r0 [sipmsg.NewHeader "Via" (viaValue r0)] in
  let r2 := sipmsg.AppendHeader r1
              (sipmsg.NewHeader "Authorization" (CredentialsString cred)) in
  let r3 := sipmsg.SetCSeq r2 (Some (firstSeqNo + 1)) in
  sipmsg.PrependHeader r3 [sipmsg.NewHeader "Via" (viaValue r3)].

(** The input of the digest computation for a SUBSCRIBE challenge. *)
Definition subscribeOptions (c : sip.Client A) (recipient : sipmsg.Uri) : digest.Options :=
  digest.mkOptions sipmsg.SUBSCRIBE (sipmsg.Host recipient)
    (sip.Username (sip.cfg c)) (sip.Password (sip.cfg c)).

(** The record the loop of [Subscribe] writes for one attempt. *)
Definition attemptRecord (a : string * result unit) : slog.Entry :=
  match a with
  | (ext, Ok _) =>
      slog.mkEntry slog.LevelInfo "subscribed to BLF" [("extension", slog.String_ ext)]
  | (ext, Err err) =>
      if Contains err "404" then
        slog.mkEntry slog.LevelWarn "subscribe 404 (extension may lack BLF hint on PBX)"
          [("extension", slog.String_ ext);
           ("hint", slog.String_ "See README or FreePBX dialplan hints / res_pjsip allow_subscribe")]
      else
        slog.mkEntry slog.LevelError "subscribe failed"
          [("extension", slog.String_ ext); ("error", slog.String_ err)]
  end.

End WithSip.
End notions.

Module publishing.

(** Publishing for one user, once per (extension, availability, activity)
    given. *)
Definition publishes (userID : string) (updates : list (string * string * string))
  : list design.GraphOp :=
  map (fun u => design.Publish userID (fst (fst u)) (snd (fst u)) (snd u)) updates.

Section WithGraph.
Context `{glib : GraphLib}.

(** The world after the handler calls of a trace of [handleNOTIFY], in
    order, for handlers that act on the world of [main]. *)
Definition handled (trace : list (sip.NotifyEvent (A := cmd.World → cmd.World)))
  (w : cmd.World) : cmd.World :=
  fold_left (fun w e => match e with sip.Called f => f w | _ => w end) trace w.

End WithGraph.
End publishing.

Module discovery.

(** The error [discoverOne] returns for an outcome, if it is a failure. *)
Definition probeError (o : stun.ProbeOutcome) : option error :=
  match o with
  | stun.ListenFails err | stun.KeepaliveFails err => Some err
  | stun.NoHost => Some "no mapped address in STUN response"
  | stun.Mapped _ _ => None
  end.

(** The entry of the list of tried servers for a failed probe. *)
Definition report (a : string * stun.ProbeOutcome) : string :=
  fst a ++ ": " ++ default EmptyString (probeError (snd a)).

(** The outcomes met when the addresses are probed one after the other,
    after the probes of [history]. *)
Fixpoint probeAll (net : stun.Network) (history addrs : list string)
  : list (string * stun.ProbeOutcome) :=
  match addrs with
  | [] => []
  | a :: rest => (a, stun.probe net history a) :: probeAll net (history ++ [a]) rest
  end.

Section WithRuntime.
Context `{rt : GoRuntime}.

(** The addresses of the configured servers: the entries that are not
    blank, trimmed and normalized, in order. *)
Definition candidates (servers : list string) : list string :=
  map stun.normalizeSTUNAddr
    (List.filter (fun s => negb (String.eqb s EmptyString)) (map strings.TrimSpace servers)).

End WithRuntime.
End discovery.

Module rows.

Section WithFold.
Context `{rt : GoRuntime} `{fold : GoFold}.

(** The entry a record of the CSV file stands for: none for a record of
    fewer than two fields, and none when its first two fields are blank. *)
Definition entry (rec : list string) : list ExtensionEntry :=
  match rec with
  | f0 :: f1 :: _ =>
      if String.eqb (strings.TrimSpace f0) EmptyString
         && String.eqb (strings.TrimSpace f1) EmptyString
      then []
      else [mkExtensionEntry (strings.TrimSpace f0) (strings.TrimSpace f1)]
  | _ => []
  end.

(** A record that reads extension,email in any letter case. *)
Definition isHeader (rec : list string) : bool :=
  match rec with
  | f0 :: f1 :: _ =>
      gofold.EqualFold (strings.TrimSpace f0) "extension"
      && gofold.EqualFold (strings.TrimSpace f1) "email"
  | _ => false
  end.

End WithFold.
End rows.

(* ===================================================================== *)
(** * Sample hosts, networks and files                                   *)
(* ===================================================================== *)
Module fixtures.

(** A document whose first sub-dialog has its state in the attribute only
    and in mixed case, and whose second has both, the child element in
    upper case. *)
Definition mixedBody : string :=
  "<dialog-info xmlns='urn:ietf:params:xml:ns:dialog-info' entity='sip:1001@pbx'><dialog id='a' state='Terminated'><state> </state></dialog><dialog id='b' state='confirmed'><state>EARLY</state></dialog><dialog id='c'><state>confirmed</state></dialog></dialog-info>".

Definition mixedTree : xml.Node :=
  xml.Element (samples.name blf.dialogInfoNS "dialog-info")
    [samples.attr "xmlns" blf.dialogInfoNS; samples.attr "entity" "sip:1001@pbx"]
    [xml.Element (samples.name blf.dialogInfoNS "dialog")
       [samples.attr "id" "a"; samples.attr "state" "Terminated"]
       [xml.Element (samples.name blf.dialogInfoNS "state") [] [xml.CharData " "]];
     xml.Element (samples.name blf.dialogInfoNS "dialog")
       [samples.attr "id" "b"; samples.attr "state" "confirmed"]
       [xml.Element (samples.name blf.dialogInfoNS "state") [] [xml.CharData "EARLY"]];
     samples.dialogNode blf.dialogInfoNS "c" "confirmed"].

(** The runtime of the samples with this document added. *)
Definition runtime : GoRuntime := {|
  MapUnicodeToLower := fun s => s;
  MapUnicodeToUpper := fun s => s;
  TrimFuncIsSpace := fun s => s;
  TrimRightFuncIsSpace := fun s => s;
  xmlDocument := samples.lookupDocument ((mixedBody, mixedTree) :: samples.documents);
|}.

(** A network in which the first server times out, the second reports a
    mapped address, and every other server answers without one. *)
Definition network : stun.Network :=
  stun.mkNetwork (fun _ addr =>
    if String.eqb addr "stun1.example.com:19302" then stun.KeepaliveFails "i/o timeout"
    else if String.eqb addr "stun2.example.com:3478" then stun.Mapped "198.51.100.4" 40000
    else stun.NoHost).

(** The configuration of the samples with the contact left to discovery. *)
Definition autoConfig (servers : list string) : sip.Config :=
  sip.mkConfig "pbx.example.com:5060" "udp" "blf-client" "secret" "Auto" 0 servers "ua".

Definition autoClient (servers : list string) : sip.Client (string * blf.State) :=
  sip.mkClient (autoConfig servers) [] None.

(** Case folding for the samples, which are ASCII: beyond ASCII only equal
    remainders match. *)
Definition fold : GoFold := {| EqualFoldRunes := String.eqb |}.

Definition sessions : gmap string string := {["1001" := "session-1"]}.

(** A host on which one directory cannot be written, with a JSON codec for
    the maps of the samples. *)
Definition host : HostOS := {|
  readFault := fun _ => None;
  writeFault := fun p =>
    if String.eqb p "/readonly/state.json" then Some "permission denied" else None;
  mkdirFault := fun _ => None;
  Dir := fun p =>
    let i := gostd.LastIndexByte p "/" in
    if i <? 0 then "." else if i =? 0 then "/" else strings.sliceTo p i;
  jsonMarshalIndent := fun m =>
    if decide (m = ∅) then Ok "{}"
    else if decide (m = sessions) then Ok "{ '1001': 'session-1' }"
    else Err "json: unsupported value";
  jsonUnmarshal := fun data =>
    if String.eqb data "null" then Ok None
    else if String.eqb data "{}" then Ok (Some ∅)
    else if String.eqb data "{ '1001': 'session-1' }" then Ok (Some sessions)
    else Err "invalid character";
|}.

Definition statePath : string := "config/presence-state.json".

Definition newline : string := String (ascii_of_nat 10) EmptyString.

(** A file with a header, an entry, a blank record and a second header. *)
Definition csvText : string :=
  "Extension, Email" ++ newline ++ "1001, user1@contoso.com" ++ newline
  ++ "," ++ newline ++ "extension,email" ++ newline.

Definition csvRecords : list (list string) :=
  [["Extension"; " Email"]; ["1001"; " user1@contoso.com"]; [EmptyString; EmptyString];
   ["extension"; "email"]].

(** Decoders for the sample files. *)
Definition codec : ConfigCodec := {|
  csvReadAll := fun data =>
    if String.eqb data csvText then Ok csvRecords else Err "record on line 1: wrong number of fields";
  jsonUnmarshalEntries := fun data =>
    if String.eqb data "[]" then Ok [] else Err "invalid character";
|}.

Definition disk : Disk := {["config/extensions.csv" := csvText]}.

(** The table of [main] for one extension, and a client whose handler is
    the callback of [main] over it. *)
Definition emailByExt : gmap string string := {["6000" := "user1@contoso.com"]}.

Definition callbackClient : sip.Client (cmd.World → cmd.World) :=
  sip.mkClient samples.config ["6000"]
    (Some (cmd.onBLF (glib := samples.graphLib) (samples.directory true true) emailByExt)).

Definition quietWorld : cmd.World (glib := samples.graphLib) :=
  cmd.mkWorld samples.freshClient [].

End fixtures.

(* ===================================================================== *)
(** * Properties                                                         *)
(* ===================================================================== *)

(** ** The state mapper *)

(** C4: the state mapper is a total function of the state value: idle goes
    to (Available, Available), ringing and busy go to (Busy, InACall),
    unknown goes to (Available, Available), and so does every other value;
    no value is mapped to anything but one of these two pairs. *)
Theorem ToGraph_total_fail_open :
  blf.ToGraph blf.StateIdle = ("Available", "Available")
  ∧ blf.ToGraph blf.StateRinging = ("Busy", "InACall")
  ∧ blf.ToGraph blf.StateBusy = ("Busy", "InACall")
  ∧ blf.ToGraph blf.StateUnknown = ("Available", "Available")
  ∧ (∀ s : blf.State,
       s ≠ blf.StateRinging → s ≠ blf.StateBusy →
       blf.ToGraph s = ("Available", "Available"))
  ∧ (∀ s : blf.State,
       blf.ToGraph s = ("Available", "Available")
       ∨ blf.ToGraph s = ("Busy", "InACall")).
Proof.
  repeat split; try reflexivity.
  - intros s Hr Hb. unfold blf.ToGraph.
    destruct (String.eqb_spec s blf.StateIdle); [reflexivity|].
    destruct (String.eqb_spec s blf.StateRinging); [contradiction|].
    destruct (String.eqb_spec s blf.StateBusy); [contradiction|].
    reflexivity.
  - intros s. unfold blf.ToGraph.
    destruct (String.eqb s blf.StateIdle); [left; reflexivity|].
    destruct (String.eqb s blf.StateRinging || String.eqb s blf.StateBusy);
      [right|left]; reflexivity.
Qed.

(** ** The dialog-state parser *)

Section Parser.
Context `{rt : GoRuntime}.

Lemma dialogsToStateLoop_scan (ds : list blf.Dialog) :
  blf.dialogsToStateLoop ds = design.scanTokens (map blf.dialogState ds).
Proof.
  induction ds as [|d ds IH]; [reflexivity|].
  cbn [blf.dialogsToStateLoop map design.scanTokens]. rewrite IH.
  unfold design.activeState.
  destruct (String.eqb (blf.dialogState d) "terminated" || String.eqb (blf.dialogState d) EmptyString);
    [reflexivity|].
  destruct (String.eqb (blf.dialogState d) "trying" || String.eqb (blf.dialogState d) "early"
            || String.eqb (blf.dialogState d) "proceeding"); [reflexivity|].
  destruct (String.eqb (blf.dialogState d) "confirmed"); reflexivity.
Qed.

Lemma dialogsNoNSToStateLoop_scan (ds : list blf.dialogNoNS) :
  blf.dialogsNoNSToStateLoop ds
  = design.scanTokens
      (map (fun d => blf.dialogStateStr (blf.State' d) (blf.StateAttr' d)) ds).
Proof.
  induction ds as [|d ds IH]; [reflexivity|].
  cbn [blf.dialogsNoNSToStateLoop map design.scanTokens]. rewrite IH.
  unfold design.activeState.
  set (s := blf.dialogStateStr (blf.State' d) (blf.StateAttr' d)).
  destruct (String.eqb s "terminated" || String.eqb s EmptyString); [reflexivity|].
  destruct (String.eqb s "trying" || String.eqb s "early" || String.eqb s "proceeding");
    [reflexivity|].
  destruct (String.eqb s "confirmed"); reflexivity.
Qed.

Lemma dialogsToState_scan (ds : list blf.Dialog) :
  blf.dialogsToState ds = design.scanTokens (map blf.dialogState ds).
Proof.
  unfold blf.dialogsToState. rewrite dialogsToStateLoop_scan.
  destruct ds; reflexivity.
Qed.

Lemma dialogsNoNSToState_scan (ds : list blf.dialogNoNS) :
  blf.dialogsNoNSToState ds
  = design.scanTokens
      (map (fun d => blf.dialogStateStr (blf.State' d) (blf.StateAttr' d)) ds).
Proof.
  unfold blf.dialogsNoNSToState. rewrite dialogsNoNSToStateLoop_scan.
  destruct ds; reflexivity.
Qed.

Lemma ParseDialogInfo_scan (body : string) (tokens : list string) :
  design.effectiveStates body = Some tokens →
  blf.ParseDialogInfo body = design.scanTokens tokens.
Proof.
  unfold design.effectiveStates, blf.ParseDialogInfo.
  destruct (blf.Unmarshal_DialogInfo body) as [info|].
  - intros [= <-]. apply dialogsToState_scan.
  - destruct (blf.Unmarshal_dialogInfoNoNS body) as [info|]; [|discriminate].
    intros [= <-]. apply dialogsNoNSToState_scan.
Qed.

End Parser.

Lemma scanTokens_all_skipped (tokens : list string) :
  Forall design.skippedToken tokens → design.scanTokens tokens = blf.StateIdle.
Proof.
  induction 1 as [|s rest Hs _ IH]; [reflexivity|].
  cbn [design.scanTokens].
  destruct Hs as [-> | ->]; cbn; exact IH.
Qed.

Lemma scanTokens_first_active (pre post : list string) (s : string) :
  Forall design.skippedToken pre → ¬ design.skippedToken s →
  design.scanTokens (pre ++ s :: post)%list = design.activeState s.
Proof.
  intros Hpre Hs. induction Hpre as [|p pre Hp _ IH].
  - cbn [app design.scanTokens].
    destruct (String.eqb_spec s "terminated") as [E|_];
      [exfalso; apply Hs; left; exact E|].
    destruct (String.eqb_spec s EmptyString) as [E|_];
      [exfalso; apply Hs; right; exact E|].
    reflexivity.
  - cbn [app design.scanTokens].
    destruct Hp as [-> | ->]; cbn; exact IH.
Qed.

Lemma activeState_ringing (s : string) :
  s = "trying" ∨ s = "early" ∨ s = "proceeding" →
  design.activeState s = blf.StateRinging.
Proof. intros [-> | [-> | ->]]; reflexivity. Qed.

Lemma activeState_busy (s : string) :
  ¬ (s = "trying" ∨ s = "early" ∨ s = "proceeding") →
  design.activeState s = blf.StateBusy.
Proof.
  intros Hn. unfold design.activeState.
  destruct (String.eqb_spec s "trying"); [exfalso; auto|].
  destruct (String.eqb_spec s "early"); [exfalso; auto|].
  destruct (String.eqb_spec s "proceeding"); [exfalso; auto|].
  reflexivity.
Qed.

Lemma scanTokens_known (tokens : list string) :
  design.scanTokens tokens = blf.StateIdle
  ∨ design.scanTokens tokens = blf.StateRinging
  ∨ design.scanTokens tokens = blf.StateBusy.
Proof.
  induction tokens as [|s rest IH]; [left; reflexivity|].
  cbn [design.scanTokens].
  destruct (String.eqb s "terminated" || String.eqb s EmptyString); [exact IH|].
  unfold design.activeState.
  destruct (String.eqb s "trying" || String.eqb s "early" || String.eqb s "proceeding");
    auto.
Qed.

Lemma scanTokens_not_unknown (tokens : list string) :
  design.scanTokens tokens ≠ blf.StateUnknown.
Proof.
  destruct (scanTokens_known tokens) as [-> | [-> | ->]]; discriminate.
Qed.

(** C5: on every body the parser returns one of the four states; it decodes
    under the name-spaced schema first and under the name-space-free schema
    when that fails; it returns unknown exactly when the body decodes under
    neither, which is the case for a body the tokenizer rejects. *)
Theorem ParseDialogInfo_total_unknown_iff `{rt : GoRuntime} (body : string) :
  (blf.ParseDialogInfo body = blf.StateIdle
   ∨ blf.ParseDialogInfo body = blf.StateRinging
   ∨ blf.ParseDialogInfo body = blf.StateBusy
   ∨ blf.ParseDialogInfo body = blf.StateUnknown)
  ∧ (∀ info, blf.Unmarshal_DialogInfo body = Some info →
       blf.ParseDialogInfo body = blf.dialogsToState (blf.Dialogs info))
  ∧ (blf.Unmarshal_DialogInfo body = None →
     ∀ info, blf.Unmarshal_dialogInfoNoNS body = Some info →
       blf.ParseDialogInfo body = blf.dialogsNoNSToState (blf.Dialogs' info))
  ∧ (blf.ParseDialogInfo body = blf.StateUnknown
     ↔ blf.Unmarshal_DialogInfo body = None
       ∧ blf.Unmarshal_dialogInfoNoNS body = None)
  ∧ (xmlDocument body = None → blf.ParseDialogInfo body = blf.StateUnknown).
Proof.
  unfold blf.ParseDialogInfo, blf.Unmarshal_DialogInfo, blf.Unmarshal_dialogInfoNoNS.
  destruct (xmlDocument body) as [root|].
  2: { split; [auto|]. split; [discriminate|]. split; [discriminate|].
       split; [tauto|reflexivity]. }
  destruct (blf.unmarshalDialogInfo root) as [info|].
  - rewrite dialogsToState_scan.
    pose proof (scanTokens_known (map blf.dialogState (blf.Dialogs info))) as Hk.
    pose proof (scanTokens_not_unknown (map blf.dialogState (blf.Dialogs info))) as Hn.
    split; [tauto|].
    split; [intros i [= <-]; symmetry; apply dialogsToState_scan|].
    split; [discriminate|].
    split; [|discriminate].
    split; [intros E; contradiction|intros [E _]; discriminate].
  - destruct (blf.unmarshalDialogInfoNoNS root) as [info|].
    + rewrite dialogsNoNSToState_scan.
      match goal with |- context [design.scanTokens ?l] =>
        pose proof (scanTokens_known l) as Hk;
        pose proof (scanTokens_not_unknown l) as Hn end.
      split; [tauto|].
      split; [discriminate|].
      split; [intros _ i [= <-]; symmetry; apply dialogsNoNSToState_scan|].
      split; [|discriminate].
      split; [intros E; contradiction|intros [_ E]; discriminate].
    + split; [auto|]. split; [discriminate|]. split; [discriminate|].
      split; [tauto|discriminate].
Qed.

Lemma ParseDialogInfo_total_unknown_iff_witness :
  xmlDocument (GoRuntime := samples.runtime) samples.garbageBody = None
  ∧ blf.ParseDialogInfo (rt := samples.runtime) samples.garbageBody = blf.StateUnknown.
Proof.
  split; [reflexivity|].
  destruct (ParseDialogInfo_total_unknown_iff (rt := samples.runtime) samples.garbageBody)
    as (_ & _ & _ & _ & Hgarbage).
  apply Hgarbage. reflexivity.
Defined.

Example ParseDialogInfo_test_bodies :
  blf.ParseDialogInfo (rt := samples.runtime) samples.confirmedBody = blf.StateBusy
  ∧ blf.ParseDialogInfo (rt := samples.runtime) samples.noNamespaceBody = blf.StateBusy.
Proof. split; reflexivity. Qed.

(** The effective state ignores case and surrounding blanks and falls back
    to the state attribute when the child element is blank, whatever the
    Unicode tables are. *)
Example dialogState_examples `{rt : GoRuntime} (p : blf.Party) :
  blf.dialogState (blf.mkDialog "a" " Confirmed " "early" "x" p p) = "confirmed"
  ∧ blf.dialogState (blf.mkDialog "a" "  " "EARLY" "x" p p) = "early"
  ∧ blf.dialogStateStr "TERMINATED " "early" = "terminated"
  ∧ blf.dialogStateStr EmptyString " Trying" = "trying".
Proof. repeat split; reflexivity. Qed.

(** ** Resource-identifier extraction *)

Lemma append_cons (x : ascii) (s t : string) : String x s ++ t = String x (s ++ t).
Proof. reflexivity. Qed.

Lemma prefix_byte (ch x : ascii) (s : string) :
  String.prefix (String ch EmptyString) (String x s) = Ascii.eqb ch x.
Proof.
  simpl. destruct (ascii_dec ch x) as [->|N].
  - rewrite Ascii.eqb_refl. destruct s; reflexivity.
  - symmetry. apply Ascii.eqb_neq. exact N.
Qed.

Lemma index_cons (ch x : ascii) (s : string) :
  String.index 0 (String ch EmptyString) (String x s)
  = if Ascii.eqb ch x then Some 0%nat
    else match String.index 0 (String ch EmptyString) s with
         | Some n => Some (S n)
         | None => None
         end.
Proof.
  change (String.index 0 (String ch EmptyString) (String x s))
    with (if String.prefix (String ch EmptyString) (String x s) then Some 0%nat
          else match String.index 0 (String ch EmptyString) s with
               | Some n => Some (S n)
               | None => None
               end).
  rewrite prefix_byte. reflexivity.
Qed.

Lemma index_byte (ch : ascii) (pre post : string) :
  design.lacks ch pre →
  String.index 0 (String ch EmptyString) (pre ++ String ch post) = Some (String.length pre).
Proof.
  induction pre as [|x pre IH]; intros Hl.
  - change (EmptyString ++ String ch post) with (String ch post).
    rewrite index_cons, Ascii.eqb_refl. reflexivity.
  - assert (Hx : x ≠ ch) by (apply Hl; left; reflexivity).
    rewrite append_cons, index_cons.
    destruct (Ascii.eqb_spec ch x) as [E|_]; [congruence|].
    rewrite IH; [reflexivity|].
    intros y Hy. apply Hl. right. exact Hy.
Qed.

Lemma index_byte_absent (ch : ascii) (s : string) :
  design.lacks ch s → String.index 0 (String ch EmptyString) s = None.
Proof.
  induction s as [|x s IH]; intros Hl; [reflexivity|].
  rewrite index_cons.
  assert (Hx : x ≠ ch) by (apply Hl; left; reflexivity).
  destruct (Ascii.eqb_spec ch x) as [E|_]; [congruence|].
  rewrite IH; [reflexivity|]. intros y Hy. apply Hl. right. exact Hy.
Qed.

Lemma str_drop_app (pre : string) (ch : ascii) (post : string) :
  strings.str_drop (S (String.length pre)) (pre ++ String ch post) = post.
Proof.
  induction pre as [|x pre IH]; [reflexivity|].
  rewrite append_cons. exact IH.
Qed.

Lemma str_take_app (pre post : string) :
  strings.str_take (String.length pre) (pre ++ post) = pre.
Proof.
  induction pre as [|x pre IH]; [destruct post; reflexivity|].
  rewrite append_cons. cbn [String.length strings.str_take]. rewrite IH. reflexivity.
Qed.

Lemma afterColonBeforeAt_uri (scheme ident host : string) :
  design.lacks ":" scheme → design.lacks "@" ident →
  blf.afterColonBeforeAt (scheme ++ ":" ++ ident ++ "@" ++ host) = Some ident.
Proof.
  intros Hs Hi. unfold blf.afterColonBeforeAt, strings.Index.
  change (":" ++ ident ++ "@" ++ host) with (String ":" (ident ++ String "@" host)).
  rewrite (index_byte ":" scheme _ Hs).
  destruct (Z.leb_spec 0 (Z.of_nat (String.length scheme))) as [_|Hneg]; [|lia].
  unfold strings.sliceFrom, strings.sliceTo.
  replace (Z.to_nat (Z.of_nat (String.length scheme) + 1)) with (S (String.length scheme)) by lia.
  rewrite str_drop_app.
  rewrite (index_byte "@" ident host Hi).
  destruct (Z.leb_spec 0 (Z.of_nat (String.length ident))) as [_|Hneg]; [|lia].
  rewrite Nat2Z.id. rewrite str_take_app. reflexivity.
Qed.

Lemma afterColonBeforeAt_no_at (scheme rest : string) :
  design.lacks ":" scheme → design.lacks "@" rest →
  blf.afterColonBeforeAt (scheme ++ ":" ++ rest) = Some rest.
Proof.
  intros Hs Hi. unfold blf.afterColonBeforeAt, strings.Index.
  change (":" ++ rest) with (String ":" rest).
  rewrite (index_byte ":" scheme _ Hs).
  destruct (Z.leb_spec 0 (Z.of_nat (String.length scheme))) as [_|Hneg]; [|lia].
  unfold strings.sliceFrom, strings.sliceTo.
  replace (Z.to_nat (Z.of_nat (String.length scheme) + 1)) with (S (String.length scheme)) by lia.
  rewrite str_drop_app.
  rewrite (index_byte_absent "@" rest Hi). reflexivity.
Qed.

Lemma afterColonBeforeAt_no_colon (s : string) :
  design.lacks ":" s → blf.afterColonBeforeAt s = None.
Proof.
  intros Hs. unfold blf.afterColonBeforeAt, strings.Index.
  rewrite (index_byte_absent ":" s Hs). reflexivity.
Qed.

(** For a body that decodes under the name-spaced schema: the identifier of
    the entity attribute when that has the shape scheme:identifier@host;
    with no entity attribute, the identifier of the first sub-dialog's local
    identity under the same rule; the empty string when neither is there. *)
Lemma ExtensionFromDialogInfo_namespaced `{rt : GoRuntime}
  (body : string) (info : blf.DialogInfo) :
  blf.Unmarshal_DialogInfo body = Some info →
  (∀ scheme ident host,
     blf.Entity info = scheme ++ ":" ++ ident ++ "@" ++ host →
     design.lacks ":" scheme → design.lacks "@" ident →
     blf.ExtensionFromDialogInfo body = ident)
  ∧ (blf.Entity info = EmptyString →
     ∀ d rest scheme ident host,
       blf.Dialogs info = d :: rest →
       blf.Identity (blf.Local d) = scheme ++ ":" ++ ident ++ "@" ++ host →
       design.lacks ":" scheme → design.lacks "@" ident →
       blf.ExtensionFromDialogInfo body = ident)
  ∧ (blf.Entity info = EmptyString →
     (blf.Dialogs info = []
      ∨ ∃ d rest, blf.Dialogs info = d :: rest
                  ∧ blf.Identity (blf.Local d) = EmptyString) →
     blf.ExtensionFromDialogInfo body = EmptyString).
Proof.
  intros Hdec. unfold blf.ExtensionFromDialogInfo. rewrite Hdec.
  assert (Hnonempty : ∀ scheme ident host,
            String.eqb (scheme ++ ":" ++ ident ++ "@" ++ host) EmptyString = false).
  { intros scheme ident host. destruct scheme; reflexivity. }
  split.
  { intros scheme ident host HE Hs Hi.
    rewrite HE, Hnonempty. cbn [negb].
    rewrite (afterColonBeforeAt_uri scheme ident host Hs Hi). reflexivity. }
  split.
  { intros HE d rest scheme ident host Hd Hid Hs Hi.
    rewrite HE, Hd, Hid, Hnonempty. cbn [negb String.eqb].
    rewrite (afterColonBeforeAt_uri scheme ident host Hs Hi). reflexivity. }
  intros HE [Hd | (d & rest & Hd & Hid)]; rewrite HE, Hd; [reflexivity|].
  rewrite Hid. reflexivity.
Qed.

(** The decoding under the name-spaced schema fails for every document
    whose root element is outside the RFC 4235 name space, while the
    name-space-free schema accepts it. *)
Lemma namespace_free_document `{rt : GoRuntime} (body : string)
  (name : xml.Name) (attr : list xml.Attr) (content : list xml.Node) :
  xmlDocument body = Some (xml.Element name attr content) →
  xml.Local name = "dialog-info" →
  xml.Space name ≠ blf.dialogInfoNS →
  blf.ParseDialogInfo body ≠ blf.StateUnknown
  ∧ blf.ExtensionFromDialogInfo body = EmptyString.
Proof.
  intros Hdoc Hl Hs.
  unfold blf.ParseDialogInfo, blf.ExtensionFromDialogInfo,
    blf.Unmarshal_DialogInfo, blf.Unmarshal_dialogInfoNoNS.
  rewrite Hdoc. cbn [blf.unmarshalDialogInfo blf.unmarshalDialogInfoNoNS].
  rewrite Hl. cbn [String.eqb Ascii.eqb Bool.eqb negb].
  destruct (String.eqb_spec (xml.Space name) blf.dialogInfoNS) as [E|_];
    [contradiction|].
  cbn [negb]. split; [|reflexivity].
  rewrite dialogsNoNSToState_scan. apply scanTokens_not_unknown.
Qed.

(** C9 (at the document of the parser's own test for peers that omit the
    name space): the dialog-state parser accepts the body and reports busy,
    the body carries the entity [sip:6000@pbx], whose identifier part is
    [6000], and the extraction returns the empty string. *)
Theorem ExtensionFromDialogInfo_namespace_free_body :
  blf.ParseDialogInfo (rt := samples.runtime) samples.noNamespaceBody = blf.StateBusy
  ∧ blf.Entity' <$> blf.Unmarshal_dialogInfoNoNS (rt := samples.runtime) samples.noNamespaceBody
    = Some "sip:6000@pbx"
  ∧ blf.afterColonBeforeAt "sip:6000@pbx" = Some "6000"
  ∧ blf.ExtensionFromDialogInfo (rt := samples.runtime) samples.noNamespaceBody
    = EmptyString.
Proof. repeat split; reflexivity. Qed.

Example ExtensionFromDialogInfo_test_body :
  blf.ExtensionFromDialogInfo (rt := samples.runtime) samples.confirmedBody = "6000".
Proof. reflexivity. Qed.

(** ** The session manager *)

Section SessionManager.
Context `{rt : GoRuntime} `{lib : SipLib} {A : Type}.
Implicit Types c : sip.Client A.
Import sipmsg.

(** *** Effect summaries of the monadic code *)

Lemma logFree_bind {B C} (m : sip.M B) (f : B → sip.M C) :
  design.logFree m → (∀ a, design.logFree (f a)) → design.logFree (sip.bind m f).
Proof.
  intros Hm Hf w L. unfold sip.bind. rewrite Hm.
  destruct (m w) as [w1 [a|e]]; cbn [fst snd]; [apply Hf | reflexivity].
Qed.

Lemma logFree_ret {B} (a : B) : design.logFree (sip.ret a).
Proof. intros w L. reflexivity. Qed.

Lemma logFree_fail {B} (e : error) : design.logFree (@sip.fail B e).
Proof. intros w L. reflexivity. Qed.

Lemma logFree_lift {B} (r : result B) : design.logFree (sip.lift r).
Proof. intros w L. reflexivity. Qed.

Lemma logFree_getResponse tx : design.logFree (sip.getResponse tx).
Proof. destruct tx; intros w L; reflexivity. Qed.

Lemma logFree_TransactionRequest req os :
  design.logFree (sip.TransactionRequest req os).
Proof.
  intros w L. unfold sip.TransactionRequest.
  destruct (sip.applyOptions os req) as [req'|e]; [|reflexivity].
  cbn [design.setLogs sip.outcomes sip.sent sip.logs].
  destruct (sip.outcomes w) as [|[e| |res] rest]; reflexivity.
Qed.

Ltac logFree_step :=
  first
    [ apply logFree_ret | apply logFree_fail | apply logFree_lift
    | apply logFree_getResponse | apply logFree_TransactionRequest
    | apply logFree_bind; [|intros ?]
    | match goal with
      | |- design.logFree (let '(_, _) := ?p in _) => destruct p
      | |- design.logFree (match ?x with _ => _ end) => destruct x
      | |- design.logFree (if ?b then _ else _) => destruct b
      end ].

Lemma logFree_subscribeOne c ext : design.logFree (sip.subscribeOne c ext).
Proof. unfold sip.subscribeOne. repeat logFree_step. Qed.

Lemma sends_bind {B C} (n k : nat) (m : sip.M B) (f : B → sip.M C) :
  design.sends n m → (∀ a, design.sends k (f a)) → design.sends (n + k) (sip.bind m f).
Proof.
  intros Hm Hf w. unfold sip.bind. specialize (Hm w).
  destruct (m w) as [w1 [a|e]]; cbn [fst] in *; [|lia].
  specialize (Hf a w1). lia.
Qed.

Lemma sends_le {B} (n n' : nat) (m : sip.M B) :
  (n ≤ n')%nat → design.sends n m → design.sends n' m.
Proof. intros Hle Hm w. specialize (Hm w). lia. Qed.

Lemma sends_ret {B} (a : B) : design.sends 0 (sip.ret a).
Proof. intros w. cbn. lia. Qed.

Lemma sends_fail {B} (e : error) : design.sends 0 (@sip.fail B e).
Proof. intros w. cbn. lia. Qed.

Lemma sends_lift {B} (r : result B) : design.sends 0 (sip.lift r).
Proof. intros w. cbn. lia. Qed.

Lemma sends_log l m a : design.sends 0 (sip.log l m a).
Proof. intros w. cbn. lia. Qed.

Lemma sends_getResponse tx : design.sends 0 (sip.getResponse tx).
Proof. destruct tx; intros w; cbn; lia. Qed.

Lemma sends_TransactionRequest req os : design.sends 1 (sip.TransactionRequest req os).
Proof.
  intros w. unfold sip.TransactionRequest.
  destruct (sip.applyOptions os req) as [req'|e]; cbn [fst]; [|lia].
  destruct (sip.outcomes w) as [|[e| |res] rest]; cbn [fst sip.sent];
    rewrite length_app; cbn; lia.
Qed.

(** *** Register *)

Lemma sends_Register c : design.sends 2 (sip.Register c).
Proof.
  unfold sip.Register.
  apply (sends_bind 0 2); [apply sends_lift|intros recipient].
  apply (sends_bind 1 1); [apply sends_TransactionRequest|intros [req tx]].
  apply (sends_bind 0 1); [apply sends_getResponse|intros res].
  apply (sends_bind 1 0).
  - destruct (StatusCode res =? 401); [|apply (sends_le 0); [lia|apply sends_ret]].
    destruct (findHeader (ResHeaders res) "WWW-Authenticate");
      [|apply (sends_le 0); [lia|apply sends_fail]].
    apply (sends_bind 0 1); [apply sends_lift|intros chal].
    apply (sends_bind 0 1); [apply sends_lift|intros cred].
    apply (sends_bind 1 0); [apply sends_TransactionRequest|intros [req2 tx2]].
    apply sends_getResponse.
  - intros res'.
    destruct (negb (StatusCode res' =? 200) && negb (StatusCode res' =? 202));
      [apply sends_fail|].
    apply (sends_bind 0 0); [apply sends_log|intros; apply sends_ret].
Qed.

(** The runs of [Register] once its address parses, by what the peer does. *)
Lemma Register_run c w recipient :
  ParseUri (design.registrar c) = Ok recipient →
  sip.Register c w =
  let final := fun (res : Response) (w0 : sip.World) =>
    if negb (StatusCode res =? 200) && negb (StatusCode res =? 202)
    then (w0, Err ("register failed: " ++ strings.Itoa (StatusCode res)))
    else (sip.logAt slog.LevelInfo "registered"
            [("status", slog.Int_ (StatusCode res))] w0, Ok tt) in
  let w1 := sip.mkWorld (tail (sip.outcomes w))
              (sip.sent w ++ [design.registerRequest c recipient]) (sip.logs w) in
  match sip.outcomes w with
  | SendFails e :: _ => (w1, Err e)
  | [] | Dies :: _ => (w1, Err "transaction died")
  | Replies res :: _ =>
      if StatusCode res =? 401 then
        match findHeader (ResHeaders res) "WWW-Authenticate" with
        | None => (w1, Err "401 without WWW-Authenticate")
        | Some h =>
            match ParseChallenge (Value h) with
            | Err e => (w1, Err e)
            | Ok chal =>
                match Digest chal (design.registerOptions c recipient) with
                | Err e => (w1, Err e)
                | Ok cred =>
                    let w2 := sip.mkWorld (tail (sip.outcomes w1))
                                (sip.sent w1 ++ [design.retryRequest c recipient cred])
                                (sip.logs w) in
                    match sip.outcomes w1 with
                    | SendFails e :: _ => (w2, Err e)
                    | [] | Dies :: _ => (w2, Err "transaction died")
                    | Replies res2 :: _ => final res2 w2
                    end
                end
            end
        end
      else final res w1
  end.
Proof.
  intros Huri. unfold design.registrar in Huri.
  unfold sip.Register, sip.bind, sip.lift, sip.TransactionRequest, sip.getResponse,
    sip.ret, sip.fail, sip.log.
  rewrite Huri. cbv beta zeta.
  change (sip.applyOptions [ClientRequestRegisterBuild] _)
    with (Ok (design.registerRequest c recipient)).
  cbv beta iota.
  destruct (sip.outcomes w) as [|[e| |res] rest]; try reflexivity.
  cbv beta iota.
  destruct (StatusCode res =? 401).
  2: { destruct (negb (StatusCode res =? 200) && negb (StatusCode res =? 202));
       reflexivity. }
  destruct (findHeader (ResHeaders res) "WWW-Authenticate") as [h|]; [|reflexivity].
  destruct (ParseChallenge (Value h)) as [chal|e]; [|reflexivity].
  change (Digest chal _) with (Digest chal (design.registerOptions c recipient)).
  destruct (Digest chal (design.registerOptions c recipient)) as [cred|e]; [|reflexivity].
  change (sip.applyOptions [ClientRequestIncreaseCSEQ; ClientRequestAddVia] _)
    with (Ok (design.retryRequest c recipient cred)).
  cbn [sip.outcomes sip.sent sip.logs tail].
  destruct rest as [|[e| |res2] rest']; try reflexivity.
  cbv beta iota.
  destruct (negb (StatusCode res2 =? 200) && negb (StatusCode res2 =? 202)); reflexivity.
Qed.

Lemma final_status_success (code : Z) :
  code = 200 ∨ code = 202 → negb (code =? 200) && negb (code =? 202) = false.
Proof. intros [-> | ->]; reflexivity. Qed.

Lemma final_status_failure (code : Z) :
  code ≠ 200 → code ≠ 202 → negb (code =? 200) && negb (code =? 202) = true.
Proof.
  intros H1 H2.
  destruct (Z.eqb_spec code 200); [contradiction|].
  destruct (Z.eqb_spec code 202); [contradiction|]. reflexivity.
Qed.

(** A challenge that parses: the request goes out twice and no more, the
    second time with the credential and the next sequence number, and the
    second outcome decides. *)
Lemma Register_challenged c w recipient res1 o2 rest h chal cred :
  ParseUri (design.registrar c) = Ok recipient →
  sip.outcomes w = Replies res1 :: o2 :: rest →
  StatusCode res1 = 401 →
  findHeader (ResHeaders res1) "WWW-Authenticate" = Some h →
  ParseChallenge (Value h) = Ok chal →
  Digest chal (design.registerOptions c recipient) = Ok cred →
  sip.sent (fst (sip.Register c w))
  = (sip.sent w ++ [design.registerRequest c recipient;
                    design.retryRequest c recipient cred])%list
  ∧ sip.outcomes (fst (sip.Register c w)) = rest
  ∧ match o2 with
    | Replies res2 =>
        (StatusCode res2 = 200 ∨ StatusCode res2 = 202 →
         snd (sip.Register c w) = Ok tt)
        ∧ (StatusCode res2 ≠ 200 → StatusCode res2 ≠ 202 →
           snd (sip.Register c w)
           = Err ("register failed: " ++ strings.Itoa (StatusCode res2)))
    | Dies => snd (sip.Register c w) = Err "transaction died"
    | SendFails e => snd (sip.Register c w) = Err e
    end.
Proof.
  intros Huri Hout H401 Hh Hchal Hcred.
  rewrite (Register_run c w recipient Huri). cbv zeta.
  rewrite Hout, H401. change (401 =? 401) with true. cbv iota.
  rewrite Hh, Hchal, Hcred. cbn [sip.outcomes sip.sent tail].
  rewrite <- app_assoc. cbn [app].
  destruct o2 as [e| |res2]; cbn [fst snd sip.sent sip.outcomes];
    [repeat split; reflexivity..|].
  destruct (negb (StatusCode res2 =? 200) && negb (StatusCode res2 =? 202)) eqn:E;
    cbn [fst snd sip.logAt sip.sent sip.outcomes].
  - repeat split; try reflexivity.
    intros Hs. rewrite (final_status_success _ Hs) in E. discriminate.
  - repeat split; try reflexivity.
    intros H1 H2. rewrite (final_status_failure _ H1 H2) in E. discriminate.
Qed.

(** A reply that is no challenge decides at once. *)
Lemma Register_unchallenged c w recipient res1 rest :
  ParseUri (design.registrar c) = Ok recipient →
  sip.outcomes w = Replies res1 :: rest →
  StatusCode res1 ≠ 401 →
  sip.sent (fst (sip.Register c w))
  = (sip.sent w ++ [design.registerRequest c recipient])%list
  ∧ (StatusCode res1 = 200 ∨ StatusCode res1 = 202 →
     snd (sip.Register c w) = Ok tt)
  ∧ (StatusCode res1 ≠ 200 → StatusCode res1 ≠ 202 →
     snd (sip.Register c w)
     = Err ("register failed: " ++ strings.Itoa (StatusCode res1))).
Proof.
  intros Huri Hout H401.
  rewrite (Register_run c w recipient Huri). cbv zeta. rewrite Hout.
  destruct (Z.eqb_spec (StatusCode res1) 401) as [E|_]; [contradiction|].
  destruct (negb (StatusCode res1 =? 200) && negb (StatusCode res1 =? 202)) eqn:E;
    cbn [fst snd sip.logAt sip.sent sip.outcomes].
  - repeat split; try reflexivity.
    intros Hs. rewrite (final_status_success _ Hs) in E. discriminate.
  - repeat split; try reflexivity.
    intros H1 H2. rewrite (final_status_failure _ H1 H2) in E. discriminate.
Qed.

Lemma Register_malformed_challenge c w recipient res1 rest :
  ParseUri (design.registrar c) = Ok recipient →
  sip.outcomes w = Replies res1 :: rest →
  StatusCode res1 = 401 →
  findHeader (ResHeaders res1) "WWW-Authenticate" = None →
  sip.Register c w
  = (sip.mkWorld rest (sip.sent w ++ [design.registerRequest c recipient]) (sip.logs w),
     Err "401 without WWW-Authenticate").
Proof.
  intros Huri Hout H401 Hh.
  rewrite (Register_run c w recipient Huri). cbv zeta.
  rewrite Hout, H401. change (401 =? 401) with true. cbv iota.
  rewrite Hh. reflexivity.
Qed.

Lemma Register_no_reply c w recipient :
  ParseUri (design.registrar c) = Ok recipient →
  (sip.outcomes w = [] ∨ ∃ rest, sip.outcomes w = Dies :: rest) →
  sip.Register c w
  = (sip.mkWorld (tail (sip.outcomes w))
       (sip.sent w ++ [design.registerRequest c recipient]) (sip.logs w),
     Err "transaction died").
Proof.
  intros Huri Hout.
  rewrite (Register_run c w recipient Huri). cbv zeta.
  destruct Hout as [-> | [rest ->]]; reflexivity.
Qed.

(** C3, as the code has it: once its address parses, [Register] hands at
    most two requests to the transaction layer.  The only reply it takes
    for a challenge is a 401 with a WWW-Authenticate header: if that header
    parses and the credential can be computed, the request is sent a second
    time, with the credential and the sequence number raised by one, to the
    same request URI (the registrar without a user part), and the outcome
    of that second transaction is final: 200 or 202 is success, any other
    status (a second 401 included) is an error, and the outcomes that
    follow are left untouched.  Every other first status decides in the
    same way at once: a 407 is an error whatever headers it carries.  A 401
    without a WWW-Authenticate header is an error of its own, after one
    request, and differs from the error for a transaction that gets no
    reply; a challenge that does not parse is returned as the parser's
    error, after one request. *)
Theorem Register_single_credentialed_retry c (w : sip.World) (recipient : Uri) :
  ParseUri (design.registrar c) = Ok recipient →
  (length (sip.sent (fst (sip.Register c w))) ≤ length (sip.sent w) + 2)%nat
  ∧ (∀ res1 o2 rest h chal cred,
       sip.outcomes w = Replies res1 :: o2 :: rest →
       StatusCode res1 = 401 →
       findHeader (ResHeaders res1) "WWW-Authenticate" = Some h →
       ParseChallenge (Value h) = Ok chal →
       Digest chal (design.registerOptions c recipient) = Ok cred →
       sip.sent (fst (sip.Register c w))
       = (sip.sent w ++ [design.registerRequest c recipient;
                         design.retryRequest c recipient cred])%list
       ∧ sip.outcomes (fst (sip.Register c w)) = rest
       ∧ CSeq (design.registerRequest c recipient) = Some firstSeqNo
       ∧ CSeq (design.retryRequest c recipient cred) = Some (firstSeqNo + 1)
       ∧ findHeader (Headers (design.registerRequest c recipient)) "Authorization" = None
       ∧ findHeader (Headers (design.retryRequest c recipient cred)) "Authorization"
         = Some (NewHeader "Authorization" (CredentialsString cred))
       ∧ Recipient (design.registerRequest c recipient)
         = mkUri EmptyString (Host recipient) (Port recipient)
       ∧ Recipient (design.retryRequest c recipient cred)
         = Recipient (design.registerRequest c recipient)
       ∧ findHeader (Headers (design.retryRequest c recipient cred)) "Contact"
         = findHeader (Headers (design.registerRequest c recipient)) "Contact"
       ∧ design.viaCount (design.registerRequest c recipient) = 1%nat
       ∧ design.viaCount (design.retryRequest c recipient cred) = 1%nat
       ∧ match o2 with
         | Replies res2 =>
             (StatusCode res2 = 200 ∨ StatusCode res2 = 202 →
              snd (sip.Register c w) = Ok tt)
             ∧ (StatusCode res2 ≠ 200 → StatusCode res2 ≠ 202 →
                snd (sip.Register c w)
                = Err ("register failed: " ++ strings.Itoa (StatusCode res2)))
         | Dies => snd (sip.Register c w) = Err "transaction died"
         | SendFails e => snd (sip.Register c w) = Err e
         end)
  ∧ (∀ res1 rest,
       sip.outcomes w = Replies res1 :: rest →
       StatusCode res1 ≠ 401 →
       sip.sent (fst (sip.Register c w))
       = (sip.sent w ++ [design.registerRequest c recipient])%list
       ∧ sip.outcomes (fst (sip.Register c w)) = rest
       ∧ (StatusCode res1 = 200 ∨ StatusCode res1 = 202 →
          snd (sip.Register c w) = Ok tt)
       ∧ (StatusCode res1 ≠ 200 → StatusCode res1 ≠ 202 →
          snd (sip.Register c w)
          = Err ("register failed: " ++ strings.Itoa (StatusCode res1))))
  ∧ (∀ res1 rest,
       sip.outcomes w = Replies res1 :: rest →
       StatusCode res1 = 401 →
       findHeader (ResHeaders res1) "WWW-Authenticate" = None →
       snd (sip.Register c w) = Err "401 without WWW-Authenticate"
       ∧ sip.sent (fst (sip.Register c w))
         = (sip.sent w ++ [design.registerRequest c recipient])%list)
  ∧ (∀ res1 rest h e,
       sip.outcomes w = Replies res1 :: rest →
       StatusCode res1 = 401 →
       findHeader (ResHeaders res1) "WWW-Authenticate" = Some h →
       ParseChallenge (Value h) = Err e →
       snd (sip.Register c w) = Err e
       ∧ sip.sent (fst (sip.Register c w))
         = (sip.sent w ++ [design.registerRequest c recipient])%list)
  ∧ (sip.outcomes w = [] ∨ (∃ rest, sip.outcomes w = Dies :: rest) →
     snd (sip.Register c w) = Err "transaction died")
  ∧ "401 without WWW-Authenticate" ≠ "transaction died".
Proof.
  intros Huri.
  split; [apply sends_Register|].
  split.
  { intros res1 o2 rest h chal cred Hout H401 Hh Hchal Hcred.
    destruct (Register_challenged c w recipient res1 o2 rest h chal cred
                Huri Hout H401 Hh Hchal Hcred) as (Hs & Ho & Hr).
    repeat (split; [first [exact Hs | exact Ho | reflexivity]|]). exact Hr. }
  split.
  { intros res1 rest Hout H401.
    destruct (Register_unchallenged c w recipient res1 rest Huri Hout H401)
      as (Hs & Hok & Hfail).
    split; [exact Hs|]. split; [|split; [exact Hok|exact Hfail]].
    rewrite (Register_run c w recipient Huri). cbv zeta. rewrite Hout.
    destruct (Z.eqb_spec (StatusCode res1) 401) as [E|_]; [contradiction|].
    destruct (negb (StatusCode res1 =? 200) && negb (StatusCode res1 =? 202));
      reflexivity. }
  split.
  { intros res1 rest Hout H401 Hh.
    rewrite (Register_malformed_challenge c w recipient res1 rest Huri Hout H401 Hh).
    split; reflexivity. }
  split.
  { intros res1 rest h e Hout H401 Hh Hparse.
    rewrite (Register_run c w recipient Huri). cbv zeta.
    rewrite Hout, H401. change (401 =? 401) with true. cbv iota.
    rewrite Hh, Hparse. split; reflexivity. }
  split; [|discriminate].
  intros Hout. rewrite (Register_no_reply c w recipient Huri Hout). reflexivity.
Qed.

End SessionManager.

Lemma Register_single_credentialed_retry_witness :
  ParseUri (SipLib := samples.sipLib) (design.registrar (samples.client []))
  = Ok (sipmsg.mkUri "blf-client" "pbx.example.com:5060" 0)
  ∧ snd (sip.Register (rt := samples.runtime) (lib := samples.sipLib) (samples.client [])
           (samples.world [Replies samples.challenge; Replies (samples.reply 200)]))
    = Ok tt
  ∧ length (sip.sent
              (fst (sip.Register (rt := samples.runtime) (lib := samples.sipLib)
                      (samples.client [])
                      (samples.world [Replies samples.challenge;
                                      Replies (samples.reply 200)])))) = 2%nat.
Proof.
  split; [reflexivity|].
  destruct (Register_single_credentialed_retry
              (rt := samples.runtime) (lib := samples.sipLib) (samples.client [])
              (samples.world [Replies samples.challenge; Replies (samples.reply 200)])
              (sipmsg.mkUri "blf-client" "pbx.example.com:5060" 0) eq_refl)
    as (_ & Hretry & _).
  destruct (Hretry samples.challenge (Replies (samples.reply 200)) []
              (sipmsg.NewHeader "WWW-Authenticate" "Digest realm=asterisk, nonce=abc")
              "Digest realm=asterisk, nonce=abc" "Digest username=blf-client"
              eq_refl eq_refl eq_refl eq_refl eq_refl)
    as (Hsent & _ & _ & _ & _ & _ & _ & _ & _ & _ & _ & Hok & _).
  split; [apply Hok; left; reflexivity|].
  rewrite Hsent. reflexivity.
Defined.

(** C3 as stated fails for a challenge that is not a 401: a 407 with a
    Proxy-Authenticate header (and a WWW-Authenticate header besides) is
    final, no credential is computed, and the reply that would answer a
    second request is never consumed. *)
Lemma Register_proxy_challenge_not_retried :
  let proxyChallenge :=
    sipmsg.mkResponse 407 "Proxy Authentication Required"
      [sipmsg.NewHeader "Proxy-Authenticate" "Digest realm=asterisk, nonce=abc";
       sipmsg.NewHeader "WWW-Authenticate" "Digest realm=asterisk, nonce=abc"] in
  let w := samples.world [Replies proxyChallenge; Replies (samples.reply 200)] in
  let r := sip.Register (rt := samples.runtime) (lib := samples.sipLib)
             (samples.client []) w in
  snd r = Err "register failed: 407"
  ∧ length (sip.sent (fst r)) = 1%nat
  ∧ sip.outcomes (fst r) = [Replies (samples.reply 200)].
Proof. repeat split; reflexivity. Qed.

(** Two challenges in a row: the second 401 is final, and the outcome that
    would answer a third request is never consumed. *)
Example Register_two_challenges :
  let w := samples.world [Replies samples.challenge; Replies samples.challenge;
                          Replies (samples.reply 200)] in
  let r := sip.Register (rt := samples.runtime) (lib := samples.sipLib)
             (samples.client []) w in
  snd r = Err "register failed: 401"
  ∧ length (sip.sent (fst r)) = 2%nat
  ∧ sip.outcomes (fst r) = [Replies (samples.reply 200)].
Proof. repeat split; reflexivity. Qed.

(** *** Subscribe *)

Section Subscriptions.
Context `{rt : GoRuntime} `{lib : SipLib} {A : Type}.
Implicit Types c : sip.Client A.

Lemma applyOptions_build (r : sipmsg.Request) :
  ∃ r', sip.applyOptions [ClientRequestBuild; ClientRequestAddVia] r = Ok r'.
Proof. cbn [sip.applyOptions sip.applyOption]. eexists. reflexivity. Qed.

(** A reply that is neither a challenge nor a success fails the attempt
    with the status in the message, after one request; for a 404 that is
    the resource-not-found failure, which the loop logs as a warning. *)
Lemma subscribeOne_rejected c (ext : string) (w : sip.World)
  (recipient : sipmsg.Uri) (res : sipmsg.Response) (rest : list TxOutcome) :
  ParseUri ("sip:" ++ ext ++ "@" ++ sip.Server (sip.cfg c)) = Ok recipient →
  sip.outcomes w = Replies res :: rest →
  sipmsg.StatusCode res ≠ 401 → sipmsg.StatusCode res ≠ 200 → sipmsg.StatusCode res ≠ 202 →
  snd (sip.subscribeOne c ext w)
  = Err ("subscribe " ++ ext ++ ": " ++ strings.Itoa (sipmsg.StatusCode res))
  ∧ sip.outcomes (fst (sip.subscribeOne c ext w)) = rest
  ∧ length (sip.sent (fst (sip.subscribeOne c ext w))) = S (length (sip.sent w)).
Proof.
  intros Huri Hout H401 H200 H202.
  unfold sip.subscribeOne, sip.bind, sip.lift, sip.TransactionRequest, sip.getResponse,
    sip.ret, sip.fail.
  rewrite Huri. cbv beta zeta.
  match goal with
  | |- context [sip.applyOptions ?os ?r] =>
      destruct (applyOptions_build r) as [r' ->]
  end.
  rewrite Hout. cbv beta iota.
  destruct (Z.eqb_spec (sipmsg.StatusCode res) 401) as [E|_]; [contradiction|].
  destruct (Z.eqb_spec (sipmsg.StatusCode res) 200) as [E|_]; [contradiction|].
  destruct (Z.eqb_spec (sipmsg.StatusCode res) 202) as [E|_]; [contradiction|].
  cbn [negb andb fst snd sip.outcomes sip.sent tail].
  rewrite length_app. cbn [length]. repeat split; lia.
Qed.
Lemma attemptEach_setLogs c (exts : list string) (w : sip.World) (L : list slog.Entry) :
  design.attemptEach c exts (design.setLogs L w) = design.attemptEach c exts w.
Proof.
  revert w L. induction exts as [|ext rest IH]; intros w L; [reflexivity|].
  cbn [design.attemptEach]. rewrite (logFree_subscribeOne c ext w L).
  destruct (sip.subscribeOne c ext w) as [w1 r]. cbn [fst snd].
  f_equal. apply IH.
Qed.

Lemma attemptEach_extensions c (exts : list string) (w : sip.World) :
  map fst (design.attemptEach c exts w) = exts.
Proof.
  revert w. induction exts as [|ext rest IH]; intros w; [reflexivity|].
  cbn [design.attemptEach].
  destruct (sip.subscribeOne c ext w) as [w1 r]. cbn [map fst].
  f_equal. apply IH.
Qed.

(** The slice [failed] after the loop: what it held before, then the
    extensions whose own attempt failed, in order. *)
Lemma subscribeLoop_failed c (exts failed : list string) (w : sip.World) :
  snd (sip.subscribeLoop c exts failed w)
  = (failed ++ design.failedOf (design.attemptEach c exts w))%list.
Proof.
  revert failed w. induction exts as [|ext rest IH]; intros failed w.
  - cbn. symmetry. apply app_nil_r.
  - cbn [sip.subscribeLoop design.attemptEach].
    destruct (sip.subscribeOne c ext w) as [w1 [[]|err]].
    + rewrite IH.
      change (sip.logAt ?l ?m ?a w1) with (design.setLogs (sip.logs w1 ++ [slog.mkEntry l m a]) w1).
      rewrite attemptEach_setLogs. reflexivity.
    + rewrite IH.
      destruct (strings.Contains err "404");
        change (sip.logAt ?l ?m ?a w1)
          with (design.setLogs (sip.logs w1 ++ [slog.mkEntry l m a]) w1);
        rewrite attemptEach_setLogs;
        unfold design.failedOf; cbn [List.filter design.isErr snd map fst];
        rewrite <- app_assoc; reflexivity.
Qed.

Lemma failedOf_length (attempts : list (string * result unit)) :
  (length (design.failedOf attempts) ≤ length attempts)%nat.
Proof.
  unfold design.failedOf. rewrite length_map.
  induction attempts as [|a rest IH]; cbn [List.filter length]; [lia|].
  destruct (design.isErr (snd a)); cbn [length]; lia.
Qed.

Lemma failedOf_all (attempts : list (string * result unit)) :
  length (design.failedOf attempts) = length attempts
  ↔ Forall (fun a => design.isErr (snd a) = true) attempts.
Proof.
  induction attempts as [|a rest IH].
  - split; [constructor|reflexivity].
  - pose proof (failedOf_length rest) as Hle.
    unfold design.failedOf in *. cbn [List.filter].
    destruct (design.isErr (snd a)) eqn:E; cbn [map length].
    + split.
      * intros Hlen. constructor; [exact E|]. apply IH. lia.
      * intros Hall. inversion Hall; subst. f_equal. apply IH. assumption.
    + split.
      * rewrite length_map in *. intros Hlen. lia.
      * intros Hall. inversion Hall; subst. congruence.
Qed.

Lemma Subscribe_result c (w : sip.World) :
  let failed := design.failedOf (design.attemptEach c (sip.extensions c) w) in
  sip.Subscribe c w
  = if Z.of_nat (length failed) =? Z.of_nat (length (sip.extensions c))
    then (fst (sip.subscribeLoop c (sip.extensions c) [] w),
          Err (sip.allFailedMessage failed))
    else (if Z.of_nat (length failed) >? 0
          then sip.logAt slog.LevelWarn "some extensions could not be subscribed"
                 [("failed", slog.Strings_ failed)]
                 (fst (sip.subscribeLoop c (sip.extensions c) [] w))
          else fst (sip.subscribeLoop c (sip.extensions c) [] w),
          Ok tt).
Proof.
  cbv zeta. unfold sip.Subscribe.
  pose proof (subscribeLoop_failed c (sip.extensions c) [] w) as Hf.
  destruct (sip.subscribeLoop c (sip.extensions c) [] w) as [w1 failed].
  cbn [snd fst app] in *. subst failed. reflexivity.
Qed.

(** C1: for a non-empty list of extensions, every extension is attempted,
    in order, each with the result of its own [subscribeOne] whatever the
    results of the others; [Subscribe] returns an error exactly when every
    attempt failed; when at least one attempt succeeded it returns success,
    and if some attempt failed the last log record is the warning that
    names exactly the extensions whose attempt failed. *)
Theorem Subscribe_partial_failure c (w : sip.World) :
  sip.extensions c ≠ [] →
  let attempts := design.attemptEach c (sip.extensions c) w in
  let failed := design.failedOf attempts in
  map fst attempts = sip.extensions c
  ∧ ((∃ e, snd (sip.Subscribe c w) = Err e)
     ↔ Forall (fun a => design.isErr (snd a) = true) attempts)
  ∧ (Exists (fun a => snd a = Ok tt) attempts → snd (sip.Subscribe c w) = Ok tt)
  ∧ (snd (sip.Subscribe c w) = Ok tt → failed ≠ [] →
     last (sip.logs (fst (sip.Subscribe c w)))
     = Some (slog.mkEntry slog.LevelWarn "some extensions could not be subscribed"
               [("failed", slog.Strings_ failed)])).
Proof.
  intros Hne attempts failed.
  assert (Hlen : length attempts = length (sip.extensions c)).
  { unfold attempts. rewrite <- (attemptEach_extensions c (sip.extensions c) w) at 2.
    symmetry. apply length_map. }
  pose proof (failedOf_all attempts) as Hall.
  pose proof (Subscribe_result c w) as Hrun. cbv zeta in Hrun.
  fold attempts in Hrun. fold failed in Hrun, Hall.
  assert (Hiff : (∃ e, snd (sip.Subscribe c w) = Err e)
                 ↔ Forall (fun a => design.isErr (snd a) = true) attempts).
  { rewrite Hrun. rewrite <- Hall, Hlen.
    destruct (Z.eqb_spec (Z.of_nat (length failed)) (Z.of_nat (length (sip.extensions c))))
      as [E|E]; cbn [snd].
    - split; [intros _; lia|intros _; eexists; reflexivity].
    - split; [intros [e He]; discriminate|intros E'; lia]. }
  split; [apply attemptEach_extensions|].
  split; [exact Hiff|].
  split.
  - intros Hex.
    destruct (snd (sip.Subscribe c w)) as [[]|e] eqn:E; [reflexivity|].
    exfalso. assert (Hf : Forall (fun a => design.isErr (snd a) = true) attempts)
      by (apply Hiff; eexists; reflexivity).
    apply Exists_exists in Hex. destruct Hex as (a & Hin & Ha).
    rewrite Forall_forall in Hf. specialize (Hf a Hin). rewrite Ha in Hf. discriminate.
  - rewrite Hrun.
    destruct (Z.of_nat (length failed) =? Z.of_nat (length (sip.extensions c)));
      cbn [snd fst]; [discriminate|].
    intros _ Hfailed.
    destruct failed as [|f fs] eqn:Ef; [contradiction|].
    cbn [length]. 
    replace (Z.of_nat (S (length fs)) >? 0) with true
      by (symmetry; apply Z.gtb_lt; lia).
    cbn [sip.logAt sip.logs]. apply last_snoc.
Qed.

End Subscriptions.

Lemma Subscribe_partial_failure_witness :
  let c := samples.client ["A"; "B"; "C"] in
  let w := samples.world [Replies (samples.reply 200); Replies (samples.reply 404);
                          Replies (samples.reply 200)] in
  sip.extensions c ≠ []
  ∧ snd (sip.Subscribe (rt := samples.runtime) (lib := samples.sipLib) c w) = Ok tt
  ∧ last (sip.logs (fst (sip.Subscribe (rt := samples.runtime) (lib := samples.sipLib) c w)))
    = Some (slog.mkEntry slog.LevelWarn "some extensions could not be subscribed"
              [("failed", slog.Strings_ ["B"])]).
Proof.
  intros c w.
  assert (Hne : sip.extensions c ≠ []) by discriminate.
  destruct (Subscribe_partial_failure (rt := samples.runtime) (lib := samples.sipLib)
              c w Hne) as (_ & _ & Hsome & Hwarn).
  assert (Hok : snd (sip.Subscribe (rt := samples.runtime) (lib := samples.sipLib) c w)
                = Ok tt).
  { apply Hsome. apply Exists_cons_hd. reflexivity. }
  split; [exact Hne|]. split; [exact Hok|].
  apply (Hwarn Hok). discriminate.
Defined.

(** C10: with no extension configured nothing is attempted (the world is
    left as it was) and [Subscribe] returns the error saying that all
    subscriptions failed. *)
Theorem Subscribe_no_extensions `{rt : GoRuntime} `{lib : SipLib} {A : Type}
  (cfg : sip.Config) (onBLF : option (string → blf.State → A)) (w : sip.World) :
  sip.Subscribe (sip.mkClient cfg [] onBLF) w
  = (w, Err "all subscriptions failed (extensions: []); check PBX dialplan hints and res_pjsip allow_subscribe").
Proof. reflexivity. Qed.

(** ** The event dispatcher *)

Lemma len_zero (s : string) : (strings.len s =? 0) = true ↔ s = EmptyString.
Proof.
  unfold strings.len. destruct s as [|ch s']; cbn [String.length].
  - split; reflexivity.
  - split; [|discriminate]. intros E. apply Z.eqb_eq in E. lia.
Qed.

Section Dispatcher.
Context `{rt : GoRuntime} {A : Type}.
Implicit Types c : sip.Client A.
Import sipmsg.

(** What [handleNOTIFY] does once the acknowledgement has been sent and the
    body is not empty. *)
Lemma handleNOTIFY_acknowledged c (req : Request) (tx : ServerTransaction) :
  Respond tx (NewResponseFromRequest req 200 "OK") = None →
  Body req ≠ EmptyString →
  sip.handleNOTIFY c req tx
  = match sip.onBLF c with
    | Some handler =>
        if negb (String.eqb (design.resourceIdentifier req) EmptyString)
        then [sip.Responded (NewResponseFromRequest req 200 "OK");
              sip.Called (handler (design.resourceIdentifier req)
                            (design.notifiedState (Body req)))]
        else [sip.Responded (NewResponseFromRequest req 200 "OK")]
    | None => [sip.Responded (NewResponseFromRequest req 200 "OK")]
    end.
Proof.
  intros Hack Hbody. unfold sip.handleNOTIFY. rewrite Hack.
  destruct (strings.len (Body req) =? 0) eqn:E;
    [apply len_zero in E; contradiction|].
  unfold design.resourceIdentifier, design.notifiedState.
  destruct (String.eqb_spec (blf.ExtensionFromDialogInfo (Body req)) EmptyString)
    as [-> | _]; reflexivity.
Qed.

(** C8, as the code has it: the handler first calls [Respond] with a 200
    reply.  If that call fails, the failure is logged as an error with the
    text of the failure, and nothing else happens: the handler is not
    called.  If it succeeds nothing is logged; if the body is empty nothing
    else happens.  If it succeeds and the body is not empty, a registered
    handler is called, with the resource identifier and the normalized
    state, exactly when the resource identifier found in the body or in the
    To header is not empty; without a registered handler nothing is
    called. *)
Theorem handleNOTIFY_dispatch c (req : Request) (tx : ServerTransaction) :
  let ack := NewResponseFromRequest req 200 "OK" in
  let trace := sip.handleNOTIFY c req tx in
  (∃ rest, trace = sip.Responded ack :: rest)
  ∧ (Respond tx ack ≠ None → ∀ a, ¬ In (sip.Called a) trace)
  ∧ (Respond tx ack = None → Body req = EmptyString → trace = [sip.Responded ack])
  ∧ (Respond tx ack = None → Body req ≠ EmptyString →
     ∀ handler, sip.onBLF c = Some handler →
       (design.resourceIdentifier req ≠ EmptyString →
        trace = [sip.Responded ack;
                 sip.Called (handler (design.resourceIdentifier req)
                               (design.notifiedState (Body req)))])
       ∧ (design.resourceIdentifier req = EmptyString → trace = [sip.Responded ack]))
  ∧ (sip.onBLF c = None → ∀ a, ¬ In (sip.Called a) trace)
  ∧ (∀ err, Respond tx ack = Some err →
       trace = [sip.Responded ack;
                sip.Logged (slog.mkEntry slog.LevelError "NOTIFY 200 respond failed"
                              [("error", slog.String_ err)])])
  ∧ (Respond tx ack = None → ∀ e, ¬ In (sip.Logged e) trace).
Proof.
  intros ack trace.
  assert (Hempty : Respond tx ack = None → Body req = EmptyString →
                   trace = [sip.Responded ack]).
  { intros Hack Hbody. unfold trace, sip.handleNOTIFY. fold ack. rewrite Hack, Hbody.
    reflexivity. }
  assert (Hfail : ∀ err, Respond tx ack = Some err →
                  trace = [sip.Responded ack;
                           sip.Logged (slog.mkEntry slog.LevelError
                                         "NOTIFY 200 respond failed"
                                         [("error", slog.String_ err)])]).
  { intros err Hack. unfold trace, sip.handleNOTIFY. fold ack. rewrite Hack.
    reflexivity. }
  split.
  { destruct (Respond tx ack) as [err|] eqn:Hack.
    - rewrite (Hfail err eq_refl). eexists; reflexivity.
    - destruct (String.eqb_spec (Body req) EmptyString) as [Hb|Hb].
      + rewrite (Hempty eq_refl Hb). eexists; reflexivity.
      + unfold trace. rewrite (handleNOTIFY_acknowledged c req tx Hack Hb).
        destruct (sip.onBLF c) as [handler|]; [|eexists; reflexivity].
        destruct (negb (String.eqb (design.resourceIdentifier req) EmptyString));
          eexists; reflexivity. }
  split.
  { intros Hack a. destruct (Respond tx ack) as [err|] eqn:E; [|contradiction].
    rewrite (Hfail err eq_refl). intros [Hin | [Hin | []]]; discriminate. }
  split; [exact Hempty|].
  split.
  { intros Hack Hbody handler Hh. unfold trace.
    rewrite (handleNOTIFY_acknowledged c req tx Hack Hbody), Hh.
    split; intros Hid.
    - destruct (String.eqb_spec (design.resourceIdentifier req) EmptyString);
        [contradiction|reflexivity].
    - rewrite Hid. reflexivity. }
  split.
  { intros Hnone a.
    destruct (Respond tx ack) as [err|] eqn:Hack.
    - rewrite (Hfail err eq_refl). intros [Hin | [Hin | []]]; discriminate.
    - destruct (String.eqb_spec (Body req) EmptyString) as [Hb|Hb].
      + rewrite (Hempty eq_refl Hb). intros [Hin | []]; discriminate.
      + unfold trace. rewrite (handleNOTIFY_acknowledged c req tx Hack Hb), Hnone.
        intros [Hin | []]; discriminate. }
  split; [exact Hfail|].
  intros Hack e.
  destruct (String.eqb_spec (Body req) EmptyString) as [Hb|Hb].
  - rewrite (Hempty Hack Hb). intros [Hin | []]; discriminate.
  - unfold trace. rewrite (handleNOTIFY_acknowledged c req tx Hack Hb).
    destruct (sip.onBLF c) as [handler|]; [|intros [Hin | []]; discriminate].
    destruct (negb (String.eqb (design.resourceIdentifier req) EmptyString));
      [intros [Hin | [Hin | []]]; discriminate|intros [Hin | []]; discriminate].
Qed.

End Dispatcher.

(** C8 as stated fails when the acknowledgement cannot be sent: the body is
    not empty and names extension 6000, a handler is registered, and yet
    the handler is not called. *)
Lemma handleNOTIFY_unacknowledged_not_dispatched :
  let c := samples.client [] in
  let req := samples.notify samples.confirmedBody None in
  let trace := sip.handleNOTIFY (rt := samples.runtime) c req samples.brokenTx in
  ¬ (sipmsg.Body req ≠ EmptyString →
     (design.resourceIdentifier (rt := samples.runtime) req ≠ EmptyString
      ↔ ∃ a, In (sip.Called a) trace)).
Proof.
  intros c req trace Hclaim.
  assert (Hbody : sipmsg.Body req ≠ EmptyString) by discriminate.
  destruct (Hclaim Hbody) as [Hcall _].
  destruct Hcall as [a Ha]; [discriminate|].
  destruct Ha as [Ha | [Ha | []]]; discriminate.
Qed.

Lemma handleNOTIFY_dispatch_witness :
  sip.handleNOTIFY (rt := samples.runtime) (samples.client [])
    (samples.notify samples.confirmedBody None) samples.okTx
  = [sip.Responded (sipmsg.mkResponse 200 "OK" []); sip.Called ("6000", "busy")]
  ∧ sip.handleNOTIFY (rt := samples.runtime) (samples.client [])
      (samples.notify samples.confirmedBody None) samples.brokenTx
    = [sip.Responded (sipmsg.mkResponse 200 "OK" []);
       sip.Logged (slog.mkEntry slog.LevelError "NOTIFY 200 respond failed"
                     [("error", slog.String_ "write: connection refused")])].
Proof.
  split.
  - destruct (handleNOTIFY_dispatch (rt := samples.runtime) (samples.client [])
                (samples.notify samples.confirmedBody None) samples.okTx)
      as (_ & _ & _ & Hcall & _).
    destruct (Hcall eq_refl ltac:(discriminate) (fun ext st => (ext, st)) eq_refl)
      as [Hfound _].
    apply Hfound. discriminate.
  - destruct (handleNOTIFY_dispatch (rt := samples.runtime) (samples.client [])
                (samples.notify samples.confirmedBody None) samples.brokenTx)
      as (_ & _ & _ & _ & _ & Hlogged & _).
    apply (Hlogged "write: connection refused"). reflexivity.
Defined.

(** The To header supplies the identifier when the body has none that the
    extraction finds. *)
Example handleNOTIFY_to_header :
  sip.handleNOTIFY (rt := samples.runtime) (samples.client [])
    (samples.notify samples.noNamespaceBody (Some "<sip:6000@pbx>;tag=1")) samples.okTx
  = [sip.Responded (sipmsg.mkResponse 200 "OK" []); sip.Called ("6000", "busy")]
  ∧ sip.handleNOTIFY (rt := samples.runtime) (samples.client [])
      (samples.notify samples.noNamespaceBody None) samples.okTx
    = [sip.Responded (sipmsg.mkResponse 200 "OK" [])].
Proof. split; reflexivity. Qed.

(** ** The identity cache and the publisher *)

Section IdentityCache.
Context `{glib : GraphLib}.
Variable svc : graph.Service.
Implicit Types c : graph.Client.

Lemma lookups_snoc (upn : string) (calls : list graph.Call) (k : graph.Call) :
  graph.lookups upn (calls ++ [k])
  = (graph.lookups upn calls
     + match k with
       | graph.UsersGet u => if String.eqb u upn then 1 else 0
       | graph.PresencePost _ _ => 0
       end)%nat.
Proof.
  unfold graph.lookups. rewrite List.filter_app, length_app. f_equal.
  destruct k as [u|o b]; cbn [List.filter]; [|reflexivity].
  destruct (String.eqb u upn); reflexivity.
Qed.

Lemma presencePosts_snoc (calls : list graph.Call) (k : graph.Call) :
  graph.presencePosts (calls ++ [k])
  = (graph.presencePosts calls
     + match k with
       | graph.UsersGet _ => 0
       | graph.PresencePost _ _ => 1
       end)%nat.
Proof.
  unfold graph.presencePosts. rewrite List.filter_app, length_app. f_equal.
  destruct k; reflexivity.
Qed.

(** The runs of [resolveUserID]: a hit changes nothing; a miss makes one
    lookup and stores the id only if the lookup yields a non-empty one. *)
Lemma resolveUserID_hit c (upn id : string) :
  graph.userIDCache c !! upn = Some id →
  graph.resolveUserID svc upn c = (c, Ok id).
Proof. intros Hc. unfold graph.resolveUserID. rewrite Hc. reflexivity. Qed.

Lemma resolveUserID_miss c (upn : string) :
  graph.userIDCache c !! upn = None →
  graph.graph (fst (graph.resolveUserID svc upn c)) = (graph.graph c ++ [graph.UsersGet upn])%list
  ∧ graph.clientID (fst (graph.resolveUserID svc upn c)) = graph.clientID c
  ∧ match snd (graph.resolveUserID svc upn c) with
    | Ok id =>
        id ≠ EmptyString
        ∧ graph.get svc (graph.graph c) upn = Ok (Some (graph.mkUser (Some id)))
        ∧ graph.userIDCache (fst (graph.resolveUserID svc upn c))
          = <[upn := id]> (graph.userIDCache c)
    | Err _ =>
        graph.userIDCache (fst (graph.resolveUserID svc upn c)) = graph.userIDCache c
        ∧ graph.log (fst (graph.resolveUserID svc upn c)) = graph.log c
    end.
Proof.
  intros Hc. unfold graph.resolveUserID. rewrite Hc.
  destruct (graph.get svc (graph.graph c) upn) as [[[[id|]]|]|e];
    cbn [fst snd graph.called graph.graph graph.clientID graph.userIDCache graph.log
         graph.GetId];
    try (repeat split; reflexivity).
  destruct (String.eqb_spec id EmptyString) as [E|E];
    cbn [fst snd graph.called graph.cacheStore graph.logAt graph.graph graph.clientID
         graph.userIDCache graph.log];
    repeat split; try reflexivity; assumption.
Qed.

Lemma resolveUserID_clientID c (upn : string) :
  graph.clientID (fst (graph.resolveUserID svc upn c)) = graph.clientID c.
Proof.
  destruct (graph.userIDCache c !! upn) as [id|] eqn:Hc.
  - rewrite (resolveUserID_hit c upn id Hc). reflexivity.
  - apply (resolveUserID_miss c upn Hc).
Qed.

Lemma resolveUserID_success_cached c (upn id : string) :
  snd (graph.resolveUserID svc upn c) = Ok id →
  graph.userIDCache (fst (graph.resolveUserID svc upn c)) !! upn = Some id.
Proof.
  intros Hok.
  destruct (graph.userIDCache c !! upn) as [id'|] eqn:Hc.
  - rewrite (resolveUserID_hit c upn id' Hc) in *. cbn [fst snd] in *. congruence.
  - destruct (resolveUserID_miss c upn Hc) as (_ & _ & Hr).
    rewrite Hok in Hr. destruct Hr as (_ & _ & ->). apply lookup_insert_eq.
Qed.

Lemma resolveUserID_lookups c (upn : string) :
  (graph.lookups upn (graph.graph (fst (graph.resolveUserID svc upn c)))
   ≤ graph.lookups upn (graph.graph c) + 1)%nat.
Proof.
  destruct (graph.userIDCache c !! upn) as [id|] eqn:Hc.
  - rewrite (resolveUserID_hit c upn id Hc). cbn [fst]. lia.
  - destruct (resolveUserID_miss c upn Hc) as (-> & _).
    rewrite lookups_snoc. destruct (String.eqb upn upn); lia.
Qed.

(** A binding in the cache survives every resolution, and no resolution
    looks its identifier up again. *)
Lemma resolveUserID_keeps c (upn id u : string) :
  graph.userIDCache c !! upn = Some id →
  graph.userIDCache (fst (graph.resolveUserID svc u c)) !! upn = Some id
  ∧ graph.lookups upn (graph.graph (fst (graph.resolveUserID svc u c)))
    = graph.lookups upn (graph.graph c).
Proof.
  intros Hc.
  destruct (graph.userIDCache c !! u) as [id'|] eqn:Hu.
  - rewrite (resolveUserID_hit c u id' Hu). cbn [fst]. split; [exact Hc|reflexivity].
  - assert (Hne : u ≠ upn) by (intros ->; congruence).
    destruct (resolveUserID_miss c u Hu) as (Hg & _ & Hr).
    rewrite Hg, lookups_snoc.
    destruct (String.eqb_spec u upn) as [E|_]; [contradiction|].
    split; [|lia].
    destruct (snd (graph.resolveUserID svc u c)) as [id''|e].
    + destruct Hr as (_ & _ & ->). rewrite lookup_insert_ne; assumption.
    + destruct Hr as [-> _]. exact Hc.
Qed.

(** [SetPresence] touches the cache and the directory through
    [resolveUserID] only. *)
Lemma SetPresence_run c (userID extension availability activity : string) :
  let c1 := fst (graph.resolveUserID svc userID c) in
  let r := graph.SetPresence svc userID extension availability activity c in
  graph.userIDCache (fst r) = graph.userIDCache c1
  ∧ match snd (graph.resolveUserID svc userID c) with
    | Err err => graph.graph (fst r) = graph.graph c1 ∧ snd r = Some err
    | Ok objectID =>
        match ParseISODuration graph.expiration with
        | Err err => graph.graph (fst r) = graph.graph c1 ∧ snd r = Some err
        | Ok dur =>
            let body := graph.mkPresenceBody (graph.clientID c) availability activity dur in
            graph.graph (fst r) = (graph.graph c1 ++ [graph.PresencePost objectID body])%list
            ∧ snd r = graph.post svc (graph.graph c1) objectID body
        end
    end.
Proof.
  cbv zeta. unfold graph.SetPresence.
  pose proof (resolveUserID_clientID c userID) as Hid.
  destruct (graph.resolveUserID svc userID c) as [c1 [objectID|err]];
    cbn [fst snd] in *.
  2: { repeat split; reflexivity. }
  destruct (ParseISODuration graph.expiration) as [dur|err];
    [|repeat split; reflexivity].
  rewrite Hid.
  destruct (graph.post svc (graph.graph c1) objectID
              (graph.mkPresenceBody (graph.clientID c) availability activity dur));
    repeat split; reflexivity.
Qed.

Lemma SetPresence_keeps c (upn id userID extension availability activity : string) :
  graph.userIDCache c !! upn = Some id →
  let r := graph.SetPresence svc userID extension availability activity c in
  graph.userIDCache (fst r) !! upn = Some id
  ∧ graph.lookups upn (graph.graph (fst r)) = graph.lookups upn (graph.graph c).
Proof.
  intros Hc r.
  destruct (resolveUserID_keeps c upn id userID Hc) as [Hk Hl].
  destruct (SetPresence_run c userID extension availability activity) as [Hcache Hrun].
  fold r in Hcache, Hrun. rewrite Hcache. split; [exact Hk|].
  destruct (snd (graph.resolveUserID svc userID c)) as [objectID|err].
  - destruct (ParseISODuration graph.expiration) as [dur|err].
    + destruct Hrun as [-> _]. rewrite lookups_snoc. lia.
    + destruct Hrun as [-> _]. exact Hl.
  - destruct Hrun as [-> _]. exact Hl.
Qed.

Lemma runOps_keeps (ops : list design.GraphOp) c (upn id : string) :
  graph.userIDCache c !! upn = Some id →
  graph.userIDCache (design.runOps svc ops c) !! upn = Some id
  ∧ graph.lookups upn (graph.graph (design.runOps svc ops c))
    = graph.lookups upn (graph.graph c).
Proof.
  revert c. induction ops as [|op rest IH]; intros c Hc; [split; [exact Hc|reflexivity]|].
  destruct op as [u|u e av ac]; cbn [design.runOps].
  - destruct (resolveUserID_keeps c upn id u Hc) as [Hk Hl].
    destruct (IH _ Hk) as [Hk' Hl']. split; [exact Hk'|congruence].
  - destruct (SetPresence_keeps c upn id u e av ac Hc) as [Hk Hl].
    destruct (IH _ Hk) as [Hk' Hl']. split; [exact Hk'|congruence].
Qed.

(** C6, as the code has it: a resolution makes at most one lookup, whatever
    its outcome.  Once a resolution of an identifier has succeeded its
    binding is in the cache and stays there with the same id through every
    later resolution and publication, each later resolution of that
    identifier returns the id without changing anything, and the directory
    is never asked for that identifier again.  A resolution that fails has
    asked the directory once and leaves the cache as it was, so the next
    resolution of that identifier asks the directory again; the lookups
    that fail are those that return an error, no user, or a user without
    an id or with an empty one. *)
Theorem resolveUserID_memoizes_success c (upn : string) :
  let r := graph.resolveUserID svc upn c in
  let c1 := fst r in
  (graph.lookups upn (graph.graph c1) ≤ graph.lookups upn (graph.graph c) + 1)%nat
  ∧ (∀ id, snd r = Ok id →
       graph.userIDCache c1 !! upn = Some id
       ∧ ∀ ops : list design.GraphOp,
           let c2 := design.runOps svc ops c1 in
           graph.userIDCache c2 !! upn = Some id
           ∧ graph.resolveUserID svc upn c2 = (c2, Ok id)
           ∧ graph.lookups upn (graph.graph c2) = graph.lookups upn (graph.graph c1))
  ∧ (∀ err, snd r = Err err →
       graph.userIDCache c !! upn = None
       ∧ graph.userIDCache c1 = graph.userIDCache c
       ∧ graph.lookups upn (graph.graph c1) = (graph.lookups upn (graph.graph c) + 1)%nat
       ∧ graph.lookups upn (graph.graph (fst (graph.resolveUserID svc upn c1)))
         = (graph.lookups upn (graph.graph c) + 2)%nat)
  ∧ (graph.userIDCache c !! upn = None →
       (∀ e, graph.get svc (graph.graph c) upn = Err e → snd r = Err e)
       ∧ (graph.get svc (graph.graph c) upn = Ok None → snd r = Err "user not found")
       ∧ (∀ user, graph.get svc (graph.graph c) upn = Ok (Some user) →
            graph.GetId user = None ∨ graph.GetId user = Some EmptyString →
            snd r = Err "user has no id")).
Proof.
  intros r c1.
  split; [apply resolveUserID_lookups|].
  split.
  { intros id Hok.
    pose proof (resolveUserID_success_cached c upn id Hok) as Hc1. fold c1 in Hc1.
    split; [exact Hc1|].
    intros ops c2.
    destruct (runOps_keeps ops c1 upn id Hc1) as [Hk Hl]. fold c2 in Hk, Hl.
    split; [exact Hk|]. split; [|exact Hl].
    apply resolveUserID_hit. exact Hk. }
  split.
  { intros err Herr. unfold c1, r in *. clear c1 r.
    destruct (graph.userIDCache c !! upn) as [id|] eqn:Hc.
    { rewrite (resolveUserID_hit c upn id Hc) in Herr. discriminate. }
    destruct (resolveUserID_miss c upn Hc) as (Hg & _ & Hr).
    rewrite Herr in Hr. destruct Hr as [Hcache _].
    set (c1 := fst (graph.resolveUserID svc upn c)) in *.
    assert (Hone : graph.lookups upn (graph.graph c1)
                   = (graph.lookups upn (graph.graph c) + 1)%nat).
    { rewrite Hg, lookups_snoc, String.eqb_refl. reflexivity. }
    split; [reflexivity|]. split; [exact Hcache|]. split; [exact Hone|].
    assert (Hc1 : graph.userIDCache c1 !! upn = None) by (rewrite Hcache; exact Hc).
    destruct (resolveUserID_miss c1 upn Hc1) as (Hg2 & _).
    rewrite Hg2, lookups_snoc, String.eqb_refl, Hone. lia. }
  intros Hc. unfold r, graph.resolveUserID. rewrite Hc.
  split; [intros e He; rewrite He; reflexivity|].
  split; [intros Hn; rewrite Hn; reflexivity|].
  intros user Hu Hid. rewrite Hu.
  destruct Hid as [-> | ->]; reflexivity.
Qed.

(** C7: [SetPresence] posts at most once.  When the resolution fails it
    returns that error, posts nothing, and leaves the directory calls and
    the cache as the resolution left them.  When the post fails it returns
    that error after exactly that one post. *)
Theorem SetPresence_failure_paths c (userID extension availability activity : string) :
  let c1 := fst (graph.resolveUserID svc userID c) in
  let r := graph.SetPresence svc userID extension availability activity c in
  (graph.presencePosts (graph.graph (fst r))
   ≤ graph.presencePosts (graph.graph c) + 1)%nat
  ∧ (∀ err, snd (graph.resolveUserID svc userID c) = Err err →
       snd r = Some err
       ∧ graph.presencePosts (graph.graph (fst r)) = graph.presencePosts (graph.graph c)
       ∧ graph.graph (fst r) = graph.graph c1
       ∧ graph.userIDCache (fst r) = graph.userIDCache c)
  ∧ (∀ objectID dur err,
       snd (graph.resolveUserID svc userID c) = Ok objectID →
       ParseISODuration graph.expiration = Ok dur →
       graph.post svc (graph.graph c1) objectID
         (graph.mkPresenceBody (graph.clientID c) availability activity dur) = Some err →
       snd r = Some err
       ∧ graph.graph (fst r)
         = (graph.graph c1
            ++ [graph.PresencePost objectID
                  (graph.mkPresenceBody (graph.clientID c) availability activity dur)])%list
       ∧ graph.presencePosts (graph.graph (fst r))
         = (graph.presencePosts (graph.graph c) + 1)%nat).
Proof.
  intros c1 r.
  destruct (SetPresence_run c userID extension availability activity) as [Hcache Hrun].
  fold c1 in Hcache, Hrun. fold r in Hcache, Hrun.
  assert (Hposts : graph.presencePosts (graph.graph c1) = graph.presencePosts (graph.graph c)).
  { unfold c1. destruct (graph.userIDCache c !! userID) as [id|] eqn:Hc.
    - rewrite (resolveUserID_hit c userID id Hc). reflexivity.
    - destruct (resolveUserID_miss c userID Hc) as (-> & _).
      rewrite presencePosts_snoc. lia. }
  split.
  { destruct (snd (graph.resolveUserID svc userID c)) as [objectID|err].
    - destruct (ParseISODuration graph.expiration) as [dur|err].
      + destruct Hrun as [-> _]. rewrite presencePosts_snoc. lia.
      + destruct Hrun as [-> _]. lia.
    - destruct Hrun as [-> _]. lia. }
  split.
  { intros err Herr. rewrite Herr in Hrun. destruct Hrun as [Hg Hr].
    split; [exact Hr|]. split; [rewrite Hg; exact Hposts|]. split; [exact Hg|].
    rewrite Hcache. unfold c1.
    destruct (graph.userIDCache c !! userID) as [id|] eqn:Hc.
    - rewrite (resolveUserID_hit c userID id Hc). reflexivity.
    - destruct (resolveUserID_miss c userID Hc) as (_ & _ & Hm).
      rewrite Herr in Hm. apply Hm. }
  intros objectID dur err Hok Hdur Hpost.
  rewrite Hok, Hdur in Hrun. cbv zeta in Hrun. destruct Hrun as [Hg Hr].
  split; [congruence|]. split; [exact Hg|].
  rewrite Hg, presencePosts_snoc. lia.
Qed.

End IdentityCache.

(** C6 as stated fails when the lookup fails: nothing is cached, and the
    second resolution of the same identifier asks the directory again. *)
Lemma resolveUserID_failed_lookup_repeated :
  let svc := samples.directory false true in
  let upn := "user1@contoso.com" in
  let c1 := fst (graph.resolveUserID svc upn samples.freshClient) in
  let c2 := fst (graph.resolveUserID svc upn c1) in
  graph.lookups upn (graph.graph c2) = 2%nat
  ∧ graph.userIDCache c2 !! upn = None.
Proof. split; reflexivity. Qed.

Lemma resolveUserID_memoizes_success_witness :
  let svc := samples.directory true true in
  let upn := "user1@contoso.com" in
  let c1 := fst (graph.resolveUserID svc upn samples.freshClient) in
  let c2 := design.runOps svc [design.Publish upn "1001" "Busy" "InACall";
                               design.Resolve "nobody@contoso.com"] c1 in
  snd (graph.resolveUserID svc upn samples.freshClient) = Ok "0f1e2d3c"
  ∧ graph.resolveUserID svc upn c2 = (c2, Ok "0f1e2d3c")
  ∧ graph.lookups upn (graph.graph c2) = 1%nat.
Proof.
  intros svc upn c1 c2.
  destruct (resolveUserID_memoizes_success svc samples.freshClient upn)
    as (_ & Hsuccess & _).
  destruct (Hsuccess "0f1e2d3c" eq_refl) as (_ & Hlater).
  destruct (Hlater [design.Publish upn "1001" "Busy" "InACall";
                    design.Resolve "nobody@contoso.com"]) as (_ & Hhit & Hl).
  split; [reflexivity|]. split; [exact Hhit|].
  fold c1 in Hl. fold c2 in Hl. rewrite Hl. reflexivity.
Defined.

Lemma SetPresence_failure_paths_witness :
  let r := graph.SetPresence (samples.directory true false)
             "user1@contoso.com" "1001" "Busy" "InACall" samples.freshClient in
  snd r = Some "403 Forbidden"
  ∧ graph.presencePosts (graph.graph (fst r)) = 1%nat.
Proof.
  intros r.
  destruct (SetPresence_failure_paths (samples.directory true false) samples.freshClient
              "user1@contoso.com" "1001" "Busy" "InACall") as (_ & _ & Hpost).
  destruct (Hpost "0f1e2d3c" "PT1H" "403 Forbidden" eq_refl eq_refl eq_refl)
    as (Hr & _ & Hn).
  split; [exact Hr|exact Hn].
Defined.

Example SetPresence_unresolved :
  let r := graph.SetPresence (samples.directory true true)
             "nobody@contoso.com" "1002" "Busy" "InACall" samples.freshClient in
  snd r = Some "user not found"
  ∧ graph.presencePosts (graph.graph (fst r)) = 0%nat.
Proof. split; reflexivity. Qed.

(* ===================================================================== *)
(** * Further properties                                                 *)
(* ===================================================================== *)

(** ** ASCII text under [ToLower], [ToUpper] and [TrimSpace] *)

Lemma str_map_cons (f : ascii → ascii) (c : ascii) (s : string) :
  strings.str_map f (String c s) = String (f c) (strings.str_map f s).
Proof. reflexivity. Qed.

Lemma str_map_list (f : ascii → ascii) (s : string) :
  list_ascii_of_string (strings.str_map f s) = map f (list_ascii_of_string s).
Proof. unfold strings.str_map. apply list_ascii_of_string_of_list_ascii. Qed.

Lemma str_map_of_list (f : ascii → ascii) (l : list ascii) :
  strings.str_map f (string_of_list_ascii l) = string_of_list_ascii (map f l).
Proof. unfold strings.str_map. rewrite list_ascii_of_string_of_list_ascii. reflexivity. Qed.

Lemma isASCII_cons (c : ascii) (s : string) :
  strings.isASCII (String c s) = (strings.byte c <? strings.RuneSelf) && strings.isASCII s.
Proof. reflexivity. Qed.

Lemma lowerByte_space (c : ascii) :
  strings.asciiSpace (strings.lowerByte c) = strings.asciiSpace c.
Proof. destruct c as [[] [] [] [] [] [] [] []]; reflexivity. Qed.

Lemma lowerByte_ascii (c : ascii) :
  (strings.byte (strings.lowerByte c) <? strings.RuneSelf)
  = (strings.byte c <? strings.RuneSelf).
Proof. destruct c as [[] [] [] [] [] [] [] []]; reflexivity. Qed.

Lemma lowerByte_upperByte (c : ascii) :
  strings.lowerByte (strings.upperByte c) = strings.lowerByte c.
Proof. destruct c as [[] [] [] [] [] [] [] []]; reflexivity. Qed.

Lemma upperByte_ascii (c : ascii) :
  (strings.byte (strings.upperByte c) <? strings.RuneSelf)
  = (strings.byte c <? strings.RuneSelf).
Proof. destruct c as [[] [] [] [] [] [] [] []]; reflexivity. Qed.

Lemma runeSelf_leb (c : ascii) :
  (strings.byte c <? strings.RuneSelf) = true → (strings.RuneSelf <=? strings.byte c) = false.
Proof. intros H. apply Z.ltb_lt in H. apply Z.leb_gt. exact H. Qed.

Lemma isASCII_str_map_lower (s : string) :
  strings.isASCII (strings.str_map strings.lowerByte s) = strings.isASCII s.
Proof.
  induction s as [|c s IH]; [reflexivity|].
  rewrite str_map_cons, !isASCII_cons, lowerByte_ascii, IH. reflexivity.
Qed.

Lemma isASCII_str_map_upper (s : string) :
  strings.isASCII (strings.str_map strings.upperByte s) = strings.isASCII s.
Proof.
  induction s as [|c s IH]; [reflexivity|].
  rewrite str_map_cons, !isASCII_cons, upperByte_ascii, IH. reflexivity.
Qed.

Lemma str_map_lower_upper (s : string) :
  strings.str_map strings.lowerByte (strings.str_map strings.upperByte s)
  = strings.str_map strings.lowerByte s.
Proof.
  induction s as [|c s IH]; [reflexivity|].
  rewrite !str_map_cons, lowerByte_upperByte, IH. reflexivity.
Qed.

Lemma str_map_empty (f : ascii → ascii) (s : string) :
  String.eqb (strings.str_map f s) EmptyString = String.eqb s EmptyString.
Proof. destruct s; reflexivity. Qed.


Section AsciiText.
Context `{rt : GoRuntime}.

Lemma trimSpaceStop_lower (l : list ascii) :
  forallb (fun c => strings.byte c <? strings.RuneSelf) l = true →
  strings.trimSpaceStop (map strings.lowerByte l)
  = strings.str_map strings.lowerByte (strings.trimSpaceStop l).
Proof.
  induction l as [|c r IH]; intros Hl; [reflexivity|].
  cbn [forallb] in Hl. apply andb_true_iff in Hl. destruct Hl as [Hc Hr].
  cbn [map strings.trimSpaceStop].
  rewrite (runeSelf_leb c Hc).
  rewrite <- lowerByte_ascii in Hc. rewrite (runeSelf_leb _ Hc).
  rewrite lowerByte_space.
  destruct (strings.asciiSpace c); [apply IH; exact Hr|].
  rewrite str_map_of_list. change (strings.lowerByte c :: map strings.lowerByte r)
    with (map strings.lowerByte (c :: r)).
  rewrite <- map_rev. reflexivity.
Qed.

Lemma forallb_rev {X} (p : X → bool) (l : list X) : forallb p (rev l) = forallb p l.
Proof.
  induction l as [|x l IH]; [reflexivity|].
  cbn [rev forallb]. rewrite forallb_app, IH. cbn [forallb].
  rewrite andb_true_r. apply andb_comm.
Qed.

(** On ASCII text, lowering and trimming commute. *)
Lemma TrimSpace_lower (s : string) :
  strings.isASCII s = true →
  strings.TrimSpace (strings.str_map strings.lowerByte s)
  = strings.str_map strings.lowerByte (strings.TrimSpace s).
Proof.
  induction s as [|c s IH]; intros Hs; [reflexivity|].
  pose proof Hs as Hall.
  rewrite isASCII_cons in Hs. apply andb_true_iff in Hs. destruct Hs as [Hc Hs].
  rewrite str_map_cons. cbn [strings.TrimSpace].
  rewrite (runeSelf_leb c Hc).
  pose proof Hc as Hc'. rewrite <- lowerByte_ascii in Hc'. rewrite (runeSelf_leb _ Hc').
  rewrite lowerByte_space.
  destruct (strings.asciiSpace c); [apply IH; exact Hs|].
  rewrite <- str_map_cons, str_map_list, <- map_rev.
  apply trimSpaceStop_lower. rewrite forallb_rev. exact Hall.
Qed.

Lemma trimSpaceStop_ascii (l : list ascii) :
  forallb (fun c => strings.byte c <? strings.RuneSelf) l = true →
  strings.isASCII (strings.trimSpaceStop l) = true.
Proof.
  induction l as [|c r IH]; intros Hl; [reflexivity|].
  pose proof Hl as Hall.
  cbn [forallb] in Hl. apply andb_true_iff in Hl. destruct Hl as [Hc Hr].
  cbn [strings.trimSpaceStop]. rewrite (runeSelf_leb c Hc).
  destruct (strings.asciiSpace c); [apply IH; exact Hr|].
  unfold strings.isASCII. rewrite list_ascii_of_string_of_list_ascii, forallb_rev.
  exact Hall.
Qed.

Lemma TrimSpace_ascii (s : string) :
  strings.isASCII s = true → strings.isASCII (strings.TrimSpace s) = true.
Proof.
  induction s as [|c s IH]; intros Hs; [reflexivity|].
  pose proof Hs as Hall.
  rewrite isASCII_cons in Hs. apply andb_true_iff in Hs. destruct Hs as [Hc Hs].
  cbn [strings.TrimSpace]. rewrite (runeSelf_leb c Hc).
  destruct (strings.asciiSpace c); [apply IH; exact Hs|].
  apply trimSpaceStop_ascii. rewrite forallb_rev. exact Hall.
Qed.

Lemma ToLower_ascii (s : string) :
  strings.isASCII s = true → strings.ToLower s = strings.str_map strings.lowerByte s.
Proof. intros Hs. unfold strings.ToLower. rewrite Hs. reflexivity. Qed.

Lemma ToUpper_ascii (s : string) :
  strings.isASCII s = true → strings.ToUpper s = strings.str_map strings.upperByte s.
Proof. intros Hs. unfold strings.ToUpper. rewrite Hs. reflexivity. Qed.

(** The two schemas read the same effective state off ASCII text: the
    order in which [dialogState] and [dialogStateStr] trim and lower does
    not matter. *)
Theorem dialogState_dialogStateStr_ascii (d : blf.Dialog) :
  strings.isASCII (blf.State_ d) = true →
  strings.isASCII (blf.StateAttr d) = true →
  blf.dialogState d = blf.dialogStateStr (blf.State_ d) (blf.StateAttr d).
Proof.
  intros Hs Ha. unfold blf.dialogState, blf.dialogStateStr.
  rewrite (ToLower_ascii _ Hs), (ToLower_ascii _ Ha).
  rewrite (TrimSpace_lower _ Hs), (TrimSpace_lower _ Ha), str_map_empty.
  destruct (String.eqb (strings.TrimSpace (blf.State_ d)) EmptyString).
  - apply ToLower_ascii, TrimSpace_ascii, Ha.
  - apply ToLower_ascii, TrimSpace_ascii, Hs.
Qed.

End AsciiText.

(** ** Strings *)

Lemma str_app_assoc (a b c : string) : (a ++ b) ++ c = a ++ b ++ c.
Proof.
  induction a as [|x a IH]; [reflexivity|].
  rewrite !append_cons, IH. reflexivity.
Qed.

Lemma str_app_nil_r (a : string) : a ++ EmptyString = a.
Proof.
  induction a as [|x a IH]; [reflexivity|]. rewrite append_cons, IH. reflexivity.
Qed.

Lemma str_length_app (a b : string) :
  String.length (a ++ b) = (String.length a + String.length b)%nat.
Proof.
  induction a as [|x a IH]; [reflexivity|].
  rewrite append_cons. cbn [String.length]. rewrite IH. reflexivity.
Qed.

Lemma lacks_cons (ch x : ascii) (s : string) :
  design.lacks ch (String x s) ↔ x ≠ ch ∧ design.lacks ch s.
Proof.
  unfold design.lacks. cbn [list_ascii_of_string]. split.
  - intros H. split; [apply H; left; reflexivity|].
    intros y Hy. apply H. right. exact Hy.
  - intros [Hx Hs] y [<- | Hy]; [exact Hx|apply Hs; exact Hy].
Qed.

Lemma Index_byte (ch : ascii) (pre post : string) :
  design.lacks ch pre →
  strings.Index (pre ++ String ch post) (String ch EmptyString) = strings.len pre.
Proof. intros H. unfold strings.Index, strings.len. rewrite (index_byte ch pre post H). reflexivity. Qed.

Lemma Index_byte_absent (ch : ascii) (s : string) :
  design.lacks ch s → strings.Index s (String ch EmptyString) = -1.
Proof. intros H. unfold strings.Index. rewrite (index_byte_absent ch s H). reflexivity. Qed.

Lemma sliceFrom_app (pre : string) (ch : ascii) (post : string) :
  strings.sliceFrom (pre ++ String ch post) (strings.len pre + 1) = post.
Proof.
  unfold strings.sliceFrom, strings.len.
  replace (Z.to_nat (Z.of_nat (String.length pre) + 1)) with (S (String.length pre)) by lia.
  apply str_drop_app.
Qed.

Lemma sliceTo_app (pre post : string) :
  strings.sliceTo (pre ++ post) (strings.len pre) = pre.
Proof.
  unfold strings.sliceTo, strings.len. rewrite Nat2Z.id. apply str_take_app.
Qed.

Lemma len_nonneg (s : string) : 0 <= strings.len s.
Proof. unfold strings.len. lia. Qed.

(** ** The dialog-state parser, continued *)

Section ParserMore.
Context `{rt : GoRuntime}.

(** [ParseDialogInfo] reports unknown exactly for a body that is not a
    well-formed document or whose first element is not called
    [dialog-info]; the name space of that element plays no part. *)
Theorem ParseDialogInfo_unknown_iff_root (body : string) :
  blf.ParseDialogInfo body = blf.StateUnknown
  ↔ match xmlDocument body with
    | Some (xml.Element name _ _) => xml.Local name ≠ "dialog-info"
    | Some (xml.CharData _) => True
    | None => True
    end.
Proof.
  unfold blf.ParseDialogInfo, blf.Unmarshal_DialogInfo, blf.Unmarshal_dialogInfoNoNS.
  destruct (xmlDocument body) as [[name attr content|data]|]; [|tauto|tauto].
  cbn [blf.unmarshalDialogInfo blf.unmarshalDialogInfoNoNS].
  destruct (String.eqb_spec (xml.Local name) "dialog-info") as [E|E]; cbn [negb].
  - destruct (negb (String.eqb (xml.Space name) blf.dialogInfoNS)).
    + rewrite dialogsNoNSToState_scan. split; [|contradiction].
      intros H. exfalso. exact (scanTokens_not_unknown _ H).
    + rewrite dialogsToState_scan. split; [|contradiction].
      intros H. exfalso. exact (scanTokens_not_unknown _ H).
  - tauto.
Qed.

(** The state [handleNOTIFY] hands to the callback: the dialog-info result
    when there is one; for a body the dialog-info parser gives up on, the
    presence rule applies only if the text [dialog-info] does not occur in
    it, and then [open] means busy, [closed] without [open] means idle, and
    anything else stays unknown.  Ringing only ever comes from the
    dialog-info parser. *)
Theorem notifiedState_rule (body : string) :
  (blf.ParseDialogInfo body ≠ blf.StateUnknown →
   design.notifiedState body = blf.ParseDialogInfo body)
  ∧ (blf.ParseDialogInfo body = blf.StateUnknown →
     design.notifiedState body
     = if strings.Contains body "dialog-info" then blf.StateUnknown
       else if strings.Contains body "open" then blf.StateBusy
       else if strings.Contains body "closed" then blf.StateIdle
       else blf.StateUnknown)
  ∧ (design.notifiedState body = blf.StateRinging →
     blf.ParseDialogInfo body = blf.StateRinging).
Proof.
  unfold design.notifiedState, blf.ParsePresenceBody.
  destruct (String.eqb_spec (blf.ParseDialogInfo body) blf.StateUnknown) as [E|E].
  - rewrite E.
    assert (Hrule :
      (if strings.Contains body "dialog-info" then blf.StateUnknown
       else if strings.Contains body "closed" && negb (strings.Contains body "open")
            then blf.StateIdle
            else if strings.Contains body "open" then blf.StateBusy else blf.StateUnknown)
      = (if strings.Contains body "dialog-info" then blf.StateUnknown
         else if strings.Contains body "open" then blf.StateBusy
         else if strings.Contains body "closed" then blf.StateIdle
         else blf.StateUnknown)).
    { destruct (strings.Contains body "dialog-info"), (strings.Contains body "closed"),
        (strings.Contains body "open"); reflexivity. }
    split; [intros H; contradiction|].
    split; [intros _; exact Hrule|].
    rewrite Hrule.
    destruct (strings.Contains body "dialog-info"), (strings.Contains body "closed"),
      (strings.Contains body "open"); discriminate.
  - split; [reflexivity|]. split; [intros H; contradiction|]. tauto.
Qed.

End ParserMore.

(** ** Sub-dialogs and their effective states *)

Lemma last_cons_default {X} (x d : X) (l : list X) :
  List.last (x :: l) d = List.last l x.
Proof.
  revert x d. induction l as [|y l IH]; intros x d; [reflexivity|].
  change (List.last (x :: y :: l) d) with (List.last (y :: l) d).
  rewrite (IH y d), (IH y x). reflexivity.
Qed.

Lemma last_app_default {X} (pre l : list X) (d : X) :
  List.last (pre ++ l) d = List.last l (List.last pre d).
Proof.
  revert d. induction pre as [|x pre IH]; intros d; [reflexivity|].
  cbn [app]. rewrite !last_cons_default. apply IH.
Qed.

Lemma fieldMatches_rfc (local : string) (n : xml.Name) :
  xml.fieldMatches blf.dialogInfoNS local n = design.inSchema true local n.
Proof.
  unfold xml.fieldMatches, design.inSchema. cbn [negb orb].
  change (String.eqb blf.dialogInfoNS EmptyString) with false. cbn [orb].
  rewrite (String.eqb_sym blf.dialogInfoNS), (String.eqb_sym local). apply andb_comm.
Qed.

Lemma fieldMatches_any (local : string) (n : xml.Name) :
  xml.fieldMatches EmptyString local n = design.inSchema false local n.
Proof.
  unfold xml.fieldMatches, design.inSchema. cbn [negb orb String.eqb andb].
  rewrite andb_true_r. apply String.eqb_sym.
Qed.

Lemma dialogAttr_state (attrs : list xml.Attr) :
  ∀ d : blf.Dialog,
    blf.StateAttr (fold_left blf.dialogAttr attrs d)
    = List.last (design.attrValues "state" attrs) (blf.StateAttr d)
    ∧ blf.State_ (fold_left blf.dialogAttr attrs d) = blf.State_ d.
Proof.
  induction attrs as [|a attrs IH]; intros d; [split; reflexivity|].
  cbn [fold_left]. destruct (IH (blf.dialogAttr d a)) as [Ha Hs]. rewrite Ha, Hs.
  unfold design.attrValues. cbn [flat_map]. unfold blf.dialogAttr.
  destruct (String.eqb (xml.Local (xml.AttrName a)) "id");
    destruct (String.eqb (xml.Local (xml.AttrName a)) "state");
    destruct (String.eqb (xml.Local (xml.AttrName a)) "direction");
    cbn [app blf.StateAttr blf.State_]; rewrite ?last_cons_default; split; reflexivity.
Qed.

Lemma dialogChild_state (content : list xml.Node) :
  ∀ d : blf.Dialog,
    blf.State_ (fold_left blf.dialogChild content d)
    = List.last (design.childTexts true "state" content) (blf.State_ d)
    ∧ blf.StateAttr (fold_left blf.dialogChild content d) = blf.StateAttr d.
Proof.
  induction content as [|n content IH]; intros d; [split; reflexivity|].
  cbn [fold_left]. destruct (IH (blf.dialogChild d n)) as [Hs Ha]. rewrite Hs, Ha.
  unfold design.childTexts. cbn [flat_map]. unfold blf.dialogChild.
  destruct n as [name attr c|data]; [|split; reflexivity].
  rewrite (fieldMatches_rfc "state" name).
  destruct (design.inSchema true "state" name);
    [cbn [app blf.StateAttr blf.State_]; rewrite last_cons_default; split; reflexivity|].
  destruct (xml.fieldMatches blf.dialogInfoNS "local" name); [split; reflexivity|].
  destruct (xml.fieldMatches blf.dialogInfoNS "remote" name); split; reflexivity.
Qed.

Lemma unmarshalDialog_state (attrs : list xml.Attr) (content : list xml.Node) :
  (blf.State_ (blf.unmarshalDialog attrs content),
   blf.StateAttr (blf.unmarshalDialog attrs content))
  = (List.last (design.childTexts true "state" content) EmptyString,
     List.last (design.attrValues "state" attrs) EmptyString).
Proof.
  unfold blf.unmarshalDialog.
  destruct (dialogChild_state content (fold_left blf.dialogAttr attrs blf.zeroDialog))
    as [Hs Ha].
  destruct (dialogAttr_state attrs blf.zeroDialog) as [Ha' Hs'].
  rewrite Hs, Ha, Ha', Hs'. reflexivity.
Qed.

Lemma dialogNoNSAttr_state (attrs : list xml.Attr) :
  ∀ d : blf.dialogNoNS,
    blf.StateAttr' (fold_left blf.dialogNoNSAttr attrs d)
    = List.last (design.attrValues "state" attrs) (blf.StateAttr' d)
    ∧ blf.State' (fold_left blf.dialogNoNSAttr attrs d) = blf.State' d.
Proof.
  induction attrs as [|a attrs IH]; intros d; [split; reflexivity|].
  cbn [fold_left]. destruct (IH (blf.dialogNoNSAttr d a)) as [Ha Hs]. rewrite Ha, Hs.
  unfold design.attrValues. cbn [flat_map]. unfold blf.dialogNoNSAttr.
  destruct (String.eqb (xml.Local (xml.AttrName a)) "id");
    destruct (String.eqb (xml.Local (xml.AttrName a)) "state");
    cbn [app blf.StateAttr' blf.State']; rewrite ?last_cons_default; split; reflexivity.
Qed.

Lemma dialogNoNSChild_state (content : list xml.Node) :
  ∀ d : blf.dialogNoNS,
    blf.State' (fold_left blf.dialogNoNSChild content d)
    = List.last (design.childTexts false "state" content) (blf.State' d)
    ∧ blf.StateAttr' (fold_left blf.dialogNoNSChild content d) = blf.StateAttr' d.
Proof.
  induction content as [|n content IH]; intros d; [split; reflexivity|].
  cbn [fold_left]. destruct (IH (blf.dialogNoNSChild d n)) as [Hs Ha]. rewrite Hs, Ha.
  unfold design.childTexts. cbn [flat_map]. unfold blf.dialogNoNSChild.
  destruct n as [name attr c|data]; [|split; reflexivity].
  rewrite (fieldMatches_any "state" name).
  destruct (design.inSchema false "state" name);
    [cbn [app blf.StateAttr' blf.State']; rewrite last_cons_default|];
    split; reflexivity.
Qed.

Lemma unmarshalDialogNoNS_state (attrs : list xml.Attr) (content : list xml.Node) :
  (blf.State' (blf.unmarshalDialogNoNS attrs content),
   blf.StateAttr' (blf.unmarshalDialogNoNS attrs content))
  = (List.last (design.childTexts false "state" content) EmptyString,
     List.last (design.attrValues "state" attrs) EmptyString).
Proof.
  unfold blf.unmarshalDialogNoNS.
  destruct (dialogNoNSChild_state content
              (fold_left blf.dialogNoNSAttr attrs blf.zeroDialogNoNS)) as [Hs Ha].
  destruct (dialogNoNSAttr_state attrs blf.zeroDialogNoNS) as [Ha' Hs'].
  rewrite Hs, Ha, Ha', Hs'. reflexivity.
Qed.

Lemma dialogInfoChild_subs (content : list xml.Node) :
  ∀ ds : list blf.Dialog,
    map (fun d => (blf.State_ d, blf.StateAttr d)) (fold_left blf.dialogInfoChild content ds)
    = (map (fun d => (blf.State_ d, blf.StateAttr d)) ds
       ++ flat_map (fun n => match n with
                             | xml.Element dn attrs c =>
                                 if design.inSchema true "dialog" dn
                                 then [(List.last (design.childTexts true "state" c) EmptyString,
                                        List.last (design.attrValues "state" attrs) EmptyString)]
                                 else []
                             | xml.CharData _ => []
                             end) content)%list.
Proof.
  induction content as [|n content IH]; intros ds; [cbn; rewrite app_nil_r; reflexivity|].
  cbn [fold_left flat_map]. rewrite IH. unfold blf.dialogInfoChild at 1.
  destruct n as [dn attrs c|data]; [|reflexivity].
  rewrite (fieldMatches_rfc "dialog" dn).
  destruct (design.inSchema true "dialog" dn); [|reflexivity].
  rewrite map_app. cbn [map]. rewrite unmarshalDialog_state, <- app_assoc. reflexivity.
Qed.

Lemma dialogInfoNoNSChild_subs (content : list xml.Node) :
  ∀ ds : list blf.dialogNoNS,
    map (fun d => (blf.State' d, blf.StateAttr' d))
      (fold_left blf.dialogInfoNoNSChild content ds)
    = (map (fun d => (blf.State' d, blf.StateAttr' d)) ds
       ++ flat_map (fun n => match n with
                             | xml.Element dn attrs c =>
                                 if design.inSchema false "dialog" dn
                                 then [(List.last (design.childTexts false "state" c) EmptyString,
                                        List.last (design.attrValues "state" attrs) EmptyString)]
                                 else []
                             | xml.CharData _ => []
                             end) content)%list.
Proof.
  induction content as [|n content IH]; intros ds; [cbn; rewrite app_nil_r; reflexivity|].
  cbn [fold_left flat_map]. rewrite IH. unfold blf.dialogInfoNoNSChild at 1.
  destruct n as [dn attrs c|data]; [|reflexivity].
  rewrite (fieldMatches_any "dialog" dn).
  destruct (design.inSchema false "dialog" dn); [|reflexivity].
  rewrite map_app. cbn [map]. rewrite unmarshalDialogNoNS_state, <- app_assoc. reflexivity.
Qed.

Section SubDialogs.
Context `{rt : GoRuntime}.

(** The effective states the decoders and the two state functions of the
    parser arrive at are those of the sub-dialogs of the document. *)
Lemma effectiveStates_subDialogs (body : string) (name : xml.Name)
  (attrs : list xml.Attr) (content : list xml.Node) :
  xmlDocument body = Some (xml.Element name attrs content) →
  xml.Local name = "dialog-info" →
  design.effectiveStates body
  = Some (map (design.effectiveState (design.rfcRoot (xml.Element name attrs content)))
            (design.subDialogs (xml.Element name attrs content))).
Proof.
  intros Hdoc Hlocal.
  unfold design.effectiveStates, blf.Unmarshal_DialogInfo, blf.Unmarshal_dialogInfoNoNS.
  rewrite Hdoc. unfold blf.unmarshalDialogInfo, blf.unmarshalDialogInfoNoNS.
  rewrite Hlocal. cbn [String.eqb Ascii.eqb Bool.eqb negb].
  change (String.eqb "dialog-info" "dialog-info") with true. cbn [negb].
  unfold design.subDialogs, design.rfcRoot.
  destruct (String.eqb (xml.Space name) blf.dialogInfoNS) eqn:Ens; cbn [negb blf.Dialogs blf.Dialogs'].
  - f_equal.
    transitivity (map (design.effectiveState true)
                    (map (fun d => (blf.State_ d, blf.StateAttr d))
                       (fold_left blf.dialogInfoChild content []))).
    + rewrite map_map. apply map_ext. intros d. reflexivity.
    + rewrite (dialogInfoChild_subs content []). reflexivity.
  - f_equal.
    transitivity (map (design.effectiveState false)
                    (map (fun d => (blf.State' d, blf.StateAttr' d))
                       (fold_left blf.dialogInfoNoNSChild content []))).
    + rewrite map_map. apply map_ext. intros d. reflexivity.
    + rewrite (dialogInfoNoNSChild_subs content []). reflexivity.
Qed.

(** C2: for a document whose root is a [dialog-info] element, the parser
    scans the sub-dialogs in document order by their effective states (the
    text of the state child element, or the state attribute when that text
    is blank, compared without regard to letter case and surrounding white
    space).  The result is idle when every effective state is
    [terminated] or empty (no sub-dialog at all included); otherwise the
    first effective state that is neither decides: ringing for [trying],
    [early] and [proceeding], busy for [confirmed] and for any other
    token.  The effective states [terminated, early, confirmed] give
    ringing.  On ASCII text the effective state is the same under both
    schemas. *)
Theorem ParseDialogInfo_first_active_dialog (body : string) (name : xml.Name)
  (attrs : list xml.Attr) (content : list xml.Node) :
  xmlDocument body = Some (xml.Element name attrs content) →
  xml.Local name = "dialog-info" →
  let root := xml.Element name attrs content in
  let tokens := map (design.effectiveState (design.rfcRoot root)) (design.subDialogs root) in
  (Forall design.skippedToken tokens → blf.ParseDialogInfo body = blf.StateIdle)
  ∧ (∀ (pre : list string) (s : string) (post : list string),
       tokens = (pre ++ s :: post)%list →
       Forall design.skippedToken pre → ¬ design.skippedToken s →
       (s = "trying" ∨ s = "early" ∨ s = "proceeding" →
        blf.ParseDialogInfo body = blf.StateRinging)
       ∧ (s = "confirmed" → blf.ParseDialogInfo body = blf.StateBusy)
       ∧ (¬ (s = "trying" ∨ s = "early" ∨ s = "proceeding") →
          blf.ParseDialogInfo body = blf.StateBusy))
  ∧ (tokens = ["terminated"; "early"; "confirmed"] →
     blf.ParseDialogInfo body = blf.StateRinging)
  ∧ (tokens = [] → blf.ParseDialogInfo body = blf.StateIdle)
  ∧ (∀ (rfc : bool) (child attr : string),
       strings.isASCII child = true → strings.isASCII attr = true →
       design.effectiveState rfc (child, attr)
       = strings.ToLower
           (design.firstNonBlank (strings.TrimSpace child) (strings.TrimSpace attr))).
Proof.
  intros Hdoc Hlocal root tokens.
  pose proof (effectiveStates_subDialogs body name attrs content Hdoc Hlocal) as Hdec.
  fold root in Hdec. fold tokens in Hdec.
  rewrite (ParseDialogInfo_scan body tokens Hdec).
  split; [apply scanTokens_all_skipped|].
  split.
  { intros pre s post -> Hpre Hs.
    rewrite (scanTokens_first_active pre post s Hpre Hs).
    split; [apply activeState_ringing|].
    split; [intros ->; reflexivity|apply activeState_busy]. }
  split; [intros ->; reflexivity|].
  split; [intros ->; reflexivity|].
  intros rfc child attr Hc Ha. unfold design.effectiveState, design.firstNonBlank.
  cbn [fst snd]. destruct rfc; [reflexivity|].
  rewrite (ToLower_ascii _ Hc), (ToLower_ascii _ Ha).
  rewrite (TrimSpace_lower _ Hc), (TrimSpace_lower _ Ha), str_map_empty.
  destruct (String.eqb (strings.TrimSpace child) EmptyString).
  - symmetry. apply ToLower_ascii, TrimSpace_ascii, Ha.
  - symmetry. apply ToLower_ascii, TrimSpace_ascii, Hc.
Qed.

End SubDialogs.

Lemma ParseDialogInfo_first_active_dialog_witness :
  xmlDocument (GoRuntime := fixtures.runtime) fixtures.mixedBody = Some fixtures.mixedTree
  ∧ design.subDialogs fixtures.mixedTree
    = [(" ", "Terminated"); ("EARLY", "confirmed"); ("confirmed", EmptyString)]
  ∧ map (design.effectiveState (rt := fixtures.runtime) true)
      (design.subDialogs fixtures.mixedTree)
    = ["terminated"; "early"; "confirmed"]
  ∧ blf.ParseDialogInfo (rt := fixtures.runtime) fixtures.mixedBody = blf.StateRinging.
Proof.
  split; [reflexivity|]. split; [reflexivity|]. split; [reflexivity|].
  destruct (ParseDialogInfo_first_active_dialog (rt := fixtures.runtime) fixtures.mixedBody
              (samples.name blf.dialogInfoNS "dialog-info")
              [samples.attr "xmlns" blf.dialogInfoNS; samples.attr "entity" "sip:1001@pbx"]
              [xml.Element (samples.name blf.dialogInfoNS "dialog")
                 [samples.attr "id" "a"; samples.attr "state" "Terminated"]
                 [xml.Element (samples.name blf.dialogInfoNS "state") [] [xml.CharData " "]];
               xml.Element (samples.name blf.dialogInfoNS "dialog")
                 [samples.attr "id" "b"; samples.attr "state" "confirmed"]
                 [xml.Element (samples.name blf.dialogInfoNS "state") []
                    [xml.CharData "EARLY"]];
               samples.dialogNode blf.dialogInfoNS "c" "confirmed"]
              eq_refl eq_refl) as (_ & _ & Hthree & _).
  apply Hthree. reflexivity.
Defined.

(** ** The To header *)


Lemma indexAnyFrom_hit (chars pre : string) (t : ascii) (tail : string) (i : Z) :
  notions.lacksAny chars pre →
  strings.containsByte chars t = true →
  strings.indexAnyFrom (pre ++ String t tail) chars i = i + strings.len pre.
Proof.
  revert i. induction pre as [|x pre IH]; intros i Hl Ht.
  - change (EmptyString ++ String t tail) with (String t tail).
    cbn [strings.indexAnyFrom]. rewrite Ht. unfold strings.len. cbn. lia.
  - rewrite append_cons. cbn [strings.indexAnyFrom].
    rewrite (Hl x) by (cbn [list_ascii_of_string]; left; reflexivity).
    rewrite IH; [|intros y Hy; apply Hl; cbn [list_ascii_of_string]; right; exact Hy
                 |exact Ht].
    unfold strings.len. cbn [String.length]. lia.
Qed.

Lemma indexAnyFrom_miss (chars s : string) (i : Z) :
  notions.lacksAny chars s → strings.indexAnyFrom s chars i = -1.
Proof.
  revert i. induction s as [|x s IH]; intros i Hl; [reflexivity|].
  cbn [strings.indexAnyFrom].
  rewrite (Hl x) by (cbn [list_ascii_of_string]; left; reflexivity).
  apply IH. intros y Hy. apply Hl. cbn [list_ascii_of_string]. right. exact Hy.
Qed.

Lemma lacksAny_app (chars a b : string) :
  notions.lacksAny chars a → notions.lacksAny chars b → notions.lacksAny chars (a ++ b).
Proof.
  intros Ha Hb. induction a as [|x a IH]; [exact Hb|].
  rewrite append_cons. intros y [<- | Hy].
  - apply Ha. left. reflexivity.
  - apply IH; [|exact Hy]. intros z Hz. apply Ha. right. exact Hz.
Qed.

(** The fallback of [handleNOTIFY] on a To value of the usual shape,
    [... sip:user@host] followed by nothing, by [>] or by [;]: the user part
    is the extension, provided no colon comes before the scheme's. *)
Theorem extensionFromTo_user (name pre user hostpart ending extension : string) :
  design.lacks ":" pre →
  design.lacks "@" user → notions.lacksAny ">;" user →
  notions.lacksAny ">;" hostpart →
  (ending = EmptyString
   ∨ ∃ t tail, ending = String t tail ∧ strings.containsByte ">;" t = true) →
  sip.extensionFromTo extension
    (Some (sipmsg.NewHeader name (pre ++ ":" ++ user ++ "@" ++ hostpart ++ ending)))
  = user.
Proof.
  intros Hpre Huser Huser' Hhost Hend.
  unfold sip.extensionFromTo. cbn [sipmsg.Value].
  change (":" ++ user ++ "@" ++ hostpart ++ ending)
    with (String ":" (user ++ "@" ++ hostpart ++ ending)).
  rewrite (Index_byte ":" pre _ Hpre).
  destruct (Z.leb_spec 0 (strings.len pre)) as [_|Hneg];
    [|pose proof (len_nonneg pre); lia].
  rewrite sliceFrom_app.
  assert (Hcut :
    (if 0 <=? strings.IndexAny (user ++ "@" ++ hostpart ++ ending) ">;"
     then strings.sliceTo (user ++ "@" ++ hostpart ++ ending)
            (strings.IndexAny (user ++ "@" ++ hostpart ++ ending) ">;")
     else user ++ "@" ++ hostpart ++ ending)
    = user ++ "@" ++ hostpart).
  { assert (Hmid : notions.lacksAny ">;" (user ++ "@" ++ hostpart)).
    { apply lacksAny_app; [exact Huser'|].
      change ("@" ++ hostpart) with (String "@" hostpart).
      intros y [<- | Hy]; [reflexivity|apply Hhost; exact Hy]. }
    unfold strings.IndexAny.
    destruct Hend as [-> | (t & tail & -> & Ht)].
    - rewrite !str_app_nil_r.
      change ("@" ++ hostpart) with (String "@" hostpart) in *.
      rewrite (indexAnyFrom_miss _ _ 0 Hmid). reflexivity.
    - replace (user ++ "@" ++ hostpart ++ String t tail)
        with ((user ++ "@" ++ hostpart) ++ String t tail)
        by (rewrite !str_app_assoc; reflexivity).
      rewrite (indexAnyFrom_hit _ _ t tail 0 Hmid Ht).
      destruct (Z.leb_spec 0 (0 + strings.len (user ++ "@" ++ hostpart))) as [_|Hneg];
        [|pose proof (len_nonneg (user ++ "@" ++ hostpart)); lia].
      rewrite Z.add_0_l. apply sliceTo_app. }
  rewrite Hcut.
  change ("@" ++ hostpart) with (String "@" hostpart).
  rewrite (Index_byte "@" user hostpart Huser).
  destruct (Z.leb_spec 0 (strings.len user)) as [_|Hneg];
    [|pose proof (len_nonneg user); lia].
  apply sliceTo_app.
Qed.

(** The fallback leaves the extension as it was for a To value without a
    colon, and for one with no [@] after its first colon. *)
Theorem extensionFromTo_unchanged (name val extension : string) :
  (design.lacks ":" val
   ∨ ∃ pre rest, val = pre ++ ":" ++ rest ∧ design.lacks ":" pre ∧ design.lacks "@" rest) →
  sip.extensionFromTo extension (Some (sipmsg.NewHeader name val)) = extension.
Proof.
  intros [Hno | (pre & rest & -> & Hpre & Hrest)]; unfold sip.extensionFromTo;
    cbn [sipmsg.Value].
  - rewrite (Index_byte_absent ":" val Hno). reflexivity.
  - change (":" ++ rest) with (String ":" rest).
    rewrite (Index_byte ":" pre rest Hpre).
    destruct (Z.leb_spec 0 (strings.len pre)) as [_|Hneg];
      [|pose proof (len_nonneg pre); lia].
    rewrite sliceFrom_app.
    assert (Hat : ∀ s, design.lacks "@" s → strings.Index s "@" = -1)
      by (intros s Hs; apply (Index_byte_absent "@" s Hs)).
    destruct (0 <=? strings.IndexAny rest ">;").
    + rewrite Hat; [reflexivity|].
      intros y Hy. apply Hrest.
      clear -Hy. revert Hy.
      unfold strings.sliceTo.
      generalize (Z.to_nat (strings.IndexAny rest ">;")). intros n. revert rest.
      induction n as [|n IH]; intros rest Hy; [destruct Hy|].
      destruct rest as [|x rest]; [destruct Hy|].
      cbn [strings.str_take list_ascii_of_string] in *.
      destruct Hy as [<- | Hy]; [left; reflexivity|right; apply IH; exact Hy].
    + rewrite (Hat rest Hrest). reflexivity.
Qed.

(** ** Subscriptions, continued *)

Section SubscribeMore.
Context `{rt : GoRuntime} `{lib : SipLib} {A : Type}.
Implicit Types c : sip.Client A.
Import sipmsg.

Lemma sends_subscribeOne c ext : design.sends 2 (sip.subscribeOne c ext).
Proof.
  unfold sip.subscribeOne.
  apply (sends_bind 0 2); [apply sends_lift|intros recipient].
  apply (sends_bind 1 1); [apply sends_TransactionRequest|intros [req tx]].
  apply (sends_bind 0 1); [apply sends_getResponse|intros res].
  apply (sends_bind 1 0).
  - destruct (StatusCode res =? 401); [|apply (sends_le 0); [lia|apply sends_ret]].
    destruct (findHeader (ResHeaders res) "WWW-Authenticate");
      [|apply (sends_le 0); [lia|apply sends_fail]].
    apply (sends_bind 0 1);
      [destruct (ParseChallenge (Value h)); [apply sends_ret|apply sends_fail]|intros chal].
    apply (sends_bind 0 1);
      [match goal with |- design.sends 0 (match ?x with _ => _ end) => destruct x end;
       [apply sends_ret|apply sends_fail]|intros cred].
    apply (sends_bind 1 0); [apply sends_TransactionRequest|intros [req2 tx2]].
    apply sends_getResponse.
  - intros res'.
    destruct (negb (StatusCode res' =? 200) && negb (StatusCode res' =? 202));
      [apply sends_fail|apply sends_ret].
Qed.

(** The runs of [subscribeOne] once the address of the extension parses,
    by what the peer does. *)
Lemma subscribeOne_run c ext w recipient :
  ParseUri (notions.watched c ext) = Ok recipient →
  sip.subscribeOne c ext w =
  let final := fun (res : Response) (w0 : sip.World) =>
    if negb (StatusCode res =? 200) && negb (StatusCode res =? 202)
    then (w0, Err ("subscribe " ++ ext ++ ": " ++ strings.Itoa (StatusCode res)))
    else (w0, Ok tt) in
  let w1 := sip.mkWorld (tail (sip.outcomes w))
              (sip.sent w ++ [notions.subscribeRequest c recipient]) (sip.logs w) in
  match sip.outcomes w with
  | SendFails e :: _ => (w1, Err e)
  | [] | Dies :: _ => (w1, Err "transaction died")
  | Replies res :: _ =>
      if StatusCode res =? 401 then
        match findHeader (ResHeaders res) "WWW-Authenticate" with
        | None => (w1, Err ("subscribe " ++ ext ++ ": 401 without WWW-Authenticate"))
        | Some h =>
            match ParseChallenge (Value h) with
            | Err e => (w1, Err ("subscribe " ++ ext ++ ": parse challenge: " ++ e))
            | Ok chal =>
                match Digest chal (notions.subscribeOptions c recipient) with
                | Err e => (w1, Err ("subscribe " ++ ext ++ ": digest: " ++ e))
                | Ok cred =>
                    let w2 := sip.mkWorld (tail (sip.outcomes w1))
                                (sip.sent w1 ++ [notions.subscribeRetry c recipient cred])
                                (sip.logs w) in
                    match sip.outcomes w1 with
                    | SendFails e :: _ => (w2, Err e)
                    | [] | Dies :: _ => (w2, Err "transaction died")
                    | Replies res2 :: _ => final res2 w2
                    end
                end
            end
        end
      else final res w1
  end.
Proof.
  intros Huri. unfold notions.watched in Huri.
  unfold sip.subscribeOne, sip.bind, sip.lift, sip.TransactionRequest, sip.getResponse,
    sip.ret, sip.fail.
  rewrite Huri. cbv beta zeta.
  change (sip.applyOptions [ClientRequestBuild; ClientRequestAddVia] _)
    with (Ok (notions.subscribeRequest c recipient)).
  cbv beta iota.
  destruct (sip.outcomes w) as [|[e| |res] rest]; try reflexivity.
  cbv beta iota.
  destruct (StatusCode res =? 401).
  2: { destruct (negb (StatusCode res =? 200) && negb (StatusCode res =? 202));
       reflexivity. }
  destruct (findHeader (ResHeaders res) "WWW-Authenticate") as [h|]; [|reflexivity].
  destruct (ParseChallenge (Value h)) as [chal|e]; [|reflexivity].
  cbv beta iota.
  change (Digest chal _) with (Digest chal (notions.subscribeOptions c recipient)).
  destruct (Digest chal (notions.subscribeOptions c recipient)) as [cred|e]; [|reflexivity].
  cbv beta iota.
  change (sip.applyOptions [ClientRequestIncreaseCSEQ; ClientRequestAddVia] _)
    with (Ok (notions.subscribeRetry c recipient cred)).
  cbn [sip.outcomes sip.sent sip.logs tail].
  destruct rest as [|[e| |res2] rest']; try reflexivity.
  cbv beta iota.
  destruct (negb (StatusCode res2 =? 200) && negb (StatusCode res2 =? 202)); reflexivity.
Qed.

End SubscribeMore.

(** ** Substrings *)

Lemma index_step (sub : string) (c : ascii) (s : string) :
  String.index 0 sub (String c s)
  = if String.prefix sub (String c s) then Some 0%nat
    else match String.index 0 sub s with
         | Some n => Some (S n)
         | None => None
         end.
Proof. reflexivity. Qed.

Lemma prefix_app (sub s y : string) :
  String.prefix sub s = true → String.prefix sub (s ++ y) = true.
Proof.
  revert s. induction sub as [|a sub IH]; intros s H;
    [destruct (s ++ y); reflexivity|].
  destruct s as [|b s]; [discriminate|].
  rewrite append_cons. cbn [String.prefix] in *.
  destruct (ascii_dec a b); [apply IH; exact H|discriminate].
Qed.

Lemma index_app_r (sub s y : string) :
  is_Some (String.index 0 sub s) → is_Some (String.index 0 sub (s ++ y)).
Proof.
  induction s as [|c s IH]; intros H.
  - destruct sub as [|a sub]; [|destruct H as [n H]; discriminate].
    change (EmptyString ++ y) with y. destruct y; eexists; reflexivity.
  - rewrite append_cons, index_step. rewrite index_step in H.
    destruct (String.prefix sub (String c s)) eqn:P.
    + rewrite <- append_cons, (prefix_app _ _ y P). eexists; reflexivity.
    + destruct (String.prefix sub (String c (s ++ y))); [eexists; reflexivity|].
      destruct (String.index 0 sub s) as [n|]; [|destruct H as [n H]; discriminate].
      destruct IH as [m ->]; [eexists; reflexivity|]. eexists; reflexivity.
Qed.

Lemma index_app_l (sub x s : string) :
  is_Some (String.index 0 sub s) → is_Some (String.index 0 sub (x ++ s)).
Proof.
  intros H. induction x as [|c x IH]; [exact H|].
  rewrite append_cons, index_step.
  destruct (String.prefix sub (String c (x ++ s))); [eexists; reflexivity|].
  destruct IH as [m ->]. eexists; reflexivity.
Qed.

Lemma Contains_is_Some (s sub : string) :
  strings.Contains s sub = true ↔ is_Some (String.index 0 sub s).
Proof.
  unfold strings.Contains, strings.Index.
  destruct (String.index 0 sub s) as [n|]; split; intros H.
  - eexists; reflexivity.
  - apply Z.leb_le. lia.
  - discriminate.
  - destruct H as [n H]; discriminate.
Qed.

(** A text contains what a part of it contains. *)
Lemma Contains_middle (x s y sub : string) :
  strings.Contains s sub = true → strings.Contains (x ++ s ++ y) sub = true.
Proof.
  rewrite !Contains_is_Some. intros H. apply index_app_l, index_app_r, H.
Qed.

Section SubscribeRules.
Context `{rt : GoRuntime} `{lib : SipLib} {A : Type}.
Implicit Types c : sip.Client A.
Import sipmsg.

Lemma subscribeOne_logs c ext w :
  sip.logs (fst (sip.subscribeOne c ext w)) = sip.logs w.
Proof.
  pose proof (logFree_subscribeOne c ext w (sip.logs w)) as H.
  replace (design.setLogs (sip.logs w) w) with w in H by (destruct w; reflexivity).
  rewrite H. reflexivity.
Qed.

(** [subscribeOne] follows the retry rule of [Register]: at most two
    requests and no log record; on a 401 whose challenge parses the request
    goes out a second time with the credential and the next sequence
    number, and the second outcome is final; otherwise the first status
    decides; success is 200 or 202, and every failure that [subscribeOne]
    words itself names the extension.  The first request carries two Via
    headers, and so does the second: only the first Via header is removed
    before the new one is added, so one of the first request stays. *)
Theorem subscribeOne_retry_rule c (ext : string) (w : sip.World) (recipient : Uri) :
  ParseUri (notions.watched c ext) = Ok recipient →
  (length (sip.sent (fst (sip.subscribeOne c ext w))) ≤ length (sip.sent w) + 2)%nat
  ∧ sip.logs (fst (sip.subscribeOne c ext w)) = sip.logs w
  ∧ (∀ res1 o2 rest h chal cred,
       sip.outcomes w = Replies res1 :: o2 :: rest →
       StatusCode res1 = 401 →
       findHeader (ResHeaders res1) "WWW-Authenticate" = Some h →
       ParseChallenge (Value h) = Ok chal →
       Digest chal (notions.subscribeOptions c recipient) = Ok cred →
       sip.sent (fst (sip.subscribeOne c ext w))
       = (sip.sent w ++ [notions.subscribeRequest c recipient;
                         notions.subscribeRetry c recipient cred])%list
       ∧ sip.outcomes (fst (sip.subscribeOne c ext w)) = rest
       ∧ CSeq (notions.subscribeRequest c recipient) = Some firstSeqNo
       ∧ CSeq (notions.subscribeRetry c recipient cred) = Some (firstSeqNo + 1)
       ∧ findHeader (Headers (notions.subscribeRetry c recipient cred)) "Authorization"
         = Some (NewHeader "Authorization" (CredentialsString cred))
       ∧ design.viaCount (notions.subscribeRequest c recipient) = 2%nat
       ∧ design.viaCount (notions.subscribeRetry c recipient cred) = 2%nat
       ∧ (∃ stale, In stale (Headers (notions.subscribeRequest c recipient))
                   ∧ Name stale = "Via"
                   ∧ In stale (Headers (notions.subscribeRetry c recipient cred)))
       ∧ match o2 with
         | Replies res2 =>
             (StatusCode res2 = 200 ∨ StatusCode res2 = 202 →
              snd (sip.subscribeOne c ext w) = Ok tt)
             ∧ (StatusCode res2 ≠ 200 → StatusCode res2 ≠ 202 →
                snd (sip.subscribeOne c ext w)
                = Err ("subscribe " ++ ext ++ ": " ++ strings.Itoa (StatusCode res2)))
         | Dies => snd (sip.subscribeOne c ext w) = Err "transaction died"
         | SendFails e => snd (sip.subscribeOne c ext w) = Err e
         end)
  ∧ (∀ res1 rest,
       sip.outcomes w = Replies res1 :: rest →
       StatusCode res1 ≠ 401 →
       sip.sent (fst (sip.subscribeOne c ext w))
       = (sip.sent w ++ [notions.subscribeRequest c recipient])%list
       ∧ (StatusCode res1 = 200 ∨ StatusCode res1 = 202 →
          snd (sip.subscribeOne c ext w) = Ok tt)
       ∧ (StatusCode res1 ≠ 200 → StatusCode res1 ≠ 202 →
          snd (sip.subscribeOne c ext w)
          = Err ("subscribe " ++ ext ++ ": " ++ strings.Itoa (StatusCode res1))))
  ∧ (∀ res1 rest,
       sip.outcomes w = Replies res1 :: rest →
       StatusCode res1 = 401 →
       findHeader (ResHeaders res1) "WWW-Authenticate" = None →
       snd (sip.subscribeOne c ext w)
       = Err ("subscribe " ++ ext ++ ": 401 without WWW-Authenticate")
       ∧ sip.sent (fst (sip.subscribeOne c ext w))
         = (sip.sent w ++ [notions.subscribeRequest c recipient])%list).
Proof.
  intros Huri.
  split; [apply sends_subscribeOne|].
  split; [apply subscribeOne_logs|].
  rewrite (subscribeOne_run c ext w recipient Huri). cbv zeta.
  split.
  { intros res1 o2 rest h chal cred Hout H401 Hh Hchal Hcred.
    assert (Hstale : ∃ stale, In stale (Headers (notions.subscribeRequest c recipient))
                              ∧ Name stale = "Via"
                              ∧ In stale (Headers (notions.subscribeRetry c recipient cred))).
    { exists (NewHeader "Via" (viaValue (notions.subscribeDraft c recipient))).
      split; [right; left; reflexivity|]. split; [reflexivity|right; left; reflexivity]. }
    rewrite Hout, H401. change (401 =? 401) with true. cbv iota.
    rewrite Hh, Hchal, Hcred. cbn [sip.outcomes sip.sent tail].
    rewrite <- app_assoc. cbn [app].
    destruct o2 as [e| |res2]; cbn [fst snd sip.sent sip.outcomes];
      [repeat match goal with |- _ ∧ _ => split end;
       first [reflexivity | exact Hstale]..|].
    destruct (negb (StatusCode res2 =? 200) && negb (StatusCode res2 =? 202)) eqn:E;
      cbn [fst snd sip.sent sip.outcomes];
      repeat match goal with |- _ ∧ _ => split end;
      try reflexivity; try exact Hstale.
    - intros Hs. rewrite (final_status_success _ Hs) in E. discriminate.
    - intros H1 H2. rewrite (final_status_failure _ H1 H2) in E. discriminate. }
  split.
  { intros res1 rest Hout H401. rewrite Hout.
    destruct (Z.eqb_spec (StatusCode res1) 401) as [E|_]; [contradiction|].
    destruct (negb (StatusCode res1 =? 200) && negb (StatusCode res1 =? 202)) eqn:E;
      cbn [fst snd sip.sent sip.outcomes].
    - repeat split; try reflexivity.
      intros Hs. rewrite (final_status_success _ Hs) in E. discriminate.
    - repeat split; try reflexivity.
      intros H1 H2. rewrite (final_status_failure _ H1 H2) in E. discriminate. }
  intros res1 rest Hout H401 Hh.
  rewrite Hout, H401. change (401 =? 401) with true. cbv iota. rewrite Hh.
  split; reflexivity.
Qed.

Lemma subscribeOne_sent c (ext : string) (w : sip.World) (recipient : Uri) :
  ParseUri (notions.watched c ext) = Ok recipient →
  sip.sent (fst (sip.subscribeOne c ext w))
  = (sip.sent w ++ [notions.subscribeRequest c recipient])%list
  ∨ ∃ cred,
      sip.sent (fst (sip.subscribeOne c ext w))
      = (sip.sent w ++ [notions.subscribeRequest c recipient;
                        notions.subscribeRetry c recipient cred])%list.
Proof.
  intros Huri. rewrite (subscribeOne_run c ext w recipient Huri). cbv zeta.
  destruct (sip.outcomes w) as [|[e| |res] rest]; try (left; reflexivity).
  destruct (StatusCode res =? 401).
  2: { destruct (negb (StatusCode res =? 200) && negb (StatusCode res =? 202));
       left; reflexivity. }
  destruct (findHeader (ResHeaders res) "WWW-Authenticate") as [h|]; [|left; reflexivity].
  destruct (ParseChallenge (Value h)) as [chal|e]; [|left; reflexivity].
  destruct (Digest chal (notions.subscribeOptions c recipient)) as [cred|e];
    [|left; reflexivity].
  right. exists cred. cbn [sip.outcomes sip.sent tail].
  destruct rest as [|[e| |res2] rest']; cbn [fst sip.sent];
    try (rewrite <- app_assoc; reflexivity).
  destruct (negb (StatusCode res2 =? 200) && negb (StatusCode res2 =? 202));
    cbn [fst sip.sent]; rewrite <- app_assoc; reflexivity.
Qed.

(** What [subscribeOne] puts on the wire: every request it hands to the
    transaction layer is a SUBSCRIBE to the extension's address for the
    dialog event package, with an expiry of 3600 seconds, accepting
    dialog-info bodies, over the configured transport in upper case. *)
Theorem subscribeOne_requests c (ext : string) (w : sip.World) (recipient : Uri) :
  ParseUri (notions.watched c ext) = Ok recipient →
  ∃ new : list Request,
    sip.sent (fst (sip.subscribeOne c ext w)) = (sip.sent w ++ new)%list
    ∧ new ≠ []
    ∧ ∀ req, In req new →
        Method req = "SUBSCRIBE"
        ∧ Recipient req = recipient
        ∧ findHeader (Headers req) "Event" = Some (NewHeader "Event" "dialog")
        ∧ findHeader (Headers req) "Expires" = Some (NewHeader "Expires" "3600")
        ∧ findHeader (Headers req) "Accept"
          = Some (NewHeader "Accept" "application/dialog-info+xml")
        ∧ Transport req = strings.ToUpper (sip.Transport (sip.cfg c)).
Proof.
  intros Huri.
  destruct (subscribeOne_sent c ext w recipient Huri) as [Hs | [cred Hs]].
  - exists [notions.subscribeRequest c recipient].
    split; [exact Hs|]. split; [discriminate|].
    intros req [<- | []]. repeat split; reflexivity.
  - exists [notions.subscribeRequest c recipient; notions.subscribeRetry c recipient cred].
    split; [exact Hs|]. split; [discriminate|].
    intros req [<- | [<- | []]]; repeat split; reflexivity.
Qed.

End SubscribeRules.

Section SubscribeReport.
Context `{rt : GoRuntime} `{lib : SipLib} {A : Type}.
Implicit Types c : sip.Client A.
Import sipmsg.

Lemma subscribeLoop_sent c (exts failed : list string) (w : sip.World) :
  (length (sip.sent (fst (sip.subscribeLoop c exts failed w)))
   ≤ length (sip.sent w) + 2 * length exts)%nat.
Proof.
  revert failed w. induction exts as [|ext rest IH]; intros failed w; [cbn; lia|].
  cbn [sip.subscribeLoop length].
  pose proof (sends_subscribeOne c ext w) as Hs.
  destruct (sip.subscribeOne c ext w) as [w1 [[]|err]]; cbn [fst] in Hs.
  - match goal with |- context [sip.subscribeLoop c rest failed ?w2] =>
      specialize (IH failed w2) end.
    cbn [sip.logAt sip.sent] in IH. lia.
  - match goal with |- context [sip.subscribeLoop c rest ?f ?w2] =>
      specialize (IH f w2) end.
    destruct (strings.Contains err "404"); cbn [sip.logAt sip.sent] in IH; lia.
Qed.

(** [Subscribe] hands at most two requests per configured extension to the
    transaction layer. *)
Theorem Subscribe_request_bound c (w : sip.World) :
  (length (sip.sent (fst (sip.Subscribe c w)))
   ≤ length (sip.sent w) + 2 * length (sip.extensions c))%nat.
Proof.
  unfold sip.Subscribe.
  pose proof (subscribeLoop_sent c (sip.extensions c) [] w) as H.
  destruct (sip.subscribeLoop c (sip.extensions c) [] w) as [w1 failed]. cbn [fst] in H.
  destruct (Z.of_nat (length failed) =? Z.of_nat (length (sip.extensions c)));
    [exact H|].
  destruct (Z.of_nat (length failed) >? 0); cbn [fst sip.logAt sip.sent]; exact H.
Qed.

Lemma subscribeLoop_logs c (exts failed : list string) (w : sip.World) :
  sip.logs (fst (sip.subscribeLoop c exts failed w))
  = (sip.logs w ++ map notions.attemptRecord (design.attemptEach c exts w))%list.
Proof.
  revert failed w. induction exts as [|ext rest IH]; intros failed w.
  - cbn. symmetry. apply app_nil_r.
  - cbn [sip.subscribeLoop design.attemptEach].
    pose proof (subscribeOne_logs c ext w) as Hl.
    destruct (sip.subscribeOne c ext w) as [w1 [[]|err]]; cbn [fst] in Hl.
    + rewrite IH.
      change (sip.logAt ?l ?m ?a w1)
        with (design.setLogs (sip.logs w1 ++ [slog.mkEntry l m a]) w1).
      rewrite attemptEach_setLogs. cbn [design.setLogs sip.logs map notions.attemptRecord].
      rewrite Hl, <- app_assoc. reflexivity.
    + rewrite IH. cbn [map notions.attemptRecord].
      destruct (strings.Contains err "404");
        change (sip.logAt ?l ?m ?a w1)
          with (design.setLogs (sip.logs w1 ++ [slog.mkEntry l m a]) w1);
        rewrite attemptEach_setLogs; cbn [design.setLogs sip.logs];
        rewrite Hl, <- app_assoc; reflexivity.
Qed.

Lemma failedOf_all_eq (attempts : list (string * result unit)) :
  Forall (fun a => design.isErr (snd a) = true) attempts →
  design.failedOf attempts = map fst attempts.
Proof.
  induction 1 as [|a rest Ha _ IH]; [reflexivity|].
  unfold design.failedOf in *. cbn [List.filter]. rewrite Ha. cbn [map]. rewrite IH.
  reflexivity.
Qed.

(** The log [Subscribe] leaves behind. *)
Lemma Subscribe_logs c (w : sip.World) :
  let attempts := design.attemptEach c (sip.extensions c) w in
  let failed := design.failedOf attempts in
  sip.logs (fst (sip.Subscribe c w))
  = (sip.logs w ++ map notions.attemptRecord attempts
     ++ (if (length failed =? length (sip.extensions c))%nat || (length failed =? 0)%nat
         then []
         else [slog.mkEntry slog.LevelWarn "some extensions could not be subscribed"
                 [("failed", slog.Strings_ failed)]]))%list.
Proof.
  intros attempts failed.
  pose proof (Subscribe_result c w) as Hrun. cbv zeta in Hrun.
  fold attempts in Hrun. fold failed in Hrun.
  pose proof (subscribeLoop_logs c (sip.extensions c) [] w) as Hlogs.
  fold attempts in Hlogs.
  rewrite Hrun.
  destruct (Z.eqb_spec (Z.of_nat (length failed)) (Z.of_nat (length (sip.extensions c))))
    as [E|E]; cbn [fst].
  - apply Nat2Z.inj in E. rewrite E, Nat.eqb_refl. cbn [orb].
    rewrite app_nil_r. exact Hlogs.
  - destruct (Nat.eqb_spec (length failed) (length (sip.extensions c))) as [E'|_];
      [rewrite E' in E; contradiction|]. cbn [orb].
    destruct (Nat.eqb_spec (length failed) 0) as [E0|E0].
    + rewrite E0. cbn [Z.of_nat Z.gtb Z.compare]. rewrite app_nil_r. exact Hlogs.
    + replace (Z.of_nat (length failed) >? 0) with true
        by (symmetry; apply Z.gtb_lt; lia).
      cbn [sip.logAt sip.logs]. rewrite Hlogs, <- app_assoc. reflexivity.
Qed.

(** The report of [Subscribe]: one log record per configured extension, in
    order, each for that extension's own attempt, followed by the summary
    warning exactly when some but not all attempts failed; and when every
    attempt failed the returned error lists all configured extensions. *)
Theorem Subscribe_report c (w : sip.World) :
  let attempts := design.attemptEach c (sip.extensions c) w in
  let failed := design.failedOf attempts in
  sip.logs (fst (sip.Subscribe c w))
  = (sip.logs w ++ map notions.attemptRecord attempts
     ++ (if (length failed =? length (sip.extensions c))%nat || (length failed =? 0)%nat
         then []
         else [slog.mkEntry slog.LevelWarn "some extensions could not be subscribed"
                 [("failed", slog.Strings_ failed)]]))%list
  ∧ length (map notions.attemptRecord attempts) = length (sip.extensions c)
  ∧ (Forall (fun a => design.isErr (snd a) = true) attempts →
     snd (sip.Subscribe c w) = Err (sip.allFailedMessage (sip.extensions c))).
Proof.
  intros attempts failed.
  pose proof (Subscribe_result c w) as Hrun. cbv zeta in Hrun.
  fold attempts in Hrun. fold failed in Hrun.
  split; [apply Subscribe_logs|split].
  - rewrite length_map. unfold attempts.
    rewrite <- (attemptEach_extensions c (sip.extensions c) w) at 2.
    symmetry. apply length_map.
  - intros Hall. rewrite Hrun.
    assert (Hf : failed = sip.extensions c).
    { unfold failed. rewrite (failedOf_all_eq _ Hall). apply attemptEach_extensions. }
    rewrite Hf, Z.eqb_refl. reflexivity.
Qed.

(** The 404 test of [Subscribe] reads the text of the error: an attempt
    that [subscribeOne] fails with its own message is reported with the 404
    warning as soon as the status, or the extension itself, contains 404. *)
Theorem Subscribe_404_warning c (w : sip.World) (i : nat) (ext tail : string) :
  design.attemptEach c (sip.extensions c) w !! i
  = Some (ext, Err ("subscribe " ++ ext ++ ": " ++ tail)) →
  strings.Contains tail "404" = true ∨ strings.Contains ext "404" = true →
  sip.logs (fst (sip.Subscribe c w)) !! (length (sip.logs w) + i)%nat
  = Some (slog.mkEntry slog.LevelWarn "subscribe 404 (extension may lack BLF hint on PBX)"
            [("extension", slog.String_ ext);
             ("hint", slog.String_ "See README or FreePBX dialplan hints / res_pjsip allow_subscribe")]).
Proof.
  intros Hi Hc.
  pose proof (Subscribe_logs c w) as Hlogs. cbv zeta in Hlogs.
  rewrite Hlogs.
  rewrite lookup_app_r by lia.
  replace (length (sip.logs w) + i - length (sip.logs w))%nat with i by lia.
  rewrite lookup_app_l.
  2: { rewrite length_map. apply lookup_lt_Some in Hi. exact Hi. }
  rewrite list_lookup_fmap, Hi. cbn [fmap option_fmap option_map notions.attemptRecord].
  assert (Hin : strings.Contains ("subscribe " ++ ext ++ ": " ++ tail) "404" = true).
  { destruct Hc as [Ht | He].
    - replace ("subscribe " ++ ext ++ ": " ++ tail)
        with (("subscribe " ++ ext ++ ": ") ++ tail ++ EmptyString)
        by (rewrite str_app_nil_r, !str_app_assoc; reflexivity).
      apply Contains_middle. exact Ht.
    - apply Contains_middle. exact He. }
  rewrite Hin. reflexivity.
Qed.

End SubscribeReport.

(** ** The publisher, continued *)

Section PublisherMore.
Context `{glib : GraphLib}.
Variable svc : graph.Service.
Implicit Types c : graph.Client.

(** A publication that goes through: [SetPresence] returns nil after
    exactly one post, addressed to the resolved object id (not to the
    sign-in name), carrying the application id as session id, the
    availability and activity as given, and the duration parsed from
    [PT1H]. *)
Theorem SetPresence_success c (userID extension availability activity objectID : string)
  (dur : ISODuration) :
  snd (graph.resolveUserID svc userID c) = Ok objectID →
  ParseISODuration "PT1H" = Ok dur →
  let c1 := fst (graph.resolveUserID svc userID c) in
  let body := graph.mkPresenceBody (graph.clientID c) availability activity dur in
  graph.post svc (graph.graph c1) objectID body = None →
  let r := graph.SetPresence svc userID extension availability activity c in
  snd r = None
  ∧ graph.graph (fst r) = (graph.graph c1 ++ [graph.PresencePost objectID body])%list
  ∧ graph.userIDCache (fst r) !! userID = Some objectID.
Proof.
  intros Hok Hdur c1 body Hpost r. change "PT1H" with graph.expiration in Hdur.
  destruct (SetPresence_run svc c userID extension availability activity) as [Hcache Hrun].
  fold c1 in Hcache, Hrun. fold r in Hcache, Hrun.
  rewrite Hok, Hdur in Hrun. cbv zeta in Hrun. fold body in Hrun.
  destruct Hrun as [Hg Hr].
  split; [congruence|]. split; [exact Hg|].
  rewrite Hcache. apply resolveUserID_success_cached. exact Hok.
Qed.

Lemma SetPresence_posts c (userID extension availability activity objectID : string)
  (dur : ISODuration) :
  graph.userIDCache c !! userID = Some objectID →
  ParseISODuration graph.expiration = Ok dur →
  let r := graph.SetPresence svc userID extension availability activity c in
  graph.presencePosts (graph.graph (fst r)) = S (graph.presencePosts (graph.graph c))
  ∧ graph.userIDCache (fst r) !! userID = Some objectID
  ∧ graph.lookups userID (graph.graph (fst r)) = graph.lookups userID (graph.graph c).
Proof.
  intros Hc Hdur r.
  destruct (SetPresence_keeps svc c userID objectID userID extension availability activity Hc)
    as [Hk Hl]. fold r in Hk, Hl.
  split; [|split; assumption].
  destruct (SetPresence_run svc c userID extension availability activity) as [_ Hrun].
  fold r in Hrun.
  rewrite (resolveUserID_hit svc c userID objectID Hc) in Hrun. cbn [fst snd] in Hrun.
  rewrite Hdur in Hrun. cbv zeta in Hrun. destruct Hrun as [-> _].
  rewrite presencePosts_snoc. lia.
Qed.

Lemma publishes_cached (updates : list (string * string * string)) c
  (userID objectID : string) (dur : ISODuration) :
  graph.userIDCache c !! userID = Some objectID →
  ParseISODuration graph.expiration = Ok dur →
  let c' := design.runOps svc (publishing.publishes userID updates) c in
  graph.presencePosts (graph.graph c')
  = (graph.presencePosts (graph.graph c) + length updates)%nat
  ∧ graph.lookups userID (graph.graph c') = graph.lookups userID (graph.graph c).
Proof.
  revert c. induction updates as [|[[e av] ac] rest IH]; intros c Hc Hdur.
  - cbn. split; [lia|reflexivity].
  - cbn [publishing.publishes map design.runOps fst snd length].
    destruct (SetPresence_posts c userID e av ac objectID dur Hc Hdur) as (Hp & Hk & Hl).
    destruct (IH _ Hk Hdur) as [Hp' Hl'].
    unfold publishing.publishes in Hp', Hl'. cbv zeta in Hp', Hl'.
    rewrite Hp', Hl', Hp, Hl. split; [lia|reflexivity].
Qed.

(** Publishing any number of times for a user whose first resolution
    succeeds costs one directory lookup and one post per publication. *)
Theorem publishes_one_lookup c (userID objectID : string) (dur : ISODuration)
  (update : string * string * string) (updates : list (string * string * string)) :
  graph.userIDCache c !! userID = None →
  snd (graph.resolveUserID svc userID c) = Ok objectID →
  ParseISODuration "PT1H" = Ok dur →
  let c' := design.runOps svc (publishing.publishes userID (update :: updates)) c in
  graph.lookups userID (graph.graph c') = S (graph.lookups userID (graph.graph c))
  ∧ graph.presencePosts (graph.graph c')
    = (graph.presencePosts (graph.graph c) + S (length updates))%nat.
Proof.
  intros Hmiss Hok Hdur. change "PT1H" with graph.expiration in Hdur.
  destruct update as [[e av] ac].
  cbn [publishing.publishes map design.runOps fst snd].
  set (r := graph.SetPresence svc userID e av ac c).
  destruct (SetPresence_run svc c userID e av ac) as [Hcache Hrun]. fold r in Hcache, Hrun.
  rewrite Hok, Hdur in Hrun. cbv zeta in Hrun. destruct Hrun as [Hg _].
  destruct (resolveUserID_miss svc c userID Hmiss) as (Hg1 & _ & _).
  assert (Hk : graph.userIDCache (fst r) !! userID = Some objectID).
  { rewrite Hcache. apply resolveUserID_success_cached. exact Hok. }
  destruct (publishes_cached updates (fst r) userID objectID dur Hk Hdur) as [Hp Hl].
  unfold publishing.publishes in Hp, Hl. cbv zeta in Hp, Hl.
  rewrite Hp, Hl, Hg, Hg1.
  rewrite lookups_snoc, lookups_snoc, presencePosts_snoc, presencePosts_snoc.
  rewrite String.eqb_refl. split; lia.
Qed.

End PublisherMore.

(** ** Address discovery *)

Section Discovery.
Context `{rt : GoRuntime}.
Variable net : stun.Network.

Lemma logAt_probed log l m a w : stun.probed (stun.logAt log l m a w) = stun.probed w.
Proof. destruct log; reflexivity. Qed.

(** The loop when every probe up to some address fails and that address
    answers: it returns from inside, having probed no further. *)
Lemma discoverLoop_success (log : option stun.Logger) (servers : list string) :
  ∀ (lastErr : option error) (tried : list string) (w : stun.World)
    (fails later : list (string * stun.ProbeOutcome)) (addr ip : string) (port : Z),
    discovery.probeAll net (stun.probed w) (discovery.candidates servers)
    = (fails ++ (addr, stun.Mapped ip port) :: later)%list →
    Forall (fun a => discovery.probeError (snd a) ≠ None) fails →
    snd (stun.discoverLoop net log servers lastErr tried w) = inl (ip, port)
    ∧ stun.probed (fst (stun.discoverLoop net log servers lastErr tried w))
      = (stun.probed w ++ map fst fails ++ [addr])%list.
Proof.
  induction servers as [|srv rest IH]; intros lastErr tried w fails later addr ip port Hall Hf.
  - destruct fails; discriminate.
  - cbn [stun.discoverLoop]. unfold discovery.candidates in *. cbn [map List.filter] in Hall.
    destruct (String.eqb (strings.TrimSpace srv) EmptyString); cbn [negb] in Hall.
    + apply (IH lastErr tried w fails later addr ip port Hall Hf).
    + cbn [map discovery.probeAll] in Hall. unfold stun.discoverOne.
      destruct fails as [|[a o] fails].
      * cbn [app] in Hall. injection Hall as Ha Ho _. rewrite Ho. cbn [fst snd].
        rewrite logAt_probed. cbn [stun.probed map app]. rewrite Ha. split; reflexivity.
      * cbn [app] in Hall. injection Hall as Ha Ho Hrest.
        inversion Hf as [|? ? Hfail Hf']; subst. cbn [snd] in Hfail.
        set (addr0 := stun.normalizeSTUNAddr (strings.TrimSpace srv)) in *.
        destruct (stun.probe net (stun.probed w) addr0) as [e|e| |ip0 port0] eqn:Ep;
          cbn [discovery.probeError] in Hfail; try contradiction;
          match goal with
          | |- context [stun.discoverLoop net log rest ?le ?tr ?w2] =>
              destruct (IH le tr w2 fails later addr ip port) as [Hr Hp];
                [rewrite logAt_probed; exact Hrest|exact Hf'|];
                rewrite Hr, Hp, logAt_probed; cbn [stun.probed map fst];
                rewrite <- app_assoc; split; reflexivity
          end.
Qed.

(** The loop when every probe fails: it ends having probed every candidate,
    with one entry per candidate in the list of tried servers. *)
Lemma discoverLoop_failure (log : option stun.Logger) (servers : list string) :
  ∀ (lastErr : option error) (tried : list string) (w : stun.World),
    Forall (fun a => discovery.probeError (snd a) ≠ None)
      (discovery.probeAll net (stun.probed w) (discovery.candidates servers)) →
    ∃ lastErr',
      snd (stun.discoverLoop net log servers lastErr tried w)
      = inr (lastErr',
             (tried ++ map discovery.report
                         (discovery.probeAll net (stun.probed w)
                            (discovery.candidates servers)))%list)
      ∧ stun.probed (fst (stun.discoverLoop net log servers lastErr tried w))
        = (stun.probed w ++ discovery.candidates servers)%list.
Proof.
  induction servers as [|srv rest IH]; intros lastErr tried w Hf.
  - exists lastErr. cbn. rewrite !app_nil_r. split; reflexivity.
  - cbn [stun.discoverLoop]. unfold discovery.candidates in *. cbn [map List.filter] in *.
    destruct (String.eqb (strings.TrimSpace srv) EmptyString); cbn [negb] in *.
    + apply (IH lastErr tried w Hf).
    + cbn [map discovery.probeAll] in *. unfold stun.discoverOne.
      inversion Hf as [|? ? Hfail Hf']; subst. cbn [snd] in Hfail.
      set (addr0 := stun.normalizeSTUNAddr (strings.TrimSpace srv)) in *.
      unfold discovery.report at 1. cbn [fst snd].
      destruct (stun.probe net (stun.probed w) addr0) as [e|e| |ip0 port0] eqn:Ep;
        cbn [discovery.probeError] in Hfail; try contradiction;
        cbn [discovery.probeError default];
        match goal with
        | |- context [stun.discoverLoop net log rest ?le ?tr ?w2] =>
            destruct (IH le tr w2) as (lastErr' & Hr & Hp);
              [rewrite logAt_probed; exact Hf'|];
              exists lastErr'; rewrite Hr, Hp, !logAt_probed; cbn [stun.probed];
              rewrite <- !app_assoc; split; reflexivity
        end.
Qed.

(** The first server that answers wins: when, probing the configured
    servers in order, every probe before some address fails and that
    address yields a mapped address, [DiscoverPublicAddress] returns that
    address and has probed exactly the servers up to it, blank entries
    apart; the servers after it are never contacted. *)
Theorem DiscoverPublicAddress_first_answer (servers : list string)
  (log : option stun.Logger) (w : stun.World)
  (fails later : list (string * stun.ProbeOutcome)) (addr ip : string) (port : Z) :
  discovery.probeAll net (stun.probed w) (discovery.candidates servers)
  = (fails ++ (addr, stun.Mapped ip port) :: later)%list →
  Forall (fun a => discovery.probeError (snd a) ≠ None) fails →
  snd (stun.DiscoverPublicAddress net servers log w) = Ok (ip, port)
  ∧ stun.probed (fst (stun.DiscoverPublicAddress net servers log w))
    = (stun.probed w ++ map fst fails ++ [addr])%list.
Proof.
  intros Hall Hf. unfold stun.DiscoverPublicAddress.
  destruct servers as [|srv rest]; [destruct fails; discriminate|].
  change (Z.of_nat (length (srv :: rest)) =? 0) with false. cbv iota.
  destruct (discoverLoop_success log (srv :: rest) None [] w fails later addr ip port Hall Hf)
    as [Hr Hp].
  destruct (stun.discoverLoop net log (srv :: rest) None [] w) as [w1 [[ip' port']|[le tr]]];
    cbn [fst snd] in *; [|discriminate].
  injection Hr as -> ->. split; [reflexivity|exact Hp].
Qed.

(** When no server answers, every configured server that is not blank has
    been probed, in order, and the error names each of them with its own
    failure; a list of blank entries only gives the bare message, and an
    empty list a message of its own, both without any probe. *)
Theorem DiscoverPublicAddress_all_fail (servers : list string)
  (log : option stun.Logger) (w : stun.World) :
  let outcomes := discovery.probeAll net (stun.probed w) (discovery.candidates servers) in
  Forall (fun a => discovery.probeError (snd a) ≠ None) outcomes →
  stun.probed (fst (stun.DiscoverPublicAddress net servers log w))
  = (stun.probed w ++ discovery.candidates servers)%list
  ∧ snd (stun.DiscoverPublicAddress net servers log w)
    = match servers, outcomes with
      | [], _ => Err "no STUN servers configured"
      | _ :: _, [] => Err "all STUN servers failed"
      | _ :: _, _ :: _ =>
          Err ("all STUN servers failed (tried: "
               ++ String.concat "; " (map discovery.report outcomes) ++ ")")
      end.
Proof.
  intros outcomes Hf. unfold stun.DiscoverPublicAddress.
  destruct servers as [|srv rest].
  - cbn. rewrite app_nil_r. split; reflexivity.
  - change (Z.of_nat (length (srv :: rest)) =? 0) with false. cbv iota.
    destruct (discoverLoop_failure log (srv :: rest) None [] w Hf) as (le & Hr & Hp).
    fold outcomes in Hr. cbn [app] in Hr.
    destruct (stun.discoverLoop net log (srv :: rest) None [] w) as [w1 [[ip' port']|[le' tr]]];
      cbn [fst snd] in *; [discriminate|].
    injection Hr as -> ->.
    destruct outcomes as [|o os] eqn:Eo.
    + cbn. split; [exact Hp|reflexivity].
    + cbn [map length].
      replace (Z.of_nat (S (length (map discovery.report os))) >? 0) with true
        by (symmetry; apply Z.gtb_lt; lia).
      cbn [fst snd]. rewrite logAt_probed. split; [exact Hp|reflexivity].
Qed.

End Discovery.

(** ** Server addresses *)

Lemma lastIndexByteFrom_app (a b : string) (c : ascii) :
  ∀ i last,
    gostd.lastIndexByteFrom (a ++ b) c i last
    = gostd.lastIndexByteFrom b c (i + strings.len a) (gostd.lastIndexByteFrom a c i last).
Proof.
  induction a as [|x a IH]; intros i last.
  - cbn. rewrite Z.add_0_r. reflexivity.
  - rewrite append_cons. cbn [gostd.lastIndexByteFrom]. rewrite IH. f_equal.
    unfold strings.len. cbn [String.length]. lia.
Qed.

Lemma lastIndexByteFrom_lacks (s : string) (c : ascii) :
  design.lacks c s → ∀ i last, gostd.lastIndexByteFrom s c i last = last.
Proof.
  induction s as [|x s IH]; intros H i last; [reflexivity|].
  apply lacks_cons in H. destruct H as [Hx Hs]. cbn [gostd.lastIndexByteFrom].
  rewrite (IH Hs). destruct (Ascii.eqb_spec x c); [contradiction|reflexivity].
Qed.

Lemma LastIndexByte_last (c : ascii) (pre post : string) :
  design.lacks c post →
  gostd.LastIndexByte (pre ++ String c post) c = strings.len pre.
Proof.
  intros H. unfold gostd.LastIndexByte. rewrite lastIndexByteFrom_app.
  cbn [gostd.lastIndexByteFrom]. rewrite Ascii.eqb_refl.
  rewrite (lastIndexByteFrom_lacks post c H). lia.
Qed.

Lemma LastIndexByte_absent (c : ascii) (s : string) :
  design.lacks c s → gostd.LastIndexByte s c = -1.
Proof. intros H. apply (lastIndexByteFrom_lacks s c H). Qed.

Lemma len_pos (s : string) : s ≠ EmptyString → 0 < strings.len s.
Proof. destruct s; [congruence|]. intros _. unfold strings.len. cbn [String.length]. lia. Qed.

Lemma JoinHostPort_plain (host port : string) :
  design.lacks ":" host → gostd.JoinHostPort host port = host ++ ":" ++ port.
Proof. intros H. unfold gostd.JoinHostPort. rewrite (Index_byte_absent ":" host H). reflexivity. Qed.

(** The split at the last colon, when it is not the first byte. *)
Lemma normalizeSTUNAddr_at_colon (host portStr : string) :
  host ≠ EmptyString →
  design.lacks ":" portStr →
  stun.normalizeSTUNAddr (host ++ ":" ++ portStr)
  = gostd.JoinHostPort host (strings.Itoa (default 19302 (gostd.Atoi portStr))).
Proof.
  intros Hhost Hport. unfold stun.normalizeSTUNAddr.
  change (host ++ ":" ++ portStr) with (host ++ String ":" portStr).
  rewrite (LastIndexByte_last ":" host portStr Hport).
  pose proof (len_pos host Hhost) as Hlen.
  replace (strings.len host >? 0) with true by (symmetry; apply Z.gtb_lt; exact Hlen).
  rewrite sliceTo_app, sliceFrom_app. cbv zeta.
  destruct portStr as [|x rest]; [reflexivity|].
  cbn [String.eqb negb]. unfold stun.defaultSTUNPort.
  destruct (gostd.Atoi (String x rest)); reflexivity.
Qed.

(** An address is split at its last colon, provided the colon is not its
    first byte. What follows the colon is the port if [strconv.Atoi] reads
    it, written back in decimal, and is replaced by the default port 19302
    if not, also when nothing follows the colon. What precedes it is the
    host: kept as it is when it has no colon, and put in brackets when it
    has one, also when it is in brackets already. *)
Theorem normalizeSTUNAddr_port_rule (host portStr : string) :
  host ≠ EmptyString →
  design.lacks ":" portStr →
  let port := strings.Itoa (default 19302 (gostd.Atoi portStr)) in
  (design.lacks ":" host →
   stun.normalizeSTUNAddr (host ++ ":" ++ portStr) = host ++ ":" ++ port)
  ∧ (strings.Contains host ":" = true →
     stun.normalizeSTUNAddr (host ++ ":" ++ portStr) = "[" ++ host ++ "]:" ++ port).
Proof.
  intros Hhost Hport port.
  rewrite (normalizeSTUNAddr_at_colon host portStr Hhost Hport). fold port. split.
  - intros Hplain. apply (JoinHostPort_plain host port Hplain).
  - intros Hcolon. unfold gostd.JoinHostPort. unfold strings.Contains in Hcolon.
    rewrite Hcolon. reflexivity.
Qed.

(** An address without a colon gets the default port 19302; and so does an
    address whose only colon is its first byte, which is taken whole for
    the host and therefore bracketed. *)
Theorem normalizeSTUNAddr_no_port (srv : string) :
  design.lacks ":" srv →
  stun.normalizeSTUNAddr srv = srv ++ ":19302"
  ∧ stun.normalizeSTUNAddr (":" ++ srv) = "[:" ++ srv ++ "]:19302".
Proof.
  intros H. split.
  - unfold stun.normalizeSTUNAddr. rewrite (LastIndexByte_absent ":" srv H).
    cbn. apply (JoinHostPort_plain srv "19302" H).
  - unfold stun.normalizeSTUNAddr.
    change (":" ++ srv) with (EmptyString ++ String ":" srv).
    rewrite (LastIndexByte_last ":" EmptyString srv H).
    change (EmptyString ++ String ":" srv) with (String ":" srv).
    change (strings.len EmptyString >? 0) with false. cbv iota zeta.
    change (negb (String.eqb EmptyString EmptyString)) with false. cbv iota.
    unfold gostd.JoinHostPort.
    assert (Hi : strings.Index (String ":" srv) ":" = 0).
    { apply (Index_byte ":" EmptyString srv). intros x []. }
    rewrite Hi. reflexivity.
Qed.

Lemma atoiDigits_acc (d : Decimal.uint) :
  ∀ acc : positive,
    gostd.atoiDigits (NilEmpty.string_of_uint d) (Z.pos acc)
    = Some (Z.pos (Pos.of_uint_acc d acc)).
Proof.
  induction d; intros acc; cbn [NilEmpty.string_of_uint gostd.atoiDigits Pos.of_uint_acc];
    [reflexivity|..];
    match goal with
    | |- context [gostd.digit ?c] =>
        let v := eval vm_compute in (gostd.digit c) in
        change (gostd.digit c) with v; cbv iota
    end;
    match goal with
    | |- gostd.atoiDigits _ ?n = Some (Z.pos (Pos.of_uint_acc _ ?q)) =>
        replace n with (Z.pos q) by lia; apply IHd
    end.
Qed.

Lemma atoiDigits_uint (d : Decimal.uint) :
  gostd.atoiDigits (NilEmpty.string_of_uint d) 0 = Some (Z.of_N (Pos.of_uint d)).
Proof.
  induction d; cbn [NilEmpty.string_of_uint gostd.atoiDigits Pos.of_uint];
    [reflexivity|..];
    match goal with
    | |- context [gostd.digit ?c] =>
        let v := eval vm_compute in (gostd.digit c) in
        change (gostd.digit c) with v; cbv iota
    end;
    [exact IHd|..];
    match goal with
    | |- gostd.atoiDigits _ ?n = Some (Z.of_N (N.pos (Pos.of_uint_acc _ ?q))) =>
        change n with (Z.pos q); apply atoiDigits_acc
    end.
Qed.

Lemma to_uint_digits (q : positive) :
  ∃ x rest, NilZero.string_of_uint (Pos.to_uint q) = String x rest
            ∧ NilEmpty.string_of_uint (Pos.to_uint q) = String x rest
            ∧ Ascii.eqb x "-" = false ∧ Ascii.eqb x "+" = false.
Proof.
  pose proof (Unsigned.to_uint_nonnil q) as Hn.
  destruct (Pos.to_uint q); [congruence|..];
    eexists _, _; (split; [reflexivity|split; [reflexivity|split; reflexivity]]).
Qed.

(** [strconv.Atoi] reads back what [strconv.Itoa] writes. *)
Lemma Atoi_Itoa (p : Z) :
  - 2 ^ 63 <= p <= 2 ^ 63 - 1 → gostd.Atoi (strings.Itoa p) = Some p.
Proof.
  intros Hp. unfold strings.Itoa. destruct p as [|q|q].
  - reflexivity.
  - cbn [Z.to_int NilZero.string_of_int].
    destruct (to_uint_digits q) as (x & rest & Hz & He & Hm & Hpl).
    rewrite Hz. unfold gostd.Atoi. rewrite Hm, Hpl. cbn [orb].
    rewrite <- He, atoiDigits_uint, Unsigned.of_to. cbn [Z.of_N].
    replace ((- 2 ^ 63 <=? Z.pos q) && (Z.pos q <=? 2 ^ 63 - 1)) with true; [reflexivity|].
    symmetry. apply andb_true_iff. split; apply Z.leb_le; lia.
  - cbn [Z.to_int NilZero.string_of_int].
    destruct (to_uint_digits q) as (x & rest & Hz & He & Hm & Hpl).
    rewrite Hz. unfold gostd.Atoi. change (Ascii.eqb "-" "-") with true. cbn [orb].
    rewrite <- He, atoiDigits_uint, Unsigned.of_to. cbn [Z.of_N].
    change (- Z.pos q) with (Z.neg q).
    replace ((- 2 ^ 63 <=? Z.neg q) && (Z.neg q <=? 2 ^ 63 - 1)) with true; [reflexivity|].
    symmetry. apply andb_true_iff. split; apply Z.leb_le; lia.
Qed.

Lemma string_of_uint_lacks_colon (d : Decimal.uint) :
  design.lacks ":" (NilEmpty.string_of_uint d).
Proof.
  induction d; cbn [NilEmpty.string_of_uint];
    [intros x []|..]; (apply lacks_cons; split; [discriminate|exact IHd]).
Qed.

Lemma Itoa_lacks_colon (p : Z) : design.lacks ":" (strings.Itoa p).
Proof.
  unfold strings.Itoa. destruct p as [|q|q].
  - apply lacks_cons. split; [discriminate|]. intros x [].
  - cbn [Z.to_int NilZero.string_of_int].
    destruct (to_uint_digits q) as (x & rest & Hz & He & _). rewrite Hz, <- He.
    apply string_of_uint_lacks_colon.
  - cbn [Z.to_int NilZero.string_of_int].
    destruct (to_uint_digits q) as (x & rest & Hz & He & _). rewrite Hz, <- He.
    apply lacks_cons. split; [discriminate|]. apply string_of_uint_lacks_colon.
Qed.

Lemma str_app_inv_head (a b c : string) : a ++ b = a ++ c → b = c.
Proof.
  induction a as [|x a IH]; [intros H; exact H|].
  rewrite !append_cons. intros H. injection H as H. apply IH. exact H.
Qed.

(** Normalizing leaves the address host:port as it is exactly when the
    port is written the way [strconv.Itoa] writes it: for a host that is
    not empty and has no colon and a port in the range of [int], the
    address with the port so written is not changed, and an address whose
    port text [strconv.Atoi] reads as that port is left unchanged if and
    only if the text is the one [strconv.Itoa] writes (a text with a sign
    [+] or leading zeros is rewritten).  In particular a normalized plain
    host name is not changed by normalizing it again. *)
Theorem normalizeSTUNAddr_canonical (host : string) (port : Z) :
  host ≠ EmptyString →
  design.lacks ":" host →
  - 2 ^ 63 <= port <= 2 ^ 63 - 1 →
  stun.normalizeSTUNAddr (host ++ ":" ++ strings.Itoa port) = host ++ ":" ++ strings.Itoa port
  ∧ (∀ portStr, design.lacks ":" portStr → gostd.Atoi portStr = Some port →
       (stun.normalizeSTUNAddr (host ++ ":" ++ portStr) = host ++ ":" ++ portStr
        ↔ portStr = strings.Itoa port))
  ∧ stun.normalizeSTUNAddr (stun.normalizeSTUNAddr host) = stun.normalizeSTUNAddr host.
Proof.
  intros Hne Hhost Hport.
  assert (Hcanon : ∀ p, - 2 ^ 63 <= p <= 2 ^ 63 - 1 →
            stun.normalizeSTUNAddr (host ++ ":" ++ strings.Itoa p)
            = host ++ ":" ++ strings.Itoa p).
  { intros p Hp. rewrite (normalizeSTUNAddr_at_colon host (strings.Itoa p) Hne (Itoa_lacks_colon p)).
    rewrite (Atoi_Itoa p Hp). cbn [default]. apply (JoinHostPort_plain _ _ Hhost). }
  split; [apply (Hcanon port Hport)|]. split.
  { intros portStr Hcolon Hread.
    rewrite (normalizeSTUNAddr_at_colon host portStr Hne Hcolon), Hread.
    change (default 19302 (Some port)) with port.
    rewrite (JoinHostPort_plain host (strings.Itoa port) Hhost). split.
    - intros Heq. apply str_app_inv_head in Heq.
      change (":" ++ strings.Itoa port) with (String ":" (strings.Itoa port)) in Heq.
      change (":" ++ portStr) with (String ":" portStr) in Heq.
      injection Heq as Heq. symmetry. exact Heq.
    - intros ->. reflexivity. }
  replace (stun.normalizeSTUNAddr host) with (host ++ ":" ++ strings.Itoa 19302);
    [apply (Hcanon 19302); lia|].
  unfold stun.normalizeSTUNAddr. rewrite (LastIndexByte_absent ":" host Hhost).
  cbn. symmetry. apply (JoinHostPort_plain host "19302" Hhost).
Qed.

(** ** The contact address *)

Section Contact.
Context `{rt : GoRuntime}.

(** On ASCII text the sentinel test does not depend on letter case. *)
Theorem IsContactSentinel_ignores_case (contactIP : string) :
  strings.isASCII contactIP = true →
  stun.IsContactSentinel (strings.ToUpper contactIP) = stun.IsContactSentinel contactIP.
Proof.
  intros Hs. unfold stun.IsContactSentinel.
  rewrite (ToUpper_ascii contactIP Hs).
  rewrite (ToLower_ascii (strings.str_map strings.upperByte contactIP))
    by (rewrite isASCII_str_map_upper; exact Hs).
  rewrite str_map_lower_upper, <- (ToLower_ascii contactIP Hs). reflexivity.
Qed.

Variable net : stun.Network.

(** [ResolveContactIfNeeded] writes nothing but the contact address, and
    that only when it returns no error; a contact that is no sentinel, or
    an empty server list, means no probe and no log record at all. *)
Theorem ResolveContactIfNeeded_frame (cfg : sip.Config) (log : option stun.Logger)
  (w : stun.World) :
  let r := stun.ResolveContactIfNeeded net cfg log w in
  let cfg' := fst (snd r) in
  (sip.Server cfg' = sip.Server cfg ∧ sip.Transport cfg' = sip.Transport cfg
   ∧ sip.Username cfg' = sip.Username cfg ∧ sip.Password cfg' = sip.Password cfg
   ∧ sip.STUNServers cfg' = sip.STUNServers cfg ∧ sip.UserAgent cfg' = sip.UserAgent cfg)
  ∧ (snd (snd r) ≠ None → cfg' = cfg)
  ∧ (stun.IsContactSentinel (sip.ContactIP cfg) = false ∨ sip.STUNServers cfg = [] →
     fst r = w ∧ cfg' = cfg)
  ∧ (stun.IsContactSentinel (sip.ContactIP cfg) = false → snd (snd r) = None)
  ∧ (stun.IsContactSentinel (sip.ContactIP cfg) = true → sip.STUNServers cfg = [] →
     snd (snd r) = Some "STUN requested but no STUN_SERVERS configured").
Proof.
  assert (Hcfg : sip.mkConfig (sip.Server cfg) (sip.Transport cfg) (sip.Username cfg)
            (sip.Password cfg) (sip.ContactIP cfg) (sip.ContactPort cfg)
            (sip.STUNServers cfg) (sip.UserAgent cfg) = cfg) by (destruct cfg; reflexivity).
  unfold stun.ResolveContactIfNeeded.
  destruct (stun.IsContactSentinel (sip.ContactIP cfg)) eqn:Es; cbn [negb];
    [destruct (sip.STUNServers cfg) as [|srv rest] eqn:El;
       [change (Z.of_nat (length (@nil string)) =? 0) with true; cbv iota
       |change (Z.of_nat (length (srv :: rest)) =? 0) with false; cbv iota;
         destruct (stun.DiscoverPublicAddress net (srv :: rest) log w)
           as [w1 [[ip port]|err]]]|];
    cbn [fst snd sip.Server sip.Transport sip.Username sip.Password sip.STUNServers
         sip.UserAgent];
    repeat match goal with
      | |- _ ∧ _ => split
      | |- _ → _ => intro
      | H : _ ∨ _ |- _ => destruct H
      end;
    try reflexivity; try congruence.
Qed.

(** With a sentinel for contact, the address the first answering server
    reports becomes the contact: host and port of the configuration, and,
    for a port above 0 other than 5060, the Contact the client announces;
    with a port other than 0 the server side listens on all interfaces. *)
Theorem ResolveContactIfNeeded_discovered {A : Type} (c : sip.Client A)
  (log : option stun.Logger) (w : stun.World)
  (fails later : list (string * stun.ProbeOutcome)) (addr ip : string) (port : Z) :
  stun.IsContactSentinel (sip.ContactIP (sip.cfg c)) = true →
  discovery.probeAll net (stun.probed w) (discovery.candidates (sip.STUNServers (sip.cfg c)))
  = (fails ++ (addr, stun.Mapped ip port) :: later)%list →
  Forall (fun a => discovery.probeError (snd a) ≠ None) fails →
  let r := stun.ResolveContactIfNeeded net (sip.cfg c) log w in
  let c' := sip.mkClient (fst (snd r)) (sip.extensions c) (sip.onBLF c) in
  snd (snd r) = None
  ∧ sip.ContactIP (sip.cfg c') = ip
  ∧ sip.ContactPort (sip.cfg c') = port
  ∧ (0 < port → port ≠ 5060 →
     sip.contactAddr c'
     = "<sip:" ++ sip.Username (sip.cfg c) ++ "@" ++ ip ++ ":" ++ strings.Itoa port ++ ">")
  ∧ (port ≠ 0 → config.defaultListenAddr (sip.cfg c') = "0.0.0.0:5060").
Proof.
  intros Hs Hall Hf. unfold stun.ResolveContactIfNeeded. rewrite Hs. cbn [negb].
  destruct (sip.STUNServers (sip.cfg c)) as [|srv rest] eqn:El;
    [destruct fails; discriminate|].
  change (Z.of_nat (length (srv :: rest)) =? 0) with false. cbv iota.
  unfold stun.DiscoverPublicAddress.
  change (Z.of_nat (length (srv :: rest)) =? 0) with false. cbv iota.
  destruct (discoverLoop_success net log (srv :: rest) None [] w fails later addr ip port Hall Hf)
    as [Hr _].
  destruct (stun.discoverLoop net log (srv :: rest) None [] w) as [w1 [[ip' port']|[le tr]]];
    cbn [fst snd] in *; [|discriminate].
  injection Hr as -> ->. cbn [sip.cfg sip.ContactIP sip.ContactPort].
  split; [reflexivity|]. split; [reflexivity|]. split; [reflexivity|].
  split.
  2:{ intros Hne. unfold config.defaultListenAddr. cbn [sip.ContactPort].
      replace (port =? 0) with false by (symmetry; apply Z.eqb_neq; exact Hne).
      reflexivity. }
  intros Hpos Hne. unfold sip.contactAddr. cbn [sip.cfg sip.ContactIP sip.ContactPort sip.Username].
  replace (port >? 0) with true by (symmetry; apply Z.gtb_lt; lia).
  replace (port =? 5060) with false by (symmetry; apply Z.eqb_neq; exact Hne).
  reflexivity.
Qed.

End Contact.

(** ** The persisted session ids *)

Section Sessions.
Context `{host : HostOS}.

(** [SetSessionID] updates the map before it saves and does not undo the
    update when saving fails: whatever the outcome, the new id is the one
    read back, the ids of the other extensions are as before, and the path
    is kept. *)
Theorem SetSessionID_read_back (s : state.SessionState) (extension sessionID : string)
  (disk : Disk) :
  let s' := (state.SetSessionID s extension sessionID disk).1.1 in
  state.GetSessionID s' extension = sessionID
  ∧ (∀ other, other ≠ extension →
       state.GetSessionID s' other = state.GetSessionID s other)
  ∧ state.path s' = state.path s.
Proof.
  unfold state.SetSessionID.
  destruct (state.save _ disk) as [disk' err]. cbn [fst snd state.path].
  unfold state.GetSessionID. cbn [state.ByExt]. split; [|split; [|reflexivity]].
  - rewrite lookup_insert_eq. reflexivity.
  - intros other Hne. rewrite lookup_insert_ne by congruence. reflexivity.
Qed.

(** What a successful [save] leaves on the disk. *)
Lemma save_written (s : state.SessionState) (disk disk' : Disk) :
  state.save s disk = (disk', None) →
  ∃ data, jsonMarshalIndent (state.ByExt s) = Ok data
          ∧ disk' = <[state.path s := data]> disk.
Proof.
  unfold state.save. destruct (jsonMarshalIndent (state.ByExt s)) as [data|err]; [|discriminate].
  destruct (if negb (String.eqb (Dir (state.path s)) ".")
            then os.MkdirAll (Dir (state.path s)) else None); [discriminate|].
  unfold os.WriteFile. destruct (writeFault (state.path s)); [discriminate|].
  intros H. injection H as <-. exists data. split; reflexivity.
Qed.

(** A state that was set and saved is the state loaded again from its
    path, provided the file can be read and the JSON decoder reads back
    what the encoder wrote for this map. *)
Theorem SetSessionID_then_load (s : state.SessionState) (extension sessionID : string)
  (disk : Disk) :
  let r := state.SetSessionID s extension sessionID disk in
  r.2 = None →
  readFault (state.path s) = None →
  (∀ data, jsonMarshalIndent (state.ByExt r.1.1) = Ok data →
           data ≠ EmptyString ∧ jsonUnmarshal data = Ok (Some (state.ByExt r.1.1))) →
  state.LoadSessionState (state.path s) r.1.2 = (r.1.2, Ok r.1.1).
Proof.
  unfold state.SetSessionID.
  destruct (state.save _ disk) as [disk' err] eqn:Es. cbn [fst snd].
  intros -> Hread Hcodec.
  destruct (save_written _ _ _ Es) as (data & Hm & ->). cbn [state.path state.ByExt] in *.
  destruct (Hcodec data Hm) as [Hne Hu].
  unfold state.LoadSessionState, os.ReadFile. rewrite Hread, lookup_insert_eq.
  destruct data as [|x data]; [congruence|].
  replace (strings.len (String x data) =? 0) with false
    by (symmetry; apply Z.eqb_neq; unfold strings.len; cbn [String.length]; lia).
  rewrite Hu. reflexivity.
Qed.

(** Loading from a path with no file creates the file: when that
    succeeds, the state is empty, every extension reads as the empty
    string, and the disk differs only by the new file, which holds the
    encoding of the empty map. *)
Theorem LoadSessionState_missing_file (p : string) (disk : Disk) (s : state.SessionState) :
  disk !! p = None →
  readFault p = None →
  (state.LoadSessionState p disk).2 = Ok s →
  s = state.mkSessionState p ∅
  ∧ (∀ extension, state.GetSessionID s extension = EmptyString)
  ∧ ∃ data, jsonMarshalIndent (∅ : gmap string string) = Ok data
            ∧ (state.LoadSessionState p disk).1 = <[p := data]> disk.
Proof.
  intros Hnone Hread. unfold state.LoadSessionState, os.ReadFile. rewrite Hread, Hnone.
  destruct (state.save (state.mkSessionState p ∅) disk) as [disk' [err|]] eqn:Es;
    cbn [fst snd]; [discriminate|].
  intros H. injection H as <-.
  destruct (save_written _ _ _ Es) as (data & Hm & ->). cbn [state.path state.ByExt] in *.
  split; [reflexivity|]. split.
  - intros extension. unfold state.GetSessionID. cbn [state.ByExt].
    rewrite lookup_empty. reflexivity.
  - exists data. split; [exact Hm|reflexivity].
Qed.

(** A file that is there is never written by [LoadSessionState], and an
    empty file or JSON [null] loads as the empty state. *)
Theorem LoadSessionState_existing_file (p data : string) (disk : Disk) :
  disk !! p = Some data →
  (state.LoadSessionState p disk).1 = disk
  ∧ (readFault p = None →
     data = EmptyString ∨ jsonUnmarshal data = Ok None →
     (state.LoadSessionState p disk).2 = Ok (state.mkSessionState p ∅)).
Proof.
  intros Hsome. unfold state.LoadSessionState, os.ReadFile. rewrite Hsome. split.
  - destruct (readFault p); [reflexivity|].
    destruct (strings.len data =? 0); [reflexivity|].
    destruct (jsonUnmarshal data) as [[byExt|]|err]; reflexivity.
  - intros -> [-> | Hnull]; [reflexivity|].
    destruct (strings.len data =? 0); [reflexivity|]. rewrite Hnull. reflexivity.
Qed.

End Sessions.

(** ** The program: extension table and presence callback *)

Lemma collect_acc (extensions : list ExtensionEntry) :
  ∀ (extList : list string) (emailByExt : gmap string string),
    (cmd.collect extensions extList emailByExt).1
    = (extList ++ map Extension extensions)%list
    ∧ (∀ ext, ¬ In ext (map Extension extensions) →
         (cmd.collect extensions extList emailByExt).2 !! ext = emailByExt !! ext)
    ∧ (∀ (pre : list ExtensionEntry) (e : ExtensionEntry) (post : list ExtensionEntry),
         extensions = (pre ++ e :: post)%list →
         Forall (fun e' => Extension e' ≠ Extension e) post →
         (cmd.collect extensions extList emailByExt).2 !! Extension e = Some (Email e)).
Proof.
  induction extensions as [|e0 rest IH]; intros extList emailByExt.
  - cbn. rewrite app_nil_r. split; [reflexivity|]. split; [reflexivity|].
    intros pre e post H. destruct pre; discriminate.
  - cbn [cmd.collect map].
    destruct (IH (extList ++ [Extension e0])%list (<[Extension e0 := Email e0]> emailByExt))
      as (Hl & Hout & Hin).
    split; [rewrite Hl, <- app_assoc; reflexivity|]. split.
    + intros ext Hno. rewrite Hout by (intros H; apply Hno; right; exact H).
      apply lookup_insert_ne. intros Heq. apply Hno. left. exact Heq.
    + intros pre e post Heq Hpost. destruct pre as [|p pre].
      * cbn [app] in Heq. injection Heq as -> ->.
        rewrite Hout; [apply lookup_insert_eq|].
        intros Hi. apply in_map_iff in Hi. destruct Hi as (e' & He' & Hin').
        rewrite List.Forall_forall in Hpost. apply (Hpost e' Hin'). exact He'.
      * cbn [app] in Heq. injection Heq as -> ->. apply (Hin pre e post eq_refl Hpost).
Qed.

Lemma last_entry (ext : string) (l : list ExtensionEntry) :
  In ext (map Extension l) →
  ∃ pre e post, l = (pre ++ e :: post)%list ∧ Extension e = ext
                ∧ Forall (fun x => Extension x ≠ Extension e) post.
Proof.
  induction l as [|x l IH]; intros Hi; [destruct Hi|].
  destruct (in_dec string_dec ext (map Extension l)) as [Hd|Hd].
  - destruct (IH Hd) as (pre & e & post & -> & He & Hp).
    exists (x :: pre), e, post. split; [reflexivity|]. split; assumption.
  - destruct Hi as [Hx|Hi]; [|contradiction].
    exists [], x, l. split; [reflexivity|]. split; [exact Hx|].
    rewrite List.Forall_forall. intros y Hy Heq. apply Hd. apply in_map_iff.
    exists y. split; [congruence|exact Hy].
Qed.

(** The tables [main] builds from the configured entries: every entry's
    extension is subscribed, in order and with repetitions; of several
    entries for one extension the last decides the e-mail address; and
    exactly the subscribed extensions have one. *)
Theorem collect_tables (extensions : list ExtensionEntry) :
  let r := cmd.collect extensions [] ∅ in
  r.1 = map Extension extensions
  ∧ (∀ (pre : list ExtensionEntry) (e : ExtensionEntry) (post : list ExtensionEntry),
       extensions = (pre ++ e :: post)%list →
       Forall (fun e' => Extension e' ≠ Extension e) post →
       r.2 !! Extension e = Some (Email e))
  ∧ (∀ ext, In ext r.1 ↔ is_Some (r.2 !! ext)).
Proof.
  intros r. destruct (collect_acc extensions [] ∅) as (Hl & Hout & Hin).
  fold r in Hl, Hout, Hin. cbn [app] in Hl.
  split; [exact Hl|]. split; [exact Hin|].
  intros ext. rewrite Hl. split.
  - intros Hi. destruct (last_entry ext extensions Hi) as (pre & e & post & Heq & <- & Hp).
    rewrite (Hin pre e post Heq Hp). eexists; reflexivity.
  - intros [email Hsome].
    destruct (in_dec string_dec ext (map Extension extensions)) as [Hd|Hd]; [exact Hd|].
    rewrite (Hout ext Hd), lookup_empty in Hsome. discriminate.
Qed.

Section Callback.
Context `{rt : GoRuntime} `{glib : GraphLib}.
Variable svc : graph.Service.

Lemma logAt_graphClient (l : slog.Level) (msg : string) (attrs : list (string * slog.Value))
  (w : cmd.World) : cmd.graphClient (cmd.logAt l msg attrs w) = cmd.graphClient w.
Proof. reflexivity. Qed.

(** From a NOTIFY to Graph, with the callback of [main] registered. A
    notification that is acknowledged, has a body and names an extension
    of the table sets the presence of that extension's user to what
    [ToGraph] makes of the normalized state. One that names an extension
    outside the table, and one whose acknowledgement fails or whose body
    is empty, reaches Graph with nothing. *)
Theorem notify_to_presence (c : sip.Client (cmd.World → cmd.World))
  (emailByExt : gmap string string) (req : sipmsg.Request) (tx : sipmsg.ServerTransaction)
  (w : cmd.World) :
  sip.onBLF c = Some (cmd.onBLF svc emailByExt) →
  let ack := sipmsg.NewResponseFromRequest req 200 "OK" in
  let extension := design.resourceIdentifier req in
  let w' := publishing.handled (sip.handleNOTIFY c req tx) w in
  (sipmsg.Respond tx ack = None → sipmsg.Body req ≠ EmptyString →
   extension ≠ EmptyString →
   ∀ email, emailByExt !! extension = Some email →
     cmd.graphClient w'
     = (graph.SetPresence svc email extension
          (blf.ToGraph (design.notifiedState (sipmsg.Body req))).1
          (blf.ToGraph (design.notifiedState (sipmsg.Body req))).2
          (cmd.graphClient w)).1)
  ∧ (emailByExt !! extension = None → cmd.graphClient w' = cmd.graphClient w)
  ∧ (sipmsg.Respond tx ack ≠ None ∨ sipmsg.Body req = EmptyString → w' = w).
Proof.
  intros Hh ack extension w'.
  assert (Hquiet : sipmsg.Respond tx ack ≠ None ∨ sipmsg.Body req = EmptyString → w' = w).
  { intros Hcase. unfold w', sip.handleNOTIFY. fold ack.
    destruct (sipmsg.Respond tx ack) as [err|] eqn:Hack; [reflexivity|].
    destruct Hcase as [Hc|Hb]; [congruence|]. rewrite Hb. reflexivity. }
  assert (Hrun : sipmsg.Respond tx ack = None → sipmsg.Body req ≠ EmptyString →
                 w' = if negb (String.eqb extension EmptyString)
                      then cmd.onBLF svc emailByExt extension
                             (design.notifiedState (sipmsg.Body req)) w
                      else w).
  { intros Hack Hbody. unfold w'.
    rewrite (handleNOTIFY_acknowledged c req tx Hack Hbody), Hh. fold extension.
    destruct (negb (String.eqb extension EmptyString)); reflexivity. }
  split; [|split; [|exact Hquiet]].
  - intros Hack Hbody Hext email Hemail. rewrite (Hrun Hack Hbody).
    destruct (String.eqb_spec extension EmptyString) as [He|_]; [contradiction|].
    cbn [negb]. unfold cmd.onBLF. rewrite Hemail.
    destruct (blf.ToGraph (design.notifiedState (sipmsg.Body req))) as [av ac]. cbn [fst snd].
    destruct (graph.SetPresence svc email extension av ac (cmd.graphClient w)) as [gc [err|]];
      reflexivity.
  - intros Hnone.
    destruct (sipmsg.Respond tx ack) as [err|] eqn:Hack;
      [rewrite Hquiet by (left; congruence); reflexivity|].
    destruct (String.eqb_spec (sipmsg.Body req) EmptyString) as [Hb|Hb];
      [rewrite Hquiet by (right; exact Hb); reflexivity|].
    rewrite (Hrun eq_refl Hb).
    destruct (negb (String.eqb extension EmptyString)); [|reflexivity].
    unfold cmd.onBLF. rewrite Hnone. reflexivity.
Qed.

End Callback.

(** ** The configuration files *)

Section Files.
Context `{rt : GoRuntime} `{fold : GoFold} `{host : HostOS} `{codec : ConfigCodec}.

Lemma csvLoop_rest (records : list (list string)) :
  ∀ (i : Z) (list_ : list ExtensionEntry),
    0 < i → config.csvLoop i records list_ = (list_ ++ flat_map rows.entry records)%list.
Proof.
  induction records as [|rec rest IH]; intros i list_ Hi.
  - cbn. rewrite app_nil_r. reflexivity.
  - cbn [config.csvLoop flat_map]. unfold rows.entry at 1.
    replace (i =? 0) with false by (symmetry; apply Z.eqb_neq; lia). cbn [andb].
    destruct rec as [|f0 [|f1 more]];
      [rewrite IH by lia; reflexivity|rewrite IH by lia; reflexivity|].
    destruct (String.eqb (strings.TrimSpace f0) EmptyString
              && String.eqb (strings.TrimSpace f1) EmptyString);
      rewrite IH by lia; [reflexivity|rewrite <- app_assoc; reflexivity].
Qed.

(** The entries of a CSV file, record by record: a record of fewer than
    two fields or with two blank fields gives none, every other record
    one, of its first two fields trimmed; fields after the second are
    ignored. A header is recognised in the first record only: a later
    record reading extension,email is an entry like any other. *)
Theorem loadExtensionsCSV_rows (path data : string) (disk : Disk)
  (records : list (list string)) :
  os.ReadFile path disk = os.ReadOk data →
  csvReadAll data = Ok records →
  config.loadExtensionsCSV path disk
  = Ok match records with
       | [] => []
       | first :: rest =>
           ((if rows.isHeader first then [] else rows.entry first)
            ++ flat_map rows.entry rest)%list
       end.
Proof.
  intros Hread Hcsv. unfold config.loadExtensionsCSV. rewrite Hread, Hcsv. f_equal.
  destruct records as [|first rest]; [reflexivity|].
  cbn [config.csvLoop]. unfold rows.isHeader, rows.entry at 1 2.
  change (0 =? 0) with true. cbn [andb].
  destruct first as [|f0 [|f1 more]];
    [apply (csvLoop_rest rest 1 []); lia|apply (csvLoop_rest rest 1 []); lia|].
  destruct (String.eqb (strings.TrimSpace f0) EmptyString
            && String.eqb (strings.TrimSpace f1) EmptyString) eqn:Eb.
  - rewrite (csvLoop_rest rest (0 + 1) []) by lia.
    destruct (gofold.EqualFold (strings.TrimSpace f0) "extension"
              && gofold.EqualFold (strings.TrimSpace f1) "email"); reflexivity.
  - destruct (gofold.EqualFold (strings.TrimSpace f0) "extension"
              && gofold.EqualFold (strings.TrimSpace f1) "email");
      rewrite (csvLoop_rest rest (0 + 1) _) by lia; reflexivity.
Qed.

Lemma str_drop_length (a b : string) : strings.str_drop (String.length a) (a ++ b) = b.
Proof. induction a as [|x a IH]; [reflexivity|]. rewrite append_cons. exact IH. Qed.

Lemma len_app (a b : string) : strings.len (a ++ b) = strings.len a + strings.len b.
Proof. unfold strings.len. rewrite str_length_app. lia. Qed.

Lemma sliceFrom_len (a b : string) : strings.sliceFrom (a ++ b) (strings.len a) = b.
Proof. unfold strings.sliceFrom, strings.len. rewrite Nat2Z.id. apply str_drop_length. Qed.

Lemma HasSuffix_app (a suffix : string) : gostd.HasSuffix (a ++ suffix) suffix = true.
Proof.
  unfold gostd.HasSuffix. rewrite len_app.
  replace (strings.len a + strings.len suffix - strings.len suffix) with (strings.len a) by lia.
  rewrite sliceFrom_len, String.eqb_refl.
  rewrite andb_true_r. apply Z.leb_le. pose proof (len_nonneg a). lia.
Qed.

Lemma TrimSuffix_app (a suffix : string) : gostd.TrimSuffix (a ++ suffix) suffix = a.
Proof.
  unfold gostd.TrimSuffix. rewrite HasSuffix_app, len_app.
  replace (strings.len a + strings.len suffix - strings.len suffix) with (strings.len a) by lia.
  apply sliceTo_app.
Qed.

(** The fallback of [loadExtensionsFromPath]: when there is no file at a
    path ending in .json, the path with .json replaced by .csv is loaded
    as CSV if a file is there, and the error names both paths if not. *)
Theorem loadExtensionsFromPath_csv_fallback (base : string) (disk : Disk) :
  disk !! (base ++ ".json") = None →
  config.loadExtensionsFromPath (base ++ ".json") disk
  = match disk !! (base ++ ".csv") with
    | Some _ =>
        config.loaded (config.loadExtensionsCSV (base ++ ".csv") disk) (base ++ ".csv")
    | None =>
        ([], EmptyString,
         Some ("extensions file not found: tried " ++ (base ++ ".json") ++ " and "
               ++ (base ++ ".csv")))
    end.
Proof.
  intros Hnone. unfold config.loadExtensionsFromPath, os.exists_.
  rewrite Hnone, HasSuffix_app, TrimSuffix_app.
  destruct (disk !! (base ++ ".csv")); reflexivity.
Qed.

End Files.

(** ** The properties on the samples *)

Lemma lacks_check (ch : ascii) (s : string) :
  forallb (fun x => negb (Ascii.eqb x ch)) (list_ascii_of_string s) = true →
  design.lacks ch s.
Proof.
  intros H x Hx Heq. rewrite forallb_forall in H. specialize (H x Hx).
  rewrite Heq, Ascii.eqb_refl in H. discriminate.
Qed.

Lemma lacksAny_check (chars s : string) :
  forallb (fun x => negb (strings.containsByte chars x)) (list_ascii_of_string s) = true →
  notions.lacksAny chars s.
Proof.
  intros H x Hx. rewrite forallb_forall in H. specialize (H x Hx).
  destruct (strings.containsByte chars x); [discriminate|reflexivity].
Qed.

Lemma dialogState_dialogStateStr_ascii_witness :
  let d := blf.mkDialog "a" " Confirmed " "early" "x"
             (blf.mkParty EmptyString EmptyString) (blf.mkParty EmptyString EmptyString) in
  blf.dialogState (rt := samples.runtime) d
  = blf.dialogStateStr (rt := samples.runtime) " Confirmed " "early".
Proof.
  intros d. apply (dialogState_dialogStateStr_ascii (rt := samples.runtime) d); reflexivity.
Defined.

Lemma ExtensionFromDialogInfo_namespaced_witness :
  blf.ExtensionFromDialogInfo (rt := samples.runtime) samples.confirmedBody = "6000".
Proof.
  destruct (blf.Unmarshal_DialogInfo (rt := samples.runtime) samples.confirmedBody)
    as [info|] eqn:E; [|discriminate E].
  destruct (ExtensionFromDialogInfo_namespaced (rt := samples.runtime)
              samples.confirmedBody info E) as [Hentity _].
  apply (Hentity "sip" "6000" "pbx.example.com").
  - injection E as <-. reflexivity.
  - apply lacks_check. reflexivity.
  - apply lacks_check. reflexivity.
Defined.

Lemma extensionFromTo_user_witness :
  sip.extensionFromTo EmptyString (Some (sipmsg.NewHeader "To" "<sip:6000@pbx>;tag=1"))
  = "6000".
Proof.
  apply (extensionFromTo_user "To" "<sip" "6000" "pbx" ">;tag=1" EmptyString).
  - apply lacks_check. reflexivity.
  - apply lacks_check. reflexivity.
  - apply lacksAny_check. reflexivity.
  - apply lacksAny_check. reflexivity.
  - right. exists ">"%char, ";tag=1". split; reflexivity.
Defined.

Lemma extensionFromTo_unchanged_witness :
  sip.extensionFromTo "7000" (Some (sipmsg.NewHeader "To" "<tel:+15550100>")) = "7000".
Proof.
  apply (extensionFromTo_unchanged "To" "<tel:+15550100>" "7000").
  right. exists "<tel", "+15550100>". split; [reflexivity|].
  split; apply lacks_check; reflexivity.
Defined.

Lemma subscribeOne_retry_rule_witness :
  let c := samples.client ["6000"] in
  let w := samples.world [Replies samples.challenge; Replies (samples.reply 202)] in
  snd (sip.subscribeOne (rt := samples.runtime) (lib := samples.sipLib) c "6000" w) = Ok tt
  ∧ length (sip.sent (fst (sip.subscribeOne (rt := samples.runtime) (lib := samples.sipLib)
                             c "6000" w))) = 2%nat
  ∧ option_map design.viaCount
      (last (sip.sent (fst (sip.subscribeOne (rt := samples.runtime) (lib := samples.sipLib)
                              c "6000" w))))
    = Some 2%nat.
Proof.
  intros c w.
  destruct (subscribeOne_retry_rule (rt := samples.runtime) (lib := samples.sipLib)
              c "6000" w (sipmsg.mkUri "6000" "pbx.example.com:5060" 0) eq_refl)
    as (_ & _ & Hretry & _).
  destruct (Hretry samples.challenge (Replies (samples.reply 202)) []
              (sipmsg.NewHeader "WWW-Authenticate" "Digest realm=asterisk, nonce=abc")
              "Digest realm=asterisk, nonce=abc" "Digest username=blf-client"
              eq_refl eq_refl eq_refl eq_refl eq_refl)
    as (Hsent & _ & _ & _ & _ & _ & Hvia & _ & Hfinal).
  cbv beta iota in Hfinal. destruct Hfinal as [Hok _].
  split; [apply Hok; right; reflexivity|].
  split; [rewrite Hsent; reflexivity|].
  rewrite Hsent. exact (f_equal Some Hvia).
Defined.

Lemma subscribeOne_requests_witness :
  let c := samples.client ["6000"] in
  let w := samples.world [Replies (samples.reply 200)] in
  ∃ new : list sipmsg.Request,
    sip.sent (fst (sip.subscribeOne (rt := samples.runtime) (lib := samples.sipLib)
                     c "6000" w)) = (sip.sent w ++ new)%list
    ∧ new ≠ []
    ∧ ∀ req, In req new → sipmsg.Transport req = "UDP".
Proof.
  intros c w.
  destruct (subscribeOne_requests (rt := samples.runtime) (lib := samples.sipLib)
              c "6000" w (sipmsg.mkUri "6000" "pbx.example.com:5060" 0) eq_refl)
    as (new & Hsent & Hne & Hall).
  exists new. split; [exact Hsent|]. split; [exact Hne|].
  intros req Hreq. destruct (Hall req Hreq) as (_ & _ & _ & _ & _ & Ht).
  rewrite Ht. reflexivity.
Defined.

Lemma Subscribe_404_warning_witness :
  let c := samples.client ["1404"] in
  let w := samples.world [Replies (samples.reply 500)] in
  sip.logs (fst (sip.Subscribe (rt := samples.runtime) (lib := samples.sipLib) c w)) !! 0%nat
  = Some (slog.mkEntry slog.LevelWarn "subscribe 404 (extension may lack BLF hint on PBX)"
            [("extension", slog.String_ "1404");
             ("hint", slog.String_ "See README or FreePBX dialplan hints / res_pjsip allow_subscribe")]).
Proof.
  intros c w.
  apply (Subscribe_404_warning (rt := samples.runtime) (lib := samples.sipLib)
           c w 0%nat "1404" "500").
  - reflexivity.
  - right. reflexivity.
Defined.

Lemma SetPresence_success_witness :
  let r := graph.SetPresence (samples.directory true true) "user1@contoso.com" "1001"
             "Busy" "InACall" samples.freshClient in
  snd r = None
  ∧ graph.graph (fst r)
    = [graph.UsersGet "user1@contoso.com";
       graph.PresencePost "0f1e2d3c" (graph.mkPresenceBody (glib := samples.graphLib) "app-id" "Busy" "InACall" "PT1H")].
Proof.
  intros r.
  destruct (SetPresence_success (samples.directory true true) samples.freshClient
              "user1@contoso.com" "1001" "Busy" "InACall" "0f1e2d3c" "PT1H"
              eq_refl eq_refl eq_refl) as (Hnil & Hgraph & _).
  split; [exact Hnil|]. unfold r. rewrite Hgraph. reflexivity.
Defined.

Lemma publishes_one_lookup_witness :
  let c' := design.runOps (samples.directory true true)
              (publishing.publishes "user1@contoso.com"
                 [("1001", "Busy", "InACall"); ("1001", "Available", "Available")])
              samples.freshClient in
  graph.lookups "user1@contoso.com" (graph.graph c') = 1%nat
  ∧ graph.presencePosts (graph.graph c') = 2%nat.
Proof.
  intros c'.
  apply (publishes_one_lookup (samples.directory true true) samples.freshClient
           "user1@contoso.com" "0f1e2d3c" "PT1H" ("1001", "Busy", "InACall")
           [("1001", "Available", "Available")] eq_refl eq_refl eq_refl).
Defined.

Lemma DiscoverPublicAddress_first_answer_witness :
  let servers := ["stun1.example.com"; "  "; "stun2.example.com:3478"; "stun3.example.com"] in
  let r := stun.DiscoverPublicAddress (rt := samples.runtime) fixtures.network servers None
             (stun.mkWorld [] []) in
  snd r = Ok ("198.51.100.4", 40000)
  ∧ stun.probed (fst r) = ["stun1.example.com:19302"; "stun2.example.com:3478"].
Proof.
  intros servers r.
  apply (DiscoverPublicAddress_first_answer (rt := samples.runtime) fixtures.network
           servers None (stun.mkWorld [] [])
           [("stun1.example.com:19302", stun.KeepaliveFails "i/o timeout")]
           [("stun3.example.com:19302", stun.NoHost)]
           "stun2.example.com:3478" "198.51.100.4" 40000).
  - reflexivity.
  - constructor; [discriminate|constructor].
Defined.

Lemma DiscoverPublicAddress_all_fail_witness :
  let servers := ["stun1.example.com"; "  "; "stun9.example.com:x"] in
  let r := stun.DiscoverPublicAddress (rt := samples.runtime) fixtures.network servers
             (Some stun.DefaultLogger) (stun.mkWorld [] []) in
  stun.probed (fst r) = ["stun1.example.com:19302"; "stun9.example.com:19302"]
  ∧ snd r
    = Err "all STUN servers failed (tried: stun1.example.com:19302: i/o timeout; stun9.example.com:19302: no mapped address in STUN response)".
Proof.
  intros servers r.
  apply (DiscoverPublicAddress_all_fail (rt := samples.runtime) fixtures.network
           servers (Some stun.DefaultLogger) (stun.mkWorld [] [])).
  constructor; [discriminate|]. constructor; [discriminate|constructor].
Defined.

Lemma normalizeSTUNAddr_port_rule_witness :
  stun.normalizeSTUNAddr "stun.example.com:0080" = "stun.example.com:80"
  ∧ stun.normalizeSTUNAddr "[2001:db8::1]:3478" = "[[2001:db8::1]]:3478".
Proof.
  split.
  - destruct (normalizeSTUNAddr_port_rule "stun.example.com" "0080") as [Hplain _].
    + discriminate.
    + apply lacks_check. reflexivity.
    + apply Hplain. apply lacks_check. reflexivity.
  - destruct (normalizeSTUNAddr_port_rule "[2001:db8::1]" "3478") as [_ Hcolon].
    + discriminate.
    + apply lacks_check. reflexivity.
    + apply Hcolon. reflexivity.
Defined.

Lemma normalizeSTUNAddr_no_port_witness :
  stun.normalizeSTUNAddr "stun.l.google.com" = "stun.l.google.com:19302"
  ∧ stun.normalizeSTUNAddr ":stun.l.google.com" = "[:stun.l.google.com]:19302".
Proof.
  apply (normalizeSTUNAddr_no_port "stun.l.google.com").
  apply lacks_check. reflexivity.
Defined.

Lemma normalizeSTUNAddr_canonical_witness :
  stun.normalizeSTUNAddr "stun.l.google.com:3478" = "stun.l.google.com:3478"
  ∧ stun.normalizeSTUNAddr "stun.l.google.com:+3478" ≠ "stun.l.google.com:+3478"
  ∧ stun.normalizeSTUNAddr "stun.l.google.com:03478" ≠ "stun.l.google.com:03478"
  ∧ stun.normalizeSTUNAddr (stun.normalizeSTUNAddr "stun.l.google.com")
    = stun.normalizeSTUNAddr "stun.l.google.com".
Proof.
  destruct (normalizeSTUNAddr_canonical "stun.l.google.com" 3478)
    as (Hfixed & Honly & Htwice).
  - discriminate.
  - apply lacks_check. reflexivity.
  - lia.
  - split; [exact Hfixed|]. split; [|split; [|exact Htwice]].
    + intros Heq. apply (Honly "+3478") in Heq; [discriminate| |reflexivity].
      apply lacks_check. reflexivity.
    + intros Heq. apply (Honly "03478") in Heq; [discriminate| |reflexivity].
      apply lacks_check. reflexivity.
Defined.

Lemma IsContactSentinel_ignores_case_witness :
  stun.IsContactSentinel (rt := samples.runtime)
    (strings.ToUpper (rt := samples.runtime) " stun ")
  = stun.IsContactSentinel (rt := samples.runtime) " stun ".
Proof.
  apply (IsContactSentinel_ignores_case (rt := samples.runtime) " stun "). reflexivity.
Defined.

Lemma ResolveContactIfNeeded_discovered_witness :
  let c := fixtures.autoClient ["stun1.example.com"; "stun2.example.com:3478"] in
  let r := stun.ResolveContactIfNeeded (rt := samples.runtime) fixtures.network (sip.cfg c)
             None (stun.mkWorld [] []) in
  let c' := sip.mkClient (fst (snd r)) (sip.extensions c) (sip.onBLF c) in
  snd (snd r) = None
  ∧ sip.contactAddr c' = "<sip:blf-client@198.51.100.4:40000>"
  ∧ config.defaultListenAddr (rt := samples.runtime) (sip.cfg c') = "0.0.0.0:5060".
Proof.
  intros c r c'.
  destruct (ResolveContactIfNeeded_discovered (rt := samples.runtime) fixtures.network
              c None (stun.mkWorld [] [])
              [("stun1.example.com:19302", stun.KeepaliveFails "i/o timeout")] []
              "stun2.example.com:3478" "198.51.100.4" 40000)
    as (Hnil & _ & _ & Hcontact & Hlisten).
  - reflexivity.
  - reflexivity.
  - constructor; [discriminate|constructor].
  - split; [exact Hnil|]. split; [apply Hcontact; lia|apply Hlisten; lia].
Defined.

Lemma SetSessionID_then_load_witness :
  let r := state.SetSessionID (host := fixtures.host)
             (state.mkSessionState fixtures.statePath ∅) "1001" "session-1" ∅ in
  state.LoadSessionState (host := fixtures.host) fixtures.statePath r.1.2 = (r.1.2, Ok r.1.1).
Proof.
  intros r.
  apply (SetSessionID_then_load (host := fixtures.host)
           (state.mkSessionState fixtures.statePath ∅) "1001" "session-1" ∅).
  - vm_compute. reflexivity.
  - reflexivity.
  - intros data Hdata. vm_compute in Hdata. injection Hdata as <-.
    split; [discriminate|vm_compute; reflexivity].
Defined.

Lemma LoadSessionState_missing_file_witness :
  ∃ data,
    jsonMarshalIndent (HostOS := fixtures.host) (∅ : gmap string string) = Ok data
    ∧ (state.LoadSessionState (host := fixtures.host) fixtures.statePath ∅).1
      = <[fixtures.statePath := data]> (∅ : Disk).
Proof.
  destruct (LoadSessionState_missing_file (host := fixtures.host) fixtures.statePath ∅
              (state.mkSessionState fixtures.statePath ∅))
    as (_ & _ & Hdisk); [apply lookup_empty|reflexivity|vm_compute; reflexivity|].
  exact Hdisk.
Defined.

Lemma LoadSessionState_existing_file_witness :
  let disk : Disk := {[fixtures.statePath := "null"]} in
  (state.LoadSessionState (host := fixtures.host) fixtures.statePath disk).1 = disk
  ∧ (state.LoadSessionState (host := fixtures.host) fixtures.statePath disk).2
    = Ok (state.mkSessionState fixtures.statePath ∅).
Proof.
  intros disk.
  destruct (LoadSessionState_existing_file (host := fixtures.host) fixtures.statePath
              "null" disk) as [Hkept Hnull]; [apply lookup_singleton_eq|].
  split; [exact Hkept|]. apply Hnull; [reflexivity|]. right. reflexivity.
Defined.

Lemma notify_to_presence_witness :
  let w' := publishing.handled
              (sip.handleNOTIFY (rt := samples.runtime) fixtures.callbackClient
                 (samples.notify samples.confirmedBody None) samples.okTx)
              fixtures.quietWorld in
  graph.graph (cmd.graphClient w')
  = [graph.UsersGet "user1@contoso.com";
     graph.PresencePost "0f1e2d3c" (graph.mkPresenceBody (glib := samples.graphLib) "app-id" "Busy" "InACall" "PT1H")].
Proof.
  intros w'.
  destruct (notify_to_presence (rt := samples.runtime) (samples.directory true true)
              fixtures.callbackClient fixtures.emailByExt
              (samples.notify samples.confirmedBody None) samples.okTx fixtures.quietWorld
              eq_refl) as (Hset & _ & _).
  unfold w'. rewrite (Hset eq_refl ltac:(discriminate) ltac:(discriminate)
                        "user1@contoso.com" eq_refl).
  reflexivity.
Defined.

Lemma loadExtensionsCSV_rows_witness :
  config.loadExtensionsCSV (rt := samples.runtime) (fold := fixtures.fold)
    (host := fixtures.host) (codec := fixtures.codec) "config/extensions.csv" fixtures.disk
  = Ok [mkExtensionEntry "1001" "user1@contoso.com"; mkExtensionEntry "extension" "email"].
Proof.
  rewrite (loadExtensionsCSV_rows (rt := samples.runtime) (fold := fixtures.fold)
             (host := fixtures.host) (codec := fixtures.codec)
             "config/extensions.csv" fixtures.csvText fixtures.disk fixtures.csvRecords)
    by (vm_compute; reflexivity).
  vm_compute. reflexivity.
Defined.

Lemma loadExtensionsFromPath_csv_fallback_witness :
  config.loadExtensionsFromPath (rt := samples.runtime) (fold := fixtures.fold)
    (host := fixtures.host) (codec := fixtures.codec) "config/extensions.json" fixtures.disk
  = ([mkExtensionEntry "1001" "user1@contoso.com"; mkExtensionEntry "extension" "email"],
     "config/extensions.csv", None).
Proof.
  etransitivity.
  - apply (loadExtensionsFromPath_csv_fallback (rt := samples.runtime)
             (fold := fixtures.fold) (host := fixtures.host) (codec := fixtures.codec)
             "config/extensions" fixtures.disk).
    vm_compute. reflexivity.
  - vm_compute. reflexivity.
Defined.
